(** * mulesoft_downloader.py: a shallow embedding and its properties

    The script authenticates against the Anypoint platform, lists the
    deployed applications, and downloads the artifact of each one.  Every
    method of [MulesoftDownloader] is embedded below as a computation in a
    small state-and-exception monad.  The state holds the trace of the
    effects issued so far (console lines, HTTP calls, file-system calls)
    and the file system; everything the script does not control (the
    environment variables, the clock, the HTTP server, the operating
    system, the text form of Python values) is a field of a [World]. *)

From Stdlib Require Import ZArith List Ascii String Bool Lia SpecFloat.
From Stdlib Require Import Decimal DecimalString DecimalZ DecimalPos DecimalFacts.
From stdpp Require Import base gmap strings.

Set Warnings "-register-all".

(* ===================================================================== *)
(** ** Text *)
(* ===================================================================== *)

(** A Python [str] is a sequence of code points: the type [str], whose
    characters are numbers.  The text of the environment, the names of
    HTTP headers (both compared without case by the script) and the
    decimal text of numbers stay in [string], whose characters are the
    code points below 256; [u] embeds [string] into [str]. *)
Inductive str : Type :=
| SNil
| SCons (c : N) (s : str).

Fixpoint str_of_bytes (l : list Byte.byte) : str :=
  match l with
  | [] => SNil
  | b :: l' => SCons (Byte.to_N b) (str_of_bytes l')
  end.

Fixpoint bytes_of_str (s : str) : option (list Byte.byte) :=
  match s with
  | SNil => Some []
  | SCons c s' =>
      match Byte.of_N c, bytes_of_str s' with
      | Some b, Some l => Some (b :: l)
      | _, _ => None
      end
  end.

Declare Scope str_scope.
Delimit Scope str_scope with str.
Bind Scope str_scope with str.
String Notation str str_of_bytes bytes_of_str : str_scope.

(** [a + b] *)
Fixpoint str_app (a b : str) : str :=
  match a with
  | SNil => b
  | SCons c a' => SCons c (str_app a' b)
  end.

Infix "+:+" := str_app (at level 60, right associativity) : str_scope.
Arguments str_app : simpl never.

(** [a == b] *)
Fixpoint str_eqb (a b : str) : bool :=
  match a, b with
  | SNil, SNil => true
  | SCons c a', SCons d b' => N.eqb c d && str_eqb a' b'
  | _, _ => false
  end.

(** [len(s)] *)
Fixpoint str_length (s : str) : nat :=
  match s with
  | SNil => 0
  | SCons _ s' => S (str_length s')
  end.

Fixpoint u (s : string) : str :=
  match s with
  | EmptyString => SNil
  | String c s' => SCons (N_of_ascii c) (u s')
  end.

Coercion u : string >-> str.

(** The code point of a character written in the source. *)
Definition code (c : ascii) : N := N_of_ascii c.

Fixpoint codes (s : str) : list N :=
  match s with
  | SNil => []
  | SCons c s' => c :: codes s'
  end.

Fixpoint of_codes (l : list N) : str :=
  match l with
  | [] => SNil
  | c :: l' => SCons c (of_codes l')
  end.

Lemma of_codes_codes (s : str) : of_codes (codes s) = s.
Proof. induction s as [| c s IH]; simpl; congruence. Qed.

#[global] Instance str_eq_dec : EqDecision str.
Proof. solve_decision. Defined.

#[global] Instance str_countable : Countable str :=
  inj_countable' codes of_codes of_codes_codes.

(** [str.lower()] on code points below 256: the ASCII capitals and the
    Latin-1 capitals (U+00C0..U+00DE except the multiplication sign). *)
Definition lower_char (c : ascii) : ascii :=
  let n := nat_of_ascii c in
  if ((65 <=? n) && (n <=? 90)) || ((192 <=? n) && (n <=? 222) && negb (n =? 215))
  then ascii_of_nat (n + 32) else c.

Fixpoint lower (s : string) : string :=
  match s with
  | EmptyString => EmptyString
  | String c s' => String (lower_char c) (lower s')
  end.

(** [sep.join(l)] *)
Fixpoint str_join (sep : string) (l : list string) : string :=
  match l with
  | [] => ""
  | [x] => x
  | x :: xs => x +:+ sep +:+ str_join sep xs
  end.

(** [str(n)] for an [int]. *)
Definition str_of_Z (z : Z) : string := NilZero.string_of_int (Z.to_int z).
Definition str_of_nat (n : nat) : string := str_of_Z (Z.of_nat n).

Open Scope str_scope.

Definition nl : str := SCons 10 "".

Definition starts_with_slash (s : str) : bool :=
  match s with
  | SCons c _ => N.eqb c (code "/")
  | SNil => false
  end.

Fixpoint ends_with_slash (s : str) : bool :=
  match s with
  | SNil => false
  | SCons c SNil => N.eqb c (code "/")
  | SCons _ s' => ends_with_slash s'
  end.

(** [os.path.join(a, b)] of posixpath, on two [str] arguments. *)
Definition path_join (a b : str) : str :=
  if starts_with_slash b then b
  else if str_eqb a "" || ends_with_slash a then a +:+ b
  else a +:+ "/" +:+ b.

(* ===================================================================== *)
(** ** JSON values, as [response.json()] builds them *)
(* ===================================================================== *)

(** A [dict] keeps its insertion order, so it is an association list; its
    keys are pairwise distinct ([wf_json]).  A [float] is the IEEE 754
    value it holds. *)
Inductive json : Type :=
| JNull
| JBool (b : bool)
| JInt (z : Z)
| JFloat (f : spec_float)
| JStr (s : str)
| JArr (l : list json)
| JObj (l : list (str * json)).

(** Induction on documents, through the lists they hold. *)
Section JsonInd.

Variable P : json -> Prop.
Hypothesis P_null : P JNull.
Hypothesis P_bool : forall b, P (JBool b).
Hypothesis P_int : forall z, P (JInt z).
Hypothesis P_float : forall f, P (JFloat f).
Hypothesis P_str : forall s, P (JStr s).
Hypothesis P_arr : forall l, Forall P l -> P (JArr l).
Hypothesis P_obj : forall l, Forall (fun kv => P (snd kv)) l -> P (JObj l).

Fixpoint json_induction (v : json) : P v :=
  match v with
  | JNull => P_null
  | JBool b => P_bool b
  | JInt z => P_int z
  | JFloat f => P_float f
  | JStr s => P_str s
  | JArr l =>
      P_arr l ((fix go (l : list json) : Forall P l :=
                  match l with
                  | [] => @List.Forall_nil _ P
                  | x :: l' => @List.Forall_cons _ P x l' (json_induction x) (go l')
                  end) l)
  | JObj l =>
      P_obj l ((fix go (l : list (str * json)) : Forall (fun kv => P (snd kv)) l :=
                  match l with
                  | [] => @List.Forall_nil _ _
                  | kv :: l' =>
                      @List.Forall_cons _ (fun kv => P (snd kv)) kv l' (json_induction (snd kv)) (go l')
                  end) l)
  end.

End JsonInd.

Definition is_record (v : json) : bool :=
  match v with JObj _ => true | _ => false end.

Fixpoint assoc_get {A} (k : str) (l : list (str * A)) : option A :=
  match l with
  | [] => None
  | (k', v) :: l' => if str_eqb k k' then Some v else assoc_get k l'
  end.

(** [d[k] = v] on a dict: an existing key keeps its position. *)
Fixpoint assoc_set {A} (k : str) (v : A) (l : list (str * A)) : list (str * A) :=
  match l with
  | [] => [(k, v)]
  | (k', v') :: l' =>
      if str_eqb k k' then (k', v) :: l' else (k', v') :: assoc_set k v l'
  end.

(** Truth value of a Python object ([if not x]). *)
Definition truthy (v : json) : bool :=
  match v with
  | JNull => false
  | JBool b => b
  | JInt z => negb (z =? 0)%Z
  | JFloat f => negb (SFeqb f (S754_zero false))
  | JStr s => negb (str_eqb s "")
  | JArr l => match l with [] => false | _ => true end
  | JObj l => match l with [] => false | _ => true end
  end.

(** The two halves of a code point above U+FFFF in UTF-16. *)
Definition is_high_surrogate (c : N) : bool := (0xd800 <=? c)%N && (c <=? 0xdbff)%N.
Definition is_low_surrogate (c : N) : bool := (0xdc00 <=? c)%N && (c <=? 0xdfff)%N.

(** A [str] as the decoder of [response.json()] builds it: its characters
    are code points (below U+110000), and a high surrogate is never
    followed by a low one (the decoder joins such a pair into one code
    point; it is text that did not come from a decoder that can hold the
    two apart). *)
Fixpoint wf_str (s : str) : bool :=
  match s with
  | SNil => true
  | SCons c s' =>
      (c <? 0x110000)%N &&
      negb (is_high_surrogate c &&
            match s' with SCons d _ => is_low_surrogate d | SNil => false end) &&
      wf_str s'
  end.

Fixpoint wf_json (v : json) : Prop :=
  match v with
  | JStr s => wf_str s = true
  | JArr l => (fix all (l : list json) : Prop :=
                 match l with [] => True | x :: l' => wf_json x /\ all l' end) l
  | JObj l => NoDup (map fst l) /\
              (fix all (l : list (str * json)) : Prop :=
                 match l with
                 | [] => True
                 | (k, x) :: l' => (wf_str k = true /\ wf_json x) /\ all l'
                 end) l
  | _ => True
  end.

(* ===================================================================== *)
(** ** [json.dumps(obj, indent=2)] *)
(* ===================================================================== *)

(** One digit of ['{0:04x}'.format(n)]. *)
Definition hex_digit (n : N) : N := (if n <? 10 then 48 + n else 87 + n)%N.

(** ['\\u{0:04x}'.format(n)], for [n] below 0x10000. *)
Definition escape_u (n : N) : str :=
  SCons 92 (SCons 117
    (SCons (hex_digit ((n / 4096) mod 16))
      (SCons (hex_digit ((n / 256) mod 16))
        (SCons (hex_digit ((n / 16) mod 16))
          (SCons (hex_digit (n mod 16)) ""))))).

(** [ESCAPE_DCT] and the fallback of [py_encode_basestring_ascii]: the
    quote, the backslash and every character outside [' '..'~'] are
    escaped, a code point above U+FFFF as its two surrogates. *)
Definition escape_char (c : N) : str :=
  (if c =? 34 then SCons 92 (SCons 34 "")
   else if c =? 92 then SCons 92 (SCons 92 "")
   else if c =? 10 then "\n"
   else if c =? 13 then "\r"
   else if c =? 9 then "\t"
   else if c =? 12 then "\f"
   else if c =? 8 then "\b"
   else if (32 <=? c) && (c <=? 126) then SCons c ""
   else if c <? 0x10000 then escape_u c
   else let n := c - 0x10000 in
        escape_u (N.lor 0xd800 (N.land (N.shiftr n 10) 0x3ff)) +:+
        escape_u (N.lor 0xdc00 (N.land n 0x3ff)))%N.

Fixpoint escape_body (s : str) : str :=
  match s with
  | SNil => ""
  | SCons c s' => escape_char c +:+ escape_body s'
  end.

Definition quote : str := SCons 34 "".

Definition encode_str (s : str) : str := quote +:+ escape_body s +:+ quote.

Fixpoint spaces (n : nat) : str :=
  match n with 0 => "" | S n' => SCons 32 (spaces n') end.

(** ['\n' + indent * level] with [indent = '  '] *)
Definition newline_indent (level : nat) : str := nl +:+ spaces (2 * level).

Section Dumps.

(** [float.__repr__], the shortest decimal text that reads back as the
    same float: part of the interpreter. *)
Variable float_repr : spec_float -> str.

(** [floatstr] of json.encoder (allow_nan is on by default). *)
Definition floatstr (f : spec_float) : str :=
  if negb (SFeqb f f) then "NaN"
  else if SFeqb f (S754_infinity false) then "Infinity"
  else if SFeqb f (S754_infinity true) then "-Infinity"
  else float_repr f.

(** [_iterencode] with [indent=2]: the item separator is [','] followed by
    the new line and indentation, the key separator is [': ']. *)
Fixpoint encode (level : nat) (v : json) : str :=
  match v with
  | JNull => "null"
  | JBool true => "true"
  | JBool false => "false"
  | JInt z => str_of_Z z
  | JFloat f => floatstr f
  | JStr s => encode_str s
  | JArr [] => "[]"
  | JArr (x :: xs) =>
      "[" +:+ newline_indent (S level) +:+ encode (S level) x +:+
      (fix items (l : list json) : str :=
         match l with
         | [] => ""
         | y :: l' => "," +:+ newline_indent (S level) +:+ encode (S level) y +:+ items l'
         end) xs +:+
      newline_indent level +:+ "]"
  | JObj [] => "{}"
  | JObj ((k, x) :: xs) =>
      "{" +:+ newline_indent (S level) +:+ encode_str k +:+ ": " +:+ encode (S level) x +:+
      (fix items (l : list (str * json)) : str :=
         match l with
         | [] => ""
         | (k', y) :: l' =>
             "," +:+ newline_indent (S level) +:+ encode_str k' +:+ ": " +:+
             encode (S level) y +:+ items l'
         end) xs +:+
      newline_indent level +:+ "}"
  end.

Definition json_dumps (v : json) : str := encode 0 v.

End Dumps.

(* ===================================================================== *)
(** ** [json.loads(s)] *)
(* ===================================================================== *)

(** The decoder of the json module ([JSONDecoder.decode], [scan_once],
    [JSONArray], [JSONObject], [scanstring]), reading the text from its
    front. *)

Definition is_ws (c : N) : bool := ((c =? 32) || (c =? 9) || (c =? 10) || (c =? 13))%N.

Fixpoint skip_ws (s : str) : str :=
  match s with
  | SNil => SNil
  | SCons c s' => if is_ws c then skip_ws s' else s
  end.

Definition is_digit (c : N) : bool := ((48 <=? c) && (c <=? 57))%N.

Definition hex_value (c : N) : option N :=
  (if (48 <=? c) && (c <=? 57) then Some (c - 48)
   else if (97 <=? c) && (c <=? 102) then Some (c - 87)
   else if (65 <=? c) && (c <=? 70) then Some (c - 55)
   else None)%N.

(** [BACKSLASH]: the character an escape letter stands for. *)
Definition unescape (c : N) : option N :=
  (if c =? 34 then Some c
   else if c =? 92 then Some c
   else if c =? 47 then Some c
   else if c =? 98 then Some 8
   else if c =? 102 then Some 12
   else if c =? 110 then Some 10
   else if c =? 114 then Some 13
   else if c =? 116 then Some 9
   else None)%N.

Definition hex4 (a b c d : N) : option N :=
  match hex_value a, hex_value b, hex_value c, hex_value d with
  | Some x, Some y, Some z, Some t => Some (((x * 16 + y) * 16 + z) * 16 + t)%N
  | _, _, _, _ => None
  end.

Definition cons_char (c : N) (r : option (str * str)) : option (str * str) :=
  match r with
  | Some (s, rest) => Some (SCons c s, rest)
  | None => None
  end.

(** The code point of a surrogate pair. *)
Definition join_surrogates (hi lo : N) : N :=
  (0x10000 + N.lor (N.shiftl (hi - 0xd800) 10) (lo - 0xdc00))%N.

(** [scanstring] (strict), from the character after the opening quote:
    the decoded string and the text after the closing quote.  After the
    escape of a high surrogate, a second [\u] escape is decoded at once,
    and joined with the first when it is a low surrogate. *)
Fixpoint scan_string (s : str) : option (str * str) :=
  match s with
  | SNil => None
  | SCons c s' =>
      if (c =? 34)%N then Some ("", s')
      else if (c =? 92)%N then
        match s' with
        | SNil => None
        | SCons e s'' =>
            if (e =? 117)%N then
              match s'' with
              | SCons h1 (SCons h2 (SCons h3 (SCons h4 rest))) =>
                  match hex4 h1 h2 h3 h4 with
                  | Some n =>
                      match rest with
                      | SCons b (SCons e' (SCons l1 (SCons l2 (SCons l3 (SCons l4 rest'))))) =>
                          if is_high_surrogate n && (b =? 92)%N && (e' =? 117)%N then
                            match hex4 l1 l2 l3 l4 with
                            | Some m =>
                                if is_low_surrogate m
                                then cons_char (join_surrogates n m) (scan_string rest')
                                else cons_char n (scan_string rest)
                            | None => None
                            end
                          else cons_char n (scan_string rest)
                      | SCons b (SCons e' _) =>
                          if is_high_surrogate n && (b =? 92)%N && (e' =? 117)%N then None
                          else cons_char n (scan_string rest)
                      | _ => cons_char n (scan_string rest)
                      end
                  | None => None
                  end
              | _ => None
              end
            else
              match unescape e with
              | Some ch => cons_char ch (scan_string s'')
              | None => None
              end
        end
      else if (c <? 32)%N then None
      else cons_char c (scan_string s')
  end.

(** The longest run of digits at the front, and what follows it. *)
Fixpoint take_digits (s : str) : str * str :=
  match s with
  | SNil => ("", "")
  | SCons c s' =>
      if is_digit c then let (ds, r) := take_digits s' in (SCons c ds, r)
      else ("", s)
  end.

(** The integer group of [NUMBER_RE]: an optional minus sign, then either
    a single zero or a digit from 1 to 9 followed by any digits. *)
Definition scan_integer (s : str) : option (str * str) :=
  let (sign, s1) := match s with
                    | SCons c s' => if N.eqb c (code "-") then ("-", s') else ("", s)
                    | SNil => ("", s)
                    end in
  match s1 with
  | SCons c s2 =>
      if (c =? 48)%N then Some (sign +:+ "0", s2)
      else if is_digit c then
        let (ds, r) := take_digits s2 in Some (sign +:+ SCons c ds, r)
      else None
  | SNil => None
  end.

(** The fraction group: a point followed by one digit or more, if present. *)
Definition scan_frac (s : str) : str * str :=
  match s with
  | SCons c s' =>
      if N.eqb c (code ".") then
        match take_digits s' with
        | (SNil, _) => ("", s)
        | (ds, r) => (SCons c ds, r)
        end
      else ("", s)
  | SNil => ("", s)
  end.

(** The exponent group: [e] or [E], an optional sign, one digit or more,
    if present. *)
Definition scan_exp (s : str) : str * str :=
  match s with
  | SCons e s' =>
      if ((e =? 101) || (e =? 69))%N then
        let (sign, s1) := match s' with
                          | SCons c s'' =>
                              if N.eqb c (code "+") then ("+", s'')
                              else if N.eqb c (code "-") then ("-", s'')
                              else ("", s')
                          | SNil => ("", s')
                          end in
        match take_digits s1 with
        | (SNil, _) => ("", s)
        | (ds, r) => (SCons e (sign +:+ ds), r)
        end
      else ("", s)
  | SNil => ("", s)
  end.

(** [s] without its first character, when that character is [c]. *)
Definition after_char (c : ascii) (s : str) : option str :=
  match s with
  | SCons c' r => if N.eqb c' (code c) then Some r else None
  | SNil => None
  end.

Fixpoint strip_prefix (p s : str) : option str :=
  match p, s with
  | SNil, _ => Some s
  | SCons a p', SCons b s' => if N.eqb a b then strip_prefix p' s' else None
  | SCons _ _, SNil => None
  end.

(** [dict(pairs)]: a repeated key keeps its first position and its last value. *)
Definition dict_of_pairs (pairs : list (str * json)) : list (str * json) :=
  fold_left (fun d kv => assoc_set (fst kv) (snd kv) d) pairs [].

(** The digits of a number literal, as the text [int()] reads. *)
Fixpoint narrow (s : str) : string :=
  match s with
  | SNil => EmptyString
  | SCons c s' => String (ascii_of_N c) (narrow s')
  end.

Section Loads.

(** [float(text)] on a number literal: part of the interpreter. *)
Variable float_of_text : str -> spec_float.

(** [match_number] and the conversion that follows it in [_scan_once]. *)
Definition scan_number (s : str) : option (json * str) :=
  match scan_integer s with
  | None => None
  | Some (integer, r) =>
      let (frac, r1) := scan_frac r in
      let (exp, r2) := scan_exp r1 in
      if str_eqb frac "" && str_eqb exp ""
      then match NilZero.int_of_string (narrow integer) with
           | Some d => Some (JInt (Z.of_int d), r2)
           | None => None
           end
      else Some (JFloat (float_of_text (integer +:+ frac +:+ exp)), r2)
  end.

(** The loop of [JSONArray], from the first value on. *)
Fixpoint array_items (scan : str -> option (json * str)) (fuel : nat) (s : str)
    : option (list json * str) :=
  match fuel with
  | 0 => None
  | S n =>
      match scan s with
      | None => None
      | Some (v, r) =>
          match after_char "]" (skip_ws r) with
          | Some r' => Some ([v], r')
          | None =>
              match after_char "," (skip_ws r) with
              | Some r' =>
                  match array_items scan n (skip_ws r') with
                  | Some (vs, r'') => Some (v :: vs, r'')
                  | None => None
                  end
              | None => None
              end
          end
      end
  end.

(** The loop of [JSONObject], from the quote of the first key on. *)
Fixpoint object_pairs (scan : str -> option (json * str)) (fuel : nat) (s : str)
    : option (list (str * json) * str) :=
  match fuel with
  | 0 => None
  | S n =>
      match after_char "034" s with
      | None => None
      | Some s1 =>
          match scan_string s1 with
          | None => None
          | Some (key, r) =>
              match after_char ":" (skip_ws r) with
              | None => None
              | Some r1 =>
                  match scan (skip_ws r1) with
                  | None => None
                  | Some (v, r2) =>
                      match after_char "}" (skip_ws r2) with
                      | Some r3 => Some ([(key, v)], r3)
                      | None =>
                          match after_char "," (skip_ws r2) with
                          | Some r3 =>
                              match object_pairs scan n (skip_ws r3) with
                              | Some (ps, r4) => Some ((key, v) :: ps, r4)
                              | None => None
                              end
                          | None => None
                          end
                      end
                  end
              end
          end
      end
  end.

Definition scan_constant (s : str) : option (json * str) :=
  match strip_prefix "null" s with
  | Some r => Some (JNull, r)
  | None =>
  match strip_prefix "true" s with
  | Some r => Some (JBool true, r)
  | None =>
  match strip_prefix "false" s with
  | Some r => Some (JBool false, r)
  | None =>
  match scan_number s with
  | Some res => Some res
  | None =>
  match strip_prefix "NaN" s with
  | Some r => Some (JFloat S754_nan, r)
  | None =>
  match strip_prefix "Infinity" s with
  | Some r => Some (JFloat (S754_infinity false), r)
  | None =>
  match strip_prefix "-Infinity" s with
  | Some r => Some (JFloat (S754_infinity true), r)
  | None => None
  end end end end end end end.

(** [_scan_once]; [fuel] bounds the nesting and the number of items. *)
Fixpoint scan_once (fuel : nat) (s : str) : option (json * str) :=
  match fuel with
  | 0 => None
  | S n =>
      match after_char "034" s with
      | Some s' =>
          match scan_string s' with
          | Some (str, r) => Some (JStr str, r)
          | None => None
          end
      | None =>
      match after_char "{" s with
      | Some s' =>
          match after_char "}" (skip_ws s') with
          | Some r => Some (JObj [], r)
          | None =>
              match object_pairs (scan_once n) n (skip_ws s') with
              | Some (ps, r) => Some (JObj (dict_of_pairs ps), r)
              | None => None
              end
          end
      | None =>
      match after_char "[" s with
      | Some s' =>
          match after_char "]" (skip_ws s') with
          | Some r => Some (JArr [], r)
          | None =>
              match array_items (scan_once n) n (skip_ws s') with
              | Some (vs, r) => Some (JArr vs, r)
              | None => None
              end
          end
      | None => scan_constant s
      end end end
  end.

(** [json.loads(s)]: one value, white space around it, nothing else. *)
Definition json_loads (s : str) : option json :=
  match scan_once (str_length s) (skip_ws s) with
  | Some (v, r) => match skip_ws r with
                   | SNil => Some v
                   | _ => None
                   end
  | None => None
  end.

End Loads.

(* ===================================================================== *)
(** ** Exceptions, events, the world *)
(* ===================================================================== *)

(** The exception classes the script can meet.  All of them derive from
    [Exception]; [RequestException] stands for the class of the requests
    library and all its subclasses (HTTPError, ConnectionError,
    ChunkedEncodingError, ...), and [PlainException] for [Exception]
    itself, which the script raises. *)
Inductive exn_class : Type :=
| KeyError | ValueError | TypeError | AttributeError | OSError
| RequestException | PlainException.

(** An exception: its class and [str(e)]. *)
Record exn : Type := mk_exn { exn_cls : exn_class; exn_str : str }.

Definition is_RequestException (e : exn) : bool :=
  match exn_cls e with RequestException => true | _ => false end.

Inductive outcome (A : Type) : Type :=
| Ok (a : A)
| Raise (e : exn).
Arguments Ok {A} a.
Arguments Raise {A} e.

(** The method that issues an HTTP call (a label, not data of the call). *)
Inductive call_site : Type := ListCall | InfoCall | DownloadCall.

(** The headers of a session: the names are compared without case. *)
Definition headers : Type := list (string * str).

(** The effects of the script, in the order it issues them. *)
Inductive event : Type :=
| EPrint (line : str)                           (* print(line) *)
| EPost (url : str) (data : list (str * str))   (* requests.post(url, data=data) *)
| EGet (site : call_site) (url : str) (hs : headers)  (* self.session.get(url); streamed at DownloadCall *)
| EMakedirs (path : str)                        (* os.makedirs(path, exist_ok=True) *)
| EOpen (path : str)                            (* open(path, 'w' or 'wb') *)
| EWrite (path : str) (data : str).             (* f.write(data) *)

(** What [requests] hands back for a call that did not raise. *)
Record response : Type := {
  status_code : nat;
  error_text : str;               (* str() of the HTTPError of raise_for_status *)
  body_json : outcome json;       (* response.json() *)
  body_chunks : list str;         (* what iter_content(chunk_size=8192) yields ... *)
  body_error : option exn         (* ... and the error it raises after them, if any *)
}.

(** [datetime.now()] *)
Record datetime : Type := {
  year : N; month : N; day : N;
  hour : N; minute : N; second : N; microsecond : N
}.

(** Everything outside the script.  The answers to a call may depend on
    all the effects issued before it (the trace, newest first). *)
Record World : Type := {
  environ : gmap string string;      (* os.environ after load_dotenv() *)
  now : list event -> datetime;
  http_post : list event -> str -> list (str * str) -> outcome response;
  http_get : list event -> call_site -> str -> headers -> outcome response;
  os_fault : list event -> event -> option str;  (* the OSError of a file-system call *)
  default_headers : headers;         (* the headers of a fresh requests.Session() *)
  float_text : spec_float -> str;    (* float.__repr__ *)
  py_repr : json -> str;             (* repr() of a str, list or dict *)
  interp_text : exn_class -> json -> str  (* text of an interpreter-raised error *)
}.

Record filesystem : Type := {
  dirs : gset str;
  files : gmap str str
}.

Record state : Type := {
  trace : list event;    (* newest first *)
  fs : filesystem
}.

(* ===================================================================== *)
(** ** The monad: state and exceptions *)
(* ===================================================================== *)

Definition M (A : Type) : Type := state -> outcome A * state.

Definition ret {A} (a : A) : M A := fun st => (Ok a, st).
Definition raise {A} (e : exn) : M A := fun st => (Raise e, st).

Definition bind {A B} (m : M A) (k : A -> M B) : M B :=
  fun st => match m st with
            | (Ok a, st') => k a st'
            | (Raise e, st') => (Raise e, st')
            end.

Notation "x <- m ;; k" := (bind m (fun x => k))
  (at level 100, m at next level, right associativity).
Notation "m ;;; k" := (bind m (fun _ => k))
  (at level 100, right associativity).

(** [try: m  except <class> as e: h e], where [catches] is the isinstance test. *)
Definition try_except {A} (m : M A) (catches : exn -> bool) (h : exn -> M A) : M A :=
  fun st => match m st with
            | (Ok a, st') => (Ok a, st')
            | (Raise e, st') => if catches e then h e st' else (Raise e, st')
            end.

(** [except Exception] catches every class of [exn_class]. *)
Definition any_Exception (e : exn) : bool := true.

Definition lift {A} (o : outcome A) : M A := fun st => (o, st).

Definition emit (e : event) : M unit :=
  fun st => (Ok tt, {| trace := e :: trace st; fs := fs st |}).

(** [print(line)].  The console is taken to accept every line, whatever
    its characters: a console with a strict encoding raises
    UnicodeEncodeError on a lone surrogate, and such a console is
    outside the model. *)
Definition print (line : str) : M unit := emit (EPrint line).

Fixpoint for_each {A} (body : A -> M unit) (l : list A) : M unit :=
  match l with
  | [] => ret tt
  | x :: l' => body x ;;; for_each body l'
  end.

(* ===================================================================== *)
(** ** Python operations on values *)
(* ===================================================================== *)

(** [d.get(k)]: only a dict has the method. *)
Definition py_get (errtext : exn_class -> json -> str) (v : json) (k : str) : outcome json :=
  match v with
  | JObj l => Ok (match assoc_get k l with Some x => x | None => JNull end)
  | _ => Raise (mk_exn AttributeError (errtext AttributeError v))
  end.

(** [d[k]] with a str key. *)
Definition py_subscript (repr : json -> str) (errtext : exn_class -> json -> str)
    (v : json) (k : str) : outcome json :=
  match v with
  | JObj l => match assoc_get k l with
              | Some x => Ok x
              | None => Raise (mk_exn KeyError (repr (JStr k)))
              end
  | _ => Raise (mk_exn TypeError (errtext TypeError v))
  end.

Fixpoint chars (s : str) : list json :=
  match s with
  | SNil => []
  | SCons c s' => JStr (SCons c "") :: chars s'
  end.

(** [len(v)] together with the items a [for] loop over [v] visits. *)
Definition py_items (errtext : exn_class -> json -> str) (v : json) : outcome (list json) :=
  match v with
  | JArr l => Ok l
  | JObj l => Ok (map (fun kv => JStr (fst kv)) l)
  | JStr s => Ok (chars s)
  | _ => Raise (mk_exn TypeError (errtext TypeError v))
  end.

(** [os.path.join(a, b)] when [b] comes from a JSON document. *)
Definition py_path_join (errtext : exn_class -> json -> str) (a : str) (b : json) : outcome str :=
  match b with
  | JStr s => Ok (path_join a s)
  | _ => Raise (mk_exn TypeError (errtext TypeError b))
  end.

(** Header names compare without case (CaseInsensitiveDict). *)
Definition same_header (k k' : string) : bool := String.eqb (lower k) (lower k').

Fixpoint header_get (k : string) (hs : headers) : option str :=
  match hs with
  | [] => None
  | (k', v) :: hs' => if same_header k k' then Some v else header_get k hs'
  end.

Fixpoint header_set (k : string) (v : str) (hs : headers) : headers :=
  match hs with
  | [] => [(k, v)]
  | (k', v') :: hs' =>
      if same_header k k' then (k, v) :: hs' else (k', v') :: header_set k v hs'
  end.

(** [headers.update(new)] *)
Definition headers_update (new hs : headers) : headers :=
  fold_left (fun acc kv => header_set (fst kv) (snd kv) acc) new hs.

Definition digit_char (n : N) : ascii := ascii_of_N (48 + n mod 10).

Definition pad2 (n : N) : string :=
  String (digit_char (n / 10)) (String (digit_char n) "").

Definition pad4 (n : N) : string :=
  String (digit_char (n / 1000)) (String (digit_char (n / 100)) (pad2 n)).

(** [d.strftime("%Y%m%d_%H%M%S")], for a year of four digits. *)
Definition strftime (d : datetime) : string :=
  (pad4 (year d) +:+ pad2 (month d) +:+ pad2 (day d) +:+ "_" +:+
   pad2 (hour d) +:+ pad2 (minute d) +:+ pad2 (second d))%stdpp.

(** The directories [os.makedirs(path)] leaves behind: [path] and every
    prefix of it that ends before a separator. *)
Fixpoint ancestors (seen rest : str) : list str :=
  match rest with
  | SNil => []
  | SCons c rest' =>
      (if N.eqb c (code "/") && negb (str_eqb seen "") then [seen] else []) ++
      ancestors (seen +:+ SCons c "") rest'
  end.

Definition made_dirs (path : str) : gset str :=
  list_to_set (path :: ancestors "" path).

(** The record of one [MulesoftDownloader] object. *)
Record Config : Type := {
  client_id : str;
  client_secret : str;
  organization_id : str;
  environment_id : str
}.

Record MulesoftDownloader : Type := {
  enable_endpoint_logging : bool;
  control_plane : string;
  config : Config;
  auth_url : str;
  base_url : str;
  session_headers : headers;      (* self.session.headers *)
  download_dir : str
}.

Definition required_vars : list string :=
  ["ANYPOINT_CLIENT_ID"; "ANYPOINT_CLIENT_SECRET"; "ANYPOINT_ORG_ID"; "ANYPOINT_ENV_ID"]%string.

Definition valid_control_planes : list string := ["us"; "eu1"; "gov"]%string.

Definition control_plane_domains : list (str * str) :=
  [("us", "anypoint.mulesoft.com");
   ("eu1", "eu1.anypoint.mulesoft.com");
   ("gov", "gov.anypoint.mulesoft.com")].

Definition str_in (s : string) (l : list string) : bool := existsb (String.eqb s) l.

(** [for index, x in enumerate(l, index): body]; an exception that leaves
    the body leaves the loop. *)
Fixpoint for_enumerate {A} (body : nat -> A -> M unit) (index : nat) (l : list A) : M unit :=
  match l with
  | [] => ret tt
  | x :: l' => body index x ;;; for_enumerate body (S index) l'
  end.

(* ===================================================================== *)
(** ** The class [MulesoftDownloader] *)
(* ===================================================================== *)

Section Downloader.

Variable w : World.

(** [os.getenv(k)] and [os.getenv(k, dflt)] *)
Definition getenv (k : string) : option string := environ w !! k.
Definition getenv_or (k dflt : string) : string :=
  match getenv k with Some v => v | None => dflt end.

(** [not os.getenv(var)] *)
Definition env_missing (k : string) : bool :=
  match getenv k with Some v => String.eqb v "" | None => true end.

(** [str(v)], as an f-string formats a value. *)
Definition py_str (v : json) : str :=
  match v with
  | JStr s => s
  | JInt z => str_of_Z z
  | JBool true => "True"
  | JBool false => "False"
  | JNull => "None"
  | JFloat f => float_text w f
  | JArr _ | JObj _ => py_repr w v
  end.

Definition dumps (v : json) : str := json_dumps (float_text w) v.

(** *** Effects *)

Definition requests_post (url : str) (data : list (str * str)) : M response :=
  fun st => (http_post w (trace st) url data,
             {| trace := EPost url data :: trace st; fs := fs st |}).

Definition session_get (site : call_site) (url : str) (hs : headers) : M response :=
  fun st => (http_get w (trace st) site url hs,
             {| trace := EGet site url hs :: trace st; fs := fs st |}).

Definition raise_for_status (r : response) : M unit :=
  if (400 <=? status_code r) && (status_code r <? 600)
  then raise (mk_exn RequestException (error_text r))
  else ret tt.

(** A file-system call: the operating system may refuse it; otherwise it
    changes the file system by [change]. *)
Definition os_call (e : event) (change : filesystem -> filesystem) : M unit :=
  fun st => match os_fault w (trace st) e with
            | Some msg => (Raise (mk_exn OSError msg), {| trace := e :: trace st; fs := fs st |})
            | None => (Ok tt, {| trace := e :: trace st; fs := change (fs st) |})
            end.

Definition makedirs (path : str) : M unit :=
  os_call (EMakedirs path)
    (fun f => {| dirs := made_dirs path ∪ dirs f; files := files f |}).

(** [open(path, 'w')] and [open(path, 'wb')]: the file is created or emptied. *)
Definition open_write (path : str) : M unit :=
  os_call (EOpen path)
    (fun f => {| dirs := dirs f; files := <[path := ""]> (files f) |}).

Definition file_write (path data : str) : M unit :=
  os_call (EWrite path data)
    (fun f => {| dirs := dirs f;
                 files := <[path := match files f !! path with
                                    | Some old => old +:+ data
                                    | None => data
                                    end]> (files f) |}).

Definition datetime_now : M datetime := fun st => (Ok (now w (trace st)), st).

(** *** Construction *)

Definition new_object : MulesoftDownloader :=
  {| enable_endpoint_logging := false; control_plane := ""; 
     config := {| client_id := ""; client_secret := ""; organization_id := ""; environment_id := "" |};
     auth_url := ""; base_url := ""; session_headers := []; download_dir := "" |}.

Definition _load_config (self : MulesoftDownloader) : M MulesoftDownloader :=
  let missing_vars := List.filter env_missing required_vars in
  match missing_vars with
  | _ :: _ =>
      raise (mk_exn KeyError
               (py_repr w (JStr ("Missing environment variables: " +:+ str_join ", " missing_vars))))
  | [] =>
      let enable := String.eqb (lower (getenv_or "ENABLE_ENDPOINT_LOGGING" "True")) "true" in
      let plane := lower (getenv_or "ANYPOINT_CONTROL_PLANE" "us") in
      if negb (str_in plane valid_control_planes)
      then raise (mk_exn ValueError
                    ("ANYPOINT_CONTROL_PLANE must be one of: " +:+ str_join ", " valid_control_planes))
      else ret {| enable_endpoint_logging := enable;
                  control_plane := plane;
                  config := {| client_id := getenv_or "ANYPOINT_CLIENT_ID" "";
                               client_secret := getenv_or "ANYPOINT_CLIENT_SECRET" "";
                               organization_id := getenv_or "ANYPOINT_ORG_ID" "";
                               environment_id := getenv_or "ANYPOINT_ENV_ID" "" |};
                  auth_url := auth_url self; base_url := base_url self;
                  session_headers := session_headers self;
                  download_dir := download_dir self |}
  end.

Definition _log_endpoint (self : MulesoftDownloader) (message : str) : M unit :=
  if enable_endpoint_logging self then print message else ret tt.

Definition _setup_base_urls (self : MulesoftDownloader) : M MulesoftDownloader :=
  match assoc_get (control_plane self) control_plane_domains with
  | None => raise (mk_exn KeyError (py_repr w (JStr (control_plane self))))
  | Some base_domain =>
      let self' :=
        {| enable_endpoint_logging := enable_endpoint_logging self;
           control_plane := control_plane self; config := config self;
           auth_url := "https://" +:+ base_domain +:+ "/accounts/api/v2/oauth2/token";
           base_url := "https://" +:+ base_domain +:+ "/cloudhub/api";
           session_headers := session_headers self;
           download_dir := download_dir self |} in
      (if enable_endpoint_logging self'
       then print (nl +:+ "Using control plane: " +:+ control_plane self') ;;;
            print ("Base URL: " +:+ base_url self')
       else ret tt) ;;;
      ret self'
  end.

Definition with_session_headers (self : MulesoftDownloader) (hs : headers) : MulesoftDownloader :=
  {| enable_endpoint_logging := enable_endpoint_logging self;
     control_plane := control_plane self; config := config self;
     auth_url := auth_url self; base_url := base_url self;
     session_headers := hs; download_dir := download_dir self |}.

Definition with_download_dir (self : MulesoftDownloader) (d : str) : MulesoftDownloader :=
  {| enable_endpoint_logging := enable_endpoint_logging self;
     control_plane := control_plane self; config := config self;
     auth_url := auth_url self; base_url := base_url self;
     session_headers := session_headers self; download_dir := d |}.

Definition _setup_session (self : MulesoftDownloader) : M MulesoftDownloader :=
  _log_endpoint self (nl +:+ "Calling authentication endpoint: " +:+ auth_url self) ;;;
  let auth_data :=
    [("grant_type", "client_credentials");
     ("client_id", client_id (config self));
     ("client_secret", client_secret (config self))] in
  try_except
    (response <- requests_post (auth_url self) auth_data ;;
     raise_for_status response ;;;
     body <- lift (body_json response) ;;
     access_token <- lift (py_subscript (py_repr w) (interp_text w) body "access_token") ;;
     ret (with_session_headers self
            (headers_update
               [("Authorization"%string, "Bearer " +:+ py_str access_token);
                ("Content-Type"%string, "application/json");
                ("x-anypnt-env-id"%string, environment_id (config self));
                ("x-anypnt-org-id"%string, organization_id (config self))]
               (session_headers self))))
    is_RequestException
    (fun e => raise (mk_exn PlainException ("Error during authentication: " +:+ exn_str e))).

Definition _setup_download_dir (self : MulesoftDownloader) : M MulesoftDownloader :=
  d <- datetime_now ;;
  let timestamp := strftime d in
  let self' := with_download_dir self ("downloads_" +:+ timestamp) in
  makedirs (download_dir self') ;;;
  ret self'.

Definition __init__ : M MulesoftDownloader :=
  self <- _load_config new_object ;;
  self <- _setup_base_urls self ;;
  let self := with_session_headers self (default_headers w) in
  let self := with_download_dir self "downloads" in
  self <- _setup_session self ;;
  _setup_download_dir self.

(** The statements of [__init__] before its last one: the configuration
    and the authentication. *)
Definition configure_and_authenticate : M MulesoftDownloader :=
  self <- _load_config new_object ;;
  self <- _setup_base_urls self ;;
  let self := with_session_headers self (default_headers w) in
  let self := with_download_dir self "downloads" in
  _setup_session self.

(** *** The calls *)

Definition get_applications (self : MulesoftDownloader) : M json :=
  let url := base_url self +:+ "/applications" in
  _log_endpoint self (nl +:+ "Calling applications list endpoint: " +:+ url) ;;;
  (if enable_endpoint_logging self
   then print "Headers used:" ;;;
        print ("x-anypnt-env-id: " +:+ environment_id (config self)) ;;;
        print ("x-anypnt-org-id: " +:+ organization_id (config self))
   else ret tt) ;;;
  try_except
    (response <- session_get ListCall url (session_headers self) ;;
     raise_for_status response ;;;
     lift (body_json response))
    is_RequestException
    (fun e => raise (mk_exn PlainException ("Error retrieving applications: " +:+ exn_str e))).

Definition app_url (self : MulesoftDownloader) (app_name : json) : str :=
  base_url self +:+ "/organizations/" +:+ organization_id (config self) +:+
  "/environments/" +:+ environment_id (config self) +:+
  "/applications/" +:+ py_str app_name.

Definition get_application_info (self : MulesoftDownloader) (app_name : json) : M json :=
  let url := app_url self app_name in
  _log_endpoint self (nl +:+ "Calling application info endpoint: " +:+ url) ;;;
  try_except
    (response <- session_get InfoCall url (session_headers self) ;;
     raise_for_status response ;;;
     lift (body_json response))
    is_RequestException
    (fun e => raise (mk_exn PlainException
                       ("Error retrieving information for " +:+ py_str app_name +:+ ": " +:+ exn_str e))).

(** [for chunk in response.iter_content(chunk_size=8192): f.write(chunk)] *)
Definition write_chunks (path : str) (r : response) : M unit :=
  for_each (file_write path) (body_chunks r) ;;;
  match body_error r with
  | Some e => raise e
  | None => ret tt
  end.

Definition download_application (self : MulesoftDownloader) (app_name filename : json)
    : M (option str) :=
  let url := app_url self app_name +:+ "/download/" +:+ py_str filename in
  _log_endpoint self (nl +:+ "Calling application download endpoint: " +:+ url) ;;;
  app_dir <- lift (py_path_join (interp_text w) (download_dir self) app_name) ;;
  makedirs app_dir ;;;
  output_path <- lift (py_path_join (interp_text w) app_dir filename) ;;
  try_except
    (response <- session_get DownloadCall url (session_headers self) ;;
     raise_for_status response ;;;
     open_write output_path ;;;
     write_chunks output_path response ;;;
     ret (Some output_path))
    is_RequestException
    (fun e => print ("Error downloading application " +:+ py_str app_name +:+ ": " +:+ exn_str e) ;;;
              ret None).

(** The statements of the loop that follow the detail call. *)
Definition handle_info (self : MulesoftDownloader) (app_name app_info : json) : M unit :=
  filename <- lift (py_get (interp_text w) app_info "filename") ;;
  if negb (truthy filename)
  then print ("Filename not found for " +:+ py_str app_name +:+ ", skipping") ;;;
       print ("Received JSON: " +:+ dumps app_info)
  else print ("Downloading file: " +:+ py_str filename) ;;;
       output_path <- download_application self app_name filename ;;
       match output_path with
       | Some p => if negb (str_eqb p "")
                   then print ("Download completed: " +:+ p)
                   else print ("Download failed for " +:+ py_str app_name)
       | None => print ("Download failed for " +:+ py_str app_name)
       end.

(** The body of the [try] inside the loop of [process_all_applications]. *)
Definition process_one (self : MulesoftDownloader) (app_name : json) : M unit :=
  app_info <- get_application_info self app_name ;;
  handle_info self app_name app_info.

(** One iteration of the loop of [process_all_applications]. *)
Definition iteration (self : MulesoftDownloader) (total_apps : nat) (index : nat) (app : json)
    : M unit :=
  app_name <- lift (py_get (interp_text w) app "domain") ;;
  if negb (truthy app_name) then ret tt
  else
    print (nl +:+ "Processing application " +:+ str_of_nat index +:+ " of " +:+
           str_of_nat total_apps +:+ ": " +:+ py_str app_name) ;;;
    try_except (process_one self app_name) any_Exception
      (fun e => print ("Error processing " +:+ py_str app_name +:+ ": " +:+ exn_str e)).

(** The statements between the list call and the loop: the snapshot. *)
Definition save_snapshot (self : MulesoftDownloader) (applications : json) : M unit :=
  d <- datetime_now ;;
  let timestamp := strftime d in
  let json_filename := "applications_list_" +:+ timestamp +:+ ".json" in
  let json_path := path_join (download_dir self) json_filename in
  open_write json_path ;;;
  file_write json_path (dumps applications) ;;;
  print ("Saved applications JSON to: " +:+ json_path).

Definition process_all_applications (self : MulesoftDownloader) : M unit :=
  print "Starting applications download process..." ;;;
  try_except
    (applications <- get_applications self ;;
     items <- lift (py_items (interp_text w) applications) ;;
     let total_apps := length items in
     print (nl +:+ "Found " +:+ str_of_nat total_apps +:+ " applications to process") ;;;
     save_snapshot self applications ;;;
     for_enumerate (iteration self total_apps) 1 items)
    any_Exception
    (fun e => print ("Error during process: " +:+ exn_str e)).

Definition main : M unit :=
  try_except
    (downloader <- __init__ ;;
     process_all_applications downloader ;;;
     print (nl +:+ "Process completed successfully!"))
    any_Exception
    (fun e => print ("Fatal error: " +:+ exn_str e)).

End Downloader.

(** The script run in world [w] from the file system [f]. *)
Definition initial (f : filesystem) : state := {| trace := []; fs := f |}.
Definition run (w : World) (f : filesystem) : state := snd (main w (initial f)).

(* ===================================================================== *)
(** ** Sample worlds *)
(* ===================================================================== *)

Definition json_response (v : json) : response :=
  {| status_code := 200; error_text := ""; body_json := Ok v;
     body_chunks := []; body_error := None |}.

Definition status_response (code : nat) (text : str) : response :=
  {| status_code := code; error_text := text;
     body_json := Raise (mk_exn RequestException "Expecting value");
     body_chunks := []; body_error := None |}.

Definition stream_response (chunks : list str) (err : option exn) : response :=
  {| status_code := 200; error_text := "";
     body_json := Raise (mk_exn RequestException "Expecting value");
     body_chunks := chunks; body_error := err |}.

Definition sample_environ : gmap string string :=
  (<["ANYPOINT_CLIENT_ID" := "cid"]>
   (<["ANYPOINT_CLIENT_SECRET" := "secret"]>
   (<["ANYPOINT_ORG_ID" := "org1"]>
   (<["ANYPOINT_ENV_ID" := "env1"]> ∅))))%string.

Definition noon : datetime :=
  {| year := 2024; month := 1; day := 15; hour := 12; minute := 0; second := 0;
     microsecond := 0 |}%N.

Definition alpha_app : json := JObj [("domain", JStr "alpha"); ("status", JStr "STARTED")].
Definition nameless_app : json := JObj [("status", JStr "UNDEPLOYED")].
Definition beta_app : json := JObj [("domain", JStr "beta")].
(** One half, as a float. *)
Definition half : spec_float := S754_finite false 1 (-1).

Definition gamma_app : json :=
  JObj [("domain", JStr "gamma"); ("workers", JInt 2); ("weight", JFloat half)].

(** [float.__repr__] and [float()] on the floats of the samples. *)
Definition sample_float_text (f : spec_float) : str :=
  match f with
  | S754_finite false 1 (-1) => "0.5"
  | _ => "0.0"
  end.

Definition sample_float_of_text (s : str) : spec_float :=
  if str_eqb s "0.5" then half else S754_zero false.

Definition sample_apps : list json := [alpha_app; nameless_app; beta_app; gamma_app].

Definition sample_base : str :=
  "https://anypoint.mulesoft.com/cloudhub/api/organizations/org1/environments/env1/applications/".

(** The detail calls of a server that refuses the one of [alpha], knows no
    artifact for [beta], and knows [gamma.jar] for [gamma]. *)
Definition sample_info (url : str) : outcome response :=
  if str_eqb url (sample_base +:+ "gamma")
  then Ok (json_response (JObj [("domain", JStr "gamma"); ("filename", JStr "gamma.jar")]))
  else if str_eqb url (sample_base +:+ "beta")
  then Ok (json_response (JObj [("domain", JStr "beta"); ("status", JStr "STARTED")]))
  else Ok (status_response 500 "500 Server Error").

Definition sample_get (tr : list event) (site : call_site) (url : str) (hs : headers)
    : outcome response :=
  match site with
  | ListCall => Ok (json_response (JArr sample_apps))
  | InfoCall => sample_info url
  | DownloadCall => Ok (stream_response ["PK"; "data"] None)
  end.

Definition sample_world : World :=
  {| environ := sample_environ;
     now := fun _ => noon;
     http_post := fun _ _ _ => Ok (json_response (JObj [("access_token", JStr "tok")]));
     http_get := sample_get;
     os_fault := fun _ _ => None;
     default_headers := [("User-Agent"%string, "python-requests"); ("Accept"%string, "*/*")];
     float_text := sample_float_text;
     py_repr := fun _ => "?";
     interp_text := fun _ _ => "bad operand" |}.

Definition empty_fs : filesystem := {| dirs := ∅; files := ∅ |}.



(** A server whose list call breaks. *)
Definition offline_world : World :=
  {| environ := sample_environ;
     now := fun _ => noon;
     http_post := fun _ _ _ => Ok (json_response (JObj [("access_token", JStr "tok")]));
     http_get := fun _ _ _ _ => Raise (mk_exn RequestException "Connection refused");
     os_fault := fun _ _ => None;
     default_headers := [("User-Agent"%string, "python-requests"); ("Accept"%string, "*/*")];
     float_text := sample_float_text;
     py_repr := fun _ => "?";
     interp_text := fun _ _ => "bad operand" |}.

(** A server whose download of [gamma] breaks after two chunks. *)
Definition broken_get (tr : list event) (site : call_site) (url : str) (hs : headers)
    : outcome response :=
  match site with
  | DownloadCall =>
      Ok (stream_response ["PK"; "da"] (Some (mk_exn RequestException "Connection broken")))
  | _ => sample_get tr site url hs
  end.

Definition broken_world : World :=
  {| environ := sample_environ;
     now := fun _ => noon;
     http_post := fun _ _ _ => Ok (json_response (JObj [("access_token", JStr "tok")]));
     http_get := broken_get;
     os_fault := fun _ _ => None;
     default_headers := [("User-Agent"%string, "python-requests"); ("Accept"%string, "*/*")];
     float_text := sample_float_text;
     py_repr := fun _ => "?";
     interp_text := fun _ _ => "bad operand" |}.

(** A server whose list holds something that is not a record. *)
Definition mixed_get (tr : list event) (site : call_site) (url : str) (hs : headers)
    : outcome response :=
  match site with
  | ListCall => Ok (json_response (JArr [beta_app; JStr "oops"; gamma_app]))
  | _ => sample_get tr site url hs
  end.

Definition mixed_world : World :=
  {| environ := sample_environ;
     now := fun _ => noon;
     http_post := fun _ _ _ => Ok (json_response (JObj [("access_token", JStr "tok")]));
     http_get := mixed_get;
     os_fault := fun _ _ => None;
     default_headers := [("User-Agent"%string, "python-requests"); ("Accept"%string, "*/*")];
     float_text := sample_float_text;
     py_repr := fun _ => "?";
     interp_text := fun _ _ => "bad operand" |}.

(** A configuration that selects a control plane that does not exist. *)
Definition mars_world : World :=
  {| environ := <["ANYPOINT_CONTROL_PLANE"%string := "Mars"%string]> sample_environ;
     now := fun _ => noon;
     http_post := fun _ _ _ => Ok (json_response (JObj [("access_token", JStr "tok")]));
     http_get := sample_get;
     os_fault := fun _ _ => None;
     default_headers := [("User-Agent"%string, "python-requests"); ("Accept"%string, "*/*")];
     float_text := sample_float_text;
     py_repr := fun _ => "?";
     interp_text := fun _ _ => "bad operand" |}.

(** Half a second after [noon], with a server that now ships other bytes. *)
Definition noon_and_a_half : datetime :=
  {| year := 2024; month := 1; day := 15; hour := 12; minute := 0; second := 0;
     microsecond := 500000 |}%N.

Definition later_get (tr : list event) (site : call_site) (url : str) (hs : headers)
    : outcome response :=
  match site with
  | DownloadCall => Ok (stream_response ["PK"; "new"] None)
  | _ => sample_get tr site url hs
  end.

Definition later_world : World :=
  {| environ := sample_environ;
     now := fun _ => noon_and_a_half;
     http_post := fun _ _ _ => Ok (json_response (JObj [("access_token", JStr "tok")]));
     http_get := later_get;
     os_fault := fun _ _ => None;
     default_headers := [("User-Agent"%string, "python-requests"); ("Accept"%string, "*/*")];
     float_text := sample_float_text;
     py_repr := fun _ => "?";
     interp_text := fun _ _ => "bad operand" |}.

(** The object the constructor builds in the sample worlds. *)
Definition sample_self : MulesoftDownloader :=
  {| enable_endpoint_logging := true; control_plane := "us";
     config := {| client_id := "cid"; client_secret := "secret";
                  organization_id := "org1"; environment_id := "env1" |};
     auth_url := "https://anypoint.mulesoft.com/accounts/api/v2/oauth2/token";
     base_url := "https://anypoint.mulesoft.com/cloudhub/api";
     session_headers := [("User-Agent"%string, "python-requests"); ("Accept"%string, "*/*");
                         ("Authorization"%string, "Bearer tok");
                         ("Content-Type"%string, "application/json");
                         ("x-anypnt-env-id"%string, "env1"); ("x-anypnt-org-id"%string, "org1")];
     download_dir := "downloads_20240115_120000" |}.

(** A configuration without the organization. *)
Definition unset_world : World :=
  {| environ := delete "ANYPOINT_ORG_ID"%string sample_environ;
     now := fun _ => noon;
     http_post := fun _ _ _ => Ok (json_response (JObj [("access_token", JStr "tok")]));
     http_get := sample_get;
     os_fault := fun _ _ => None;
     default_headers := [("User-Agent"%string, "python-requests"); ("Accept"%string, "*/*")];
     float_text := sample_float_text;
     py_repr := fun _ => "?";
     interp_text := fun _ _ => "bad operand" |}.

(** A platform that refuses the credentials. *)
Definition denied_world : World :=
  {| environ := sample_environ;
     now := fun _ => noon;
     http_post := fun _ _ _ => Ok (status_response 401 "401 Client Error: Unauthorized");
     http_get := sample_get;
     os_fault := fun _ _ => None;
     default_headers := [("User-Agent"%string, "python-requests"); ("Accept"%string, "*/*")];
     float_text := sample_float_text;
     py_repr := fun _ => "?";
     interp_text := fun _ _ => "bad operand" |}.

(** A platform whose authentication response holds no token. *)
Definition tokenless_world : World :=
  {| environ := sample_environ;
     now := fun _ => noon;
     http_post := fun _ _ _ => Ok (json_response (JObj [("error", JStr "invalid_client")]));
     http_get := sample_get;
     os_fault := fun _ _ => None;
     default_headers := [("User-Agent"%string, "python-requests"); ("Accept"%string, "*/*")];
     float_text := sample_float_text;
     py_repr := fun _ => "?";
     interp_text := fun _ _ => "bad operand" |}.

(** A server that knows no artifact: every download call is answered 404. *)
Definition refusing_get (tr : list event) (site : call_site) (url : str) (hs : headers)
    : outcome response :=
  match site with
  | DownloadCall => Ok (status_response 404 "404 Client Error: Not Found")
  | _ => sample_get tr site url hs
  end.

Definition refusing_world : World :=
  {| environ := sample_environ;
     now := fun _ => noon;
     http_post := fun _ _ _ => Ok (json_response (JObj [("access_token", JStr "tok")]));
     http_get := refusing_get;
     os_fault := fun _ _ => None;
     default_headers := [("User-Agent"%string, "python-requests"); ("Accept"%string, "*/*")];
     float_text := sample_float_text;
     py_repr := fun _ => "?";
     interp_text := fun _ _ => "bad operand" |}.

(** A disk on which no file can be opened. *)
Definition readonly_fault (tr : list event) (e : event) : option str :=
  match e with
  | EOpen _ => Some "Permission denied"
  | _ => None
  end.

Definition readonly_world : World :=
  {| environ := sample_environ;
     now := fun _ => noon;
     http_post := fun _ _ _ => Ok (json_response (JObj [("access_token", JStr "tok")]));
     http_get := sample_get;
     os_fault := readonly_fault;
     default_headers := [("User-Agent"%string, "python-requests"); ("Accept"%string, "*/*")];
     float_text := sample_float_text;
     py_repr := fun _ => "?";
     interp_text := fun _ _ => "bad operand" |}.

(** A server whose list call answers with the value [v]. *)
Definition answering_world (v : json) : World :=
  {| environ := sample_environ;
     now := fun _ => noon;
     http_post := fun _ _ _ => Ok (json_response (JObj [("access_token", JStr "tok")]));
     http_get := fun tr site url hs =>
                   match site with
                   | ListCall => Ok (json_response v)
                   | _ => sample_get tr site url hs
                   end;
     os_fault := fun _ _ => None;
     default_headers := [("User-Agent"%string, "python-requests"); ("Accept"%string, "*/*")];
     float_text := sample_float_text;
     py_repr := fun _ => "?";
     interp_text := fun _ _ => "bad operand" |}.

(** An application whose name holds characters outside ASCII: U+00E9,
    U+4E2D, U+1F600 (one character, two escapes in the snapshot) and the
    lone surrogate U+D83D. *)
Definition wide_name : str :=
  SCons 0xe9 (SCons 0x4e2d (SCons 0x1f600 (SCons 0xd83d "!"))).

Definition wide_app : json :=
  JObj [("domain", JStr wide_name); ("weight", JFloat half)].

Definition wide_apps : list json := [alpha_app; wide_app; gamma_app].

(** The sample object with endpoint logging off. *)
Definition quiet_self : MulesoftDownloader :=
  {| enable_endpoint_logging := false; control_plane := control_plane sample_self;
     config := config sample_self; auth_url := auth_url sample_self;
     base_url := base_url sample_self; session_headers := session_headers sample_self;
     download_dir := download_dir sample_self |}.

(* ===================================================================== *)
(** ** Observations on a trace *)
(* ===================================================================== *)

Definition is_http (e : event) : bool :=
  match e with EPost _ _ | EGet _ _ _ => true | _ => false end.

Definition is_info_call (e : event) : bool :=
  match e with EGet InfoCall _ _ => true | _ => false end.

(** The number of detail calls in a trace. *)
Definition count_info (tr : list event) : nat := length (List.filter is_info_call tr).

(** The effects of [download_application]: its call and its file-system calls. *)
Definition is_download_effect (e : event) : bool :=
  match e with
  | EGet DownloadCall _ _ | EMakedirs _ | EOpen _ | EWrite _ _ => true
  | _ => false
  end.

(** A summary record with a usable identifier: [app.get('domain')] is true. *)
Definition has_identifier (app : json) : bool :=
  match app with
  | JObj l => truthy (match assoc_get "domain" l with Some x => x | None => JNull end)
  | _ => false
  end.

(** A detail record with a usable filename. *)
Definition has_filename (info : json) : bool :=
  match info with
  | JObj l => truthy (match assoc_get "filename" l with Some x => x | None => JNull end)
  | _ => false
  end.

(** The three headers every call after authentication is to carry. *)
Definition carries_credentials (token org env : str) (hs : headers) : Prop :=
  header_get "Authorization" hs = Some ("Bearer " +:+ token) /\
  header_get "x-anypnt-org-id" hs = Some org /\
  header_get "x-anypnt-env-id" hs = Some env.

(** [st'] continues [st]: its trace is the trace of [st] with the events
    [new] in front, all of them in [E]. *)
Definition continues (E : event -> Prop) (st st' : state) : Prop :=
  exists new, trace st' = new ++ trace st /\ Forall E new.

(** Nothing is ever removed from the file system. *)
Definition fs_grows (st st' : state) : Prop :=
  dirs (fs st) ⊆ dirs (fs st') /\ dom (files (fs st)) ⊆ dom (files (fs st')).

(** A float that [floatstr] writes through [float.__repr__]. *)
Definition is_finite (f : spec_float) : bool :=
  match f with
  | S754_zero _ | S754_finite _ _ _ => true
  | S754_infinity _ | S754_nan => false
  end.

(** [NUMBER_RE] matches the whole of [s], with a fraction or an exponent:
    the form of a number literal that the decoder reads as a float. *)
Definition float_literal (s : str) : bool :=
  match scan_integer s with
  | None => false
  | Some (_, r) =>
      let (frac, r1) := scan_frac r in
      let (exp, r2) := scan_exp r1 in
      str_eqb r2 "" && negb (str_eqb frac "" && str_eqb exp "")
  end.

(** The guarantee of the interpreter for the floats of [v]: the text of a
    finite float is a float literal, and [float()] reads it back. *)
Fixpoint floats_read_back (repr : spec_float -> str) (of_text : str -> spec_float)
    (v : json) : Prop :=
  match v with
  | JFloat f => is_finite f = true ->
                float_literal (repr f) = true /\ of_text (repr f) = f
  | JArr l => (fix all (l : list json) : Prop :=
                 match l with
                 | [] => True
                 | x :: l' => floats_read_back repr of_text x /\ all l'
                 end) l
  | JObj l => (fix all (l : list (str * json)) : Prop :=
                 match l with
                 | [] => True
                 | (_, x) :: l' => floats_read_back repr of_text x /\ all l'
                 end) l
  | _ => True
  end.

(** The number of values in a document. *)
Fixpoint size (v : json) : nat :=
  match v with
  | JArr l => S ((fix sum (l : list json) : nat :=
                    match l with [] => 0 | x :: l' => size x + sum l' end) l)
  | JObj l => S ((fix sum (l : list (str * json)) : nat :=
                    match l with [] => 0 | (_, x) :: l' => size x + sum l' end) l)
  | _ => 1
  end.

(** The text of the items of a list after the first, and of the members
    of a dict after the first, as [encode] lays them out. *)
Fixpoint items_text (repr : spec_float -> str) (level : nat) (l : list json) : str :=
  match l with
  | [] => ""
  | y :: l' =>
      "," +:+ newline_indent (S level) +:+ encode repr (S level) y +:+ items_text repr level l'
  end.

Fixpoint members_text (repr : spec_float -> str) (level : nat) (l : list (str * json))
    : str :=
  match l with
  | [] => ""
  | (k, y) :: l' =>
      "," +:+ newline_indent (S level) +:+ encode_str k +:+ ": " +:+
      encode repr (S level) y +:+ members_text repr level l'
  end.

(** What may follow a value in the text [encode] writes: a comma, a new
    line, or the end of the text. *)
Definition delim (rest : str) : bool :=
  match rest with
  | SNil => true
  | SCons c _ => N.eqb c (code ",") || N.eqb c 10
  end.

Fixpoint all_digits (s : str) : bool :=
  match s with
  | SNil => true
  | SCons c s' => is_digit c && all_digits s'
  end.

(** A character a value can start with: it is no white space and closes
    no list or dict. *)
Definition starts_value (c : N) : Prop :=
  is_ws c = false /\ N.eqb c (code "]") = false /\ N.eqb c (code "}") = false.

(** The first character of a number literal. *)
Definition starts_number (c : N) : bool := N.eqb c (code "-") || is_digit c.

(** [v], written at any depth and followed by a delimiter, is read back
    by [scan_once] as soon as the fuel covers its size. *)
Definition reads_back (repr : spec_float -> str) (of_text : str -> spec_float)
    (v : json) : Prop :=
  forall level fuel rest, size v <= fuel -> delim rest = true ->
  scan_once of_text fuel (encode repr level v +:+ rest) = Some (v, rest).

Definition not_info (e : event) : Prop := is_info_call e = false.

Definition no_download (e : event) : Prop := is_download_effect e = false.

(** The bytes of a file written chunk after chunk. *)
Definition join_chunks (chunks : list str) : str :=
  fold_right str_app "" chunks.

(** Calendar fields that [datetime] admits, with a year of four digits. *)
Definition valid_datetime (d : datetime) : Prop :=
  (1000 <= year d <= 9999 /\ 1 <= month d <= 12 /\ 1 <= day d <= 31 /\
   hour d <= 23 /\ minute d <= 59 /\ second d <= 59 /\ microsecond d <= 999999)%N.

(** The two readings agree down to the second. *)
Definition same_second (d1 d2 : datetime) : Prop :=
  year d1 = year d2 /\ month d1 = month d2 /\ day d1 = day d2 /\
  hour d1 = hour d2 /\ minute d1 = minute d2 /\ second d1 = second d2.

Definition run_dir_name (d : datetime) : str := "downloads_" +:+ strftime d.

(** Counting events of one kind in a trace. *)
Definition count_events (p : event -> bool) (tr : list event) : nat :=
  length (List.filter p tr).

Definition is_list_call (e : event) : bool :=
  match e with EGet ListCall _ _ => true | _ => false end.

Definition is_download_call (e : event) : bool :=
  match e with EGet DownloadCall _ _ => true | _ => false end.

Definition is_post (e : event) : bool :=
  match e with EPost _ _ => true | _ => false end.

Definition is_get (e : event) : bool :=
  match e with EGet _ _ _ => true | _ => false end.

(** An event that is not of the kind [p]. *)
Definition none_of (p : event -> bool) (e : event) : Prop := p e = false.

(** The object as the assignments of [_load_config] leave it: the flag, the
    selector and the four entries of [self.config], read from the environment. *)
Definition loaded_config (w : World) (self : MulesoftDownloader) : MulesoftDownloader :=
  {| enable_endpoint_logging :=
       String.eqb (lower (getenv_or w "ENABLE_ENDPOINT_LOGGING" "True")) "true";
     control_plane := lower (getenv_or w "ANYPOINT_CONTROL_PLANE" "us");
     config := {| client_id := getenv_or w "ANYPOINT_CLIENT_ID" "";
                  client_secret := getenv_or w "ANYPOINT_CLIENT_SECRET" "";
                  organization_id := getenv_or w "ANYPOINT_ORG_ID" "";
                  environment_id := getenv_or w "ANYPOINT_ENV_ID" "" |};
     auth_url := auth_url self; base_url := base_url self;
     session_headers := session_headers self;
     download_dir := download_dir self |}.

(** The file system is left as it was. *)
Definition same_fs (st st' : state) : Prop := fs st' = fs st.

(** Any event at all. *)
Definition any_event (e : event) : Prop := True.

(** Between [st] and [st'] the record named [name] was taken up as number
    [i]: its line was printed and, after it, its detail call was issued. *)
Definition visited (w : World) (self : MulesoftDownloader) (total i : nat) (name : json)
    (st st' : state) : Prop :=
  exists newer mid older,
    trace st' =
      newer ++ EGet InfoCall (app_url w self name) (session_headers self) :: mid ++
      EPrint (nl +:+ "Processing application " +:+ str_of_nat i +:+ " of " +:+
              str_of_nat total +:+ ": " +:+ py_str w name) :: older ++ trace st.

(** [p] lies under the directory [dir]. *)
Definition under (dir p : str) : Prop := exists rest, p = dir +:+ "/" +:+ rest.

Fixpoint has_slash (s : str) : bool :=
  match s with
  | SNil => false
  | SCons c s' => N.eqb c (code "/") || has_slash s'
  end.

(** A name that is one component of a path: it is not empty, holds no
    separator, and is neither "." nor "..". *)
Definition is_component (s : str) : bool :=
  negb (has_slash s) && negb (str_eqb s "") && negb (str_eqb s ".") && negb (str_eqb s "..").

(** The names a record gives to the script: its identifier and its file
    name, where they are strings. *)
Definition record_names (v : json) : list str :=
  match v with
  | JObj l =>
      match assoc_get "domain" l with Some (JStr s) => [s] | _ => [] end ++
      match assoc_get "filename" l with Some (JStr s) => [s] | _ => [] end
  | _ => []
  end.

Definition response_names (v : json) : list str :=
  match v with
  | JArr l => concat (map record_names l)
  | _ => record_names v
  end.

(** The server names applications and files by single path components. *)
Definition names_are_components (w : World) : Prop :=
  forall tr site url hs resp v,
    http_get w tr site url hs = Ok resp -> body_json resp = Ok v ->
    Forall (fun s => is_component s = true) (response_names v).

(** The files outside [P] are as they were. *)
Definition files_kept (P : str -> Prop) (st st' : state) : Prop :=
  forall p, ~ P p -> files (fs st') !! p = files (fs st) !! p.

(** The text starts with the escape of a low surrogate (or with an escape
    [\u] that cannot be read). *)
Definition starts_low_escape (t : str) : bool :=
  match t with
  | SCons b (SCons e (SCons l1 (SCons l2 (SCons l3 (SCons l4 _))))) =>
      (b =? 92)%N && (e =? 117)%N &&
      match hex4 l1 l2 l3 l4 with
      | Some m => is_low_surrogate m
      | None => true
      end
  | SCons b (SCons e _) => (b =? 92)%N && (e =? 117)%N
  | _ => false
  end.

(* ===================================================================== *)
(** ** Two runs *)
(* ===================================================================== *)

(** Five seconds after [noon]. *)
Definition five_past : datetime :=
  {| year := 2024; month := 1; day := 15; hour := 12; minute := 0; second := 5;
     microsecond := 0 |}%N.

(** The sample server five seconds later, shipping other bytes. *)
Definition five_past_world : World :=
  {| environ := sample_environ;
     now := fun _ => five_past;
     http_post := fun _ _ _ => Ok (json_response (JObj [("access_token", JStr "tok")]));
     http_get := later_get;
     os_fault := fun _ _ => None;
     default_headers := [("User-Agent"%string, "python-requests"); ("Accept"%string, "*/*")];
     float_text := sample_float_text;
     py_repr := fun _ => "?";
     interp_text := fun _ _ => "bad operand" |}.

(** A server that names the artifact of [gamma] by an absolute path. *)
Definition absolute_get (chunks : list str) (tr : list event) (site : call_site) (url : str)
    (hs : headers) : outcome response :=
  match site with
  | ListCall => Ok (json_response (JArr [gamma_app]))
  | InfoCall =>
      Ok (json_response (JObj [("domain", JStr "gamma"); ("filename", JStr "/srv/mule/gamma.jar")]))
  | DownloadCall => Ok (stream_response chunks None)
  end.

Definition absolute_world (clock : datetime) (chunks : list str) : World :=
  {| environ := sample_environ;
     now := fun _ => clock;
     http_post := fun _ _ _ => Ok (json_response (JObj [("access_token", JStr "tok")]));
     http_get := absolute_get chunks;
     os_fault := fun _ _ => None;
     default_headers := [("User-Agent"%string, "python-requests"); ("Accept"%string, "*/*")];
     float_text := sample_float_text;
     py_repr := fun _ => "?";
     interp_text := fun _ _ => "bad operand" |}.

(* ===================================================================== *)
(** ** Reasoning about computations *)
(* ===================================================================== *)

(** [m] keeps [R] between the state it starts in and the state it ends in,
    whether it returns or raises. *)
Definition keeps {A} (R : state -> state -> Prop) (m : M A) : Prop :=
  forall st, R st (snd (m st)).

Section Keeps.

Variable R : state -> state -> Prop.
Hypothesis R_refl : forall st, R st st.
Hypothesis R_trans : forall a b c, R a b -> R b c -> R a c.

Lemma keeps_ret {A} (a : A) : keeps R (ret a).
Proof. intros st. apply R_refl. Qed.

Lemma keeps_raise {A} (e : exn) : keeps R (@raise A e).
Proof. intros st. apply R_refl. Qed.

Lemma keeps_lift {A} (o : outcome A) : keeps R (lift o).
Proof. intros st. apply R_refl. Qed.

Lemma keeps_bind {A B} (m : M A) (k : A -> M B) :
  keeps R m -> (forall a, keeps R (k a)) -> keeps R (bind m k).
Proof.
  intros Hm Hk st. unfold bind. specialize (Hm st).
  destruct (m st) as [[a | e] st1]; simpl in *; [| exact Hm].
  eapply R_trans; [exact Hm | apply Hk].
Qed.

Lemma keeps_try_except {A} (m : M A) (c : exn -> bool) (h : exn -> M A) :
  keeps R m -> (forall e, keeps R (h e)) -> keeps R (try_except m c h).
Proof.
  intros Hm Hh st. unfold try_except. specialize (Hm st).
  destruct (m st) as [[a | e] st1]; simpl in *; [exact Hm |].
  destruct (c e); simpl; [| exact Hm].
  eapply R_trans; [exact Hm | apply Hh].
Qed.

Lemma keeps_for_each {A} (body : A -> M unit) (l : list A) :
  (forall x, keeps R (body x)) -> keeps R (for_each body l).
Proof.
  intros Hb. induction l as [| x l IH]; simpl.
  - apply keeps_ret.
  - apply keeps_bind; auto.
Qed.

Lemma keeps_for_enumerate {A} (body : nat -> A -> M unit) (l : list A) :
  (forall i x, keeps R (body i x)) -> forall i, keeps R (for_enumerate body i l).
Proof.
  intros Hb. induction l as [| x l IH]; intros i; simpl.
  - apply keeps_ret.
  - apply keeps_bind; auto.
Qed.

Lemma keeps_if {A} (b : bool) (m1 m2 : M A) :
  keeps R m1 -> keeps R m2 -> keeps R (if b then m1 else m2).
Proof. destruct b; auto. Qed.

End Keeps.

Lemma union_grows (a b : gset str) : b ⊆ a ∪ b.
Proof. set_solver. Qed.

Lemma insert_grows (m : gmap str str) k v : dom m ⊆ dom (<[k := v]> m).
Proof. rewrite dom_insert_L. set_solver. Qed.

(** What [R] needs of the primitive effects to hold across every method
    called on the object [self]. *)
Section KeepsMethods.

Variable w : World.
Variable self : MulesoftDownloader.
Variable R : state -> state -> Prop.
Hypothesis R_refl : forall st, R st st.
Hypothesis R_trans : forall a b c, R a b -> R b c -> R a c.
Hypothesis R_print : forall line, keeps R (print line).
Hypothesis R_get_list : forall url, keeps R (session_get w ListCall url (session_headers self)).
Hypothesis R_get_info : forall url, keeps R (session_get w InfoCall url (session_headers self)).
Hypothesis R_get_download :
  forall url, keeps R (session_get w DownloadCall url (session_headers self)).
Hypothesis R_os : forall e change,
  (forall f, dirs f ⊆ dirs (change f) /\ dom (files f) ⊆ dom (files (change f))) ->
  (match e with EMakedirs _ | EOpen _ | EWrite _ _ => True | _ => False end) ->
  keeps R (os_call w e change).

Ltac keeps_step :=
  match goal with
  | |- keeps _ (datetime_now _) => intros ?; apply R_refl
  | |- keeps _ (bind _ _) => apply (keeps_bind R R_trans); [| intros ?]
  | |- keeps _ (try_except _ _ _) => apply (keeps_try_except R R_trans); [| intros ?]
  | |- keeps _ (if _ then _ else _) => apply keeps_if
  | |- keeps _ (ret _) => apply (keeps_ret R R_refl)
  | |- keeps _ (raise _) => apply (keeps_raise R R_refl)
  | |- keeps _ (lift _) => apply (keeps_lift R R_refl)
  | |- keeps _ (print _) => apply R_print
  | |- keeps _ (session_get _ ListCall _ _) => apply R_get_list
  | |- keeps _ (session_get _ InfoCall _ _) => apply R_get_info
  | |- keeps _ (session_get _ DownloadCall _ _) => apply R_get_download
  | |- keeps _ (for_each _ _) => apply (keeps_for_each R R_refl R_trans); intros ?
  | |- keeps _ (for_enumerate _ _ _) =>
      apply (keeps_for_enumerate R R_refl R_trans); intros ? ?
  | |- keeps _ (match ?x with _ => _ end) => destruct x
  end.

Lemma keeps_raise_for_status r : keeps R (raise_for_status r).
Proof. unfold raise_for_status. repeat keeps_step. Qed.

Lemma keeps_log message : keeps R (_log_endpoint self message).
Proof. unfold _log_endpoint. repeat keeps_step. Qed.

Lemma keeps_makedirs path : keeps R (makedirs w path).
Proof.
  apply R_os; [| exact I]. intros f; simpl. split; [apply union_grows | reflexivity].
Qed.

Lemma keeps_open_write path : keeps R (open_write w path).
Proof.
  apply R_os; [| exact I]. intros f; simpl. split; [reflexivity | apply insert_grows].
Qed.

Lemma keeps_file_write path data : keeps R (file_write w path data).
Proof.
  apply R_os; [| exact I]. intros f; simpl. split; [reflexivity | apply insert_grows].
Qed.

Ltac keeps_call :=
  match goal with
  | |- keeps _ (raise_for_status _) => apply keeps_raise_for_status
  | |- keeps _ (_log_endpoint _ _) => apply keeps_log
  | |- keeps _ (makedirs _ _) => apply keeps_makedirs
  | |- keeps _ (open_write _ _) => apply keeps_open_write
  | |- keeps _ (file_write _ _ _) => apply keeps_file_write
  | |- keeps _ (file_write _ _) => intros ?; apply keeps_file_write
  end.

Ltac keeps_auto := repeat first [ keeps_call | keeps_step ].

Lemma keeps_get_applications : keeps R (get_applications w self).
Proof using R_refl R_trans R_print R_get_list. unfold get_applications. keeps_auto. Qed.

Lemma keeps_get_application_info name : keeps R (get_application_info w self name).
Proof using R_refl R_trans R_print R_get_info. unfold get_application_info. keeps_auto. Qed.

Lemma keeps_write_chunks path r : keeps R (write_chunks w path r).
Proof using R_refl R_trans R_os. unfold write_chunks. keeps_auto. Qed.

Lemma keeps_download_application name filename :
  keeps R (download_application w self name filename).
Proof using R_refl R_trans R_print R_get_download R_os.
  unfold download_application.
  repeat first [ apply keeps_write_chunks | progress keeps_auto ].
Qed.

Lemma keeps_handle_info name info : keeps R (handle_info w self name info).
Proof using R_refl R_trans R_print R_get_download R_os.
  unfold handle_info.
  repeat first [ apply keeps_download_application | progress keeps_auto ].
Qed.

Lemma keeps_process_one name : keeps R (process_one w self name).
Proof.
  unfold process_one.
  repeat first [ apply keeps_get_application_info | apply keeps_handle_info
               | progress keeps_auto ].
Qed.

Lemma keeps_iteration total index app : keeps R (iteration w self total index app).
Proof.
  unfold iteration. repeat first [ apply keeps_process_one | progress keeps_auto ].
Qed.

Lemma keeps_save_snapshot apps : keeps R (save_snapshot w self apps).
Proof using R_refl R_trans R_print R_os. unfold save_snapshot. keeps_auto. Qed.

Lemma keeps_process_all_applications : keeps R (process_all_applications w self).
Proof.
  unfold process_all_applications.
  repeat first [ apply keeps_get_applications | apply keeps_save_snapshot
               | apply keeps_iteration | progress keeps_auto ].
Qed.

End KeepsMethods.

(** A walk along a computation, for an order given by its two laws and
    the steps [prim] of the primitives. *)
Ltac keeps_walk refl trans prim :=
  repeat match goal with
  | |- keeps _ (bind _ _) => apply (keeps_bind _ trans); [| intros ?]
  | |- keeps _ (try_except _ _ _) => apply (keeps_try_except _ trans); [| intros ?]
  | |- keeps _ (if _ then _ else _) => apply keeps_if
  | |- keeps _ (ret _) => apply (keeps_ret _ refl)
  | |- keeps _ (raise _) => apply (keeps_raise _ refl)
  | |- keeps _ (lift _) => apply (keeps_lift _ refl)
  | |- keeps _ (datetime_now _) => intros ?; apply refl
  | |- keeps _ (match ?x with _ => _ end) => destruct x
  | |- _ => prim
  end.

Lemma same_fs_refl st : same_fs st st.
Proof. reflexivity. Qed.

Lemma same_fs_trans a b c : same_fs a b -> same_fs b c -> same_fs a c.
Proof. unfold same_fs. congruence. Qed.

(* ===================================================================== *)
(** ** Text *)
(* ===================================================================== *)

Lemma str_app_nil_r (s : str) : s +:+ "" = s.
Proof.
  induction s as [| c s IH]; [reflexivity |].
  change (SCons c (s +:+ "") = SCons c s). by rewrite IH.
Qed.

Lemma str_app_assoc (a b c : str) : (a +:+ b) +:+ c = a +:+ (b +:+ c).
Proof.
  induction a as [| x a IH]; [reflexivity |].
  change (SCons x ((a +:+ b) +:+ c) = SCons x (a +:+ (b +:+ c))). by rewrite IH.
Qed.

Lemma str_app_inv_head (a b c : str) : a +:+ b = a +:+ c -> b = c.
Proof.
  induction a as [| x a IH]; [done |].
  change (SCons x (a +:+ b) = SCons x (a +:+ c) -> b = c). intros [= H]. auto.
Qed.

Lemma str_eqb_refl (s : str) : str_eqb s s = true.
Proof. induction s as [| c s IH]; [reflexivity |]. simpl. by rewrite N.eqb_refl, IH. Qed.

Lemma str_eqb_eq (a b : str) : str_eqb a b = true <-> a = b.
Proof.
  split; [| intros ->; apply str_eqb_refl].
  revert b. induction a as [| c a IH]; intros [| d b]; simpl; try done.
  intros H. apply andb_true_iff in H. destruct H as [H1 H2].
  apply N.eqb_eq in H1. apply IH in H2. congruence.
Qed.

Lemma u_app (a b : string) : u (a +:+ b)%stdpp = u a +:+ u b.
Proof.
  induction a as [| c a IH]; [reflexivity |].
  change (SCons (N_of_ascii c) (u (a +:+ b)%stdpp) = SCons (N_of_ascii c) (u a +:+ u b)).
  by rewrite IH.
Qed.

Lemma u_inj (a b : string) : u a = u b -> a = b.
Proof.
  revert b. induction a as [| c a IH]; intros [| d b]; simpl; try done.
  intros [= H1 H2]. apply IH in H2. subst b.
  apply (f_equal ascii_of_N) in H1. rewrite !ascii_N_embedding in H1. congruence.
Qed.

(* ===================================================================== *)
(** ** The two orders on states *)
(* ===================================================================== *)

Lemma continues_refl E st : continues E st st.
Proof. exists []. split; [reflexivity | constructor]. Qed.

Lemma continues_trans E a b c : continues E a b -> continues E b c -> continues E a c.
Proof.
  intros [n1 [H1 F1]] [n2 [H2 F2]]. exists (n2 ++ n1). split.
  - rewrite H2, H1. apply app_assoc.
  - apply Forall_app; auto.
Qed.

Lemma continues_emit E e : E e -> keeps (continues E) (emit e).
Proof. intros He st. exists [e]. split; [reflexivity | repeat constructor; exact He]. Qed.

Lemma continues_os_call w E e change : E e -> keeps (continues E) (os_call w e change).
Proof.
  intros He st. unfold os_call. exists [e].
  destruct (os_fault w (trace st) e); (split; [reflexivity | repeat constructor; exact He]).
Qed.

Lemma continues_session_get w E site url hs :
  E (EGet site url hs) -> keeps (continues E) (session_get w site url hs).
Proof. intros He st. exists [EGet site url hs]. split; [reflexivity | repeat constructor; exact He]. Qed.

Lemma fs_grows_refl st : fs_grows st st.
Proof. split; reflexivity. Qed.

Lemma fs_grows_trans a b c : fs_grows a b -> fs_grows b c -> fs_grows a c.
Proof. intros [H1 H2] [H3 H4]. split; etransitivity; eassumption. Qed.

Lemma fs_grows_os_call w e change :
  (forall f, dirs f ⊆ dirs (change f) /\ dom (files f) ⊆ dom (files (change f))) ->
  keeps fs_grows (os_call w e change).
Proof.
  intros Hc st. unfold os_call.
  destruct (os_fault w (trace st) e); simpl; [split; reflexivity |].
  exact (Hc (fs st)).
Qed.

(** Every event a method of [self] issues is in [E], as soon as [E] holds
    the console lines, the file-system calls and the calls made with the
    headers of the session. *)
Lemma process_all_applications_continues w self (E : event -> Prop) :
  (forall line, E (EPrint line)) ->
  (forall site url, E (EGet site url (session_headers self))) ->
  (forall p, E (EMakedirs p)) -> (forall p, E (EOpen p)) -> (forall p d, E (EWrite p d)) ->
  keeps (continues E) (process_all_applications w self).
Proof.
  intros Hp Hg Hm Ho Hw.
  apply keeps_process_all_applications.
  - apply continues_refl.
  - apply continues_trans.
  - intros line. apply continues_emit, Hp.
  - intros url. apply continues_session_get, Hg.
  - intros url. apply continues_session_get, Hg.
  - intros url. apply continues_session_get, Hg.
  - intros e change _ He. apply continues_os_call. destruct e; try contradiction; auto.
Qed.

(** No method of the object removes a directory or a file. *)
Lemma process_all_applications_grows w self :
  keeps fs_grows (process_all_applications w self).
Proof.
  apply keeps_process_all_applications.
  - apply fs_grows_refl.
  - apply fs_grows_trans.
  - intros line st. split; reflexivity.
  - intros url st. split; reflexivity.
  - intros url st. split; reflexivity.
  - intros url st. split; reflexivity.
  - intros e change Hc _. apply fs_grows_os_call, Hc.
Qed.

(* ===================================================================== *)
(** ** The loop *)
(* ===================================================================== *)

(** An iteration on a record never raises: what the body of its [try]
    raises is caught at the end of the iteration. *)
Lemma iteration_record w self total index l st :
  exists st', iteration w self total index (JObj l) st = (Ok tt, st').
Proof.
  unfold iteration, bind, lift, py_get; simpl.
  destruct (negb (truthy _)); [eexists; reflexivity |].
  unfold try_except.
  destruct (process_one w self _ _) as [[[] | e] st2]; simpl; eexists; reflexivity.
Qed.

Lemma for_enumerate_app {A} (body : nat -> A -> M unit) l1 l2 index st st1 :
  for_enumerate body index l1 st = (Ok tt, st1) ->
  for_enumerate body index (l1 ++ l2) st = for_enumerate body (index + length l1) l2 st1.
Proof.
  revert index st. induction l1 as [| x l1 IH]; intros index st H; simpl in *.
  - unfold ret in H. injection H as <-. by rewrite Nat.add_0_r.
  - unfold bind in *. destruct (body index x st) as [[[] | e] st2]; [| discriminate].
    rewrite (IH _ _ H). f_equal. lia.
Qed.

Lemma for_enumerate_records w self total l index st :
  Forall (fun a => is_record a = true) l ->
  exists st', for_enumerate (iteration w self total) index l st = (Ok tt, st').
Proof.
  intros Hl. revert index st. induction Hl as [| a l Ha _ IH]; intros index st; simpl.
  - eexists; reflexivity.
  - destruct a; try discriminate.
    destruct (iteration_record w self total index l0 st) as [st1 H1].
    unfold bind. rewrite H1. apply IH.
Qed.

(** The failure of a detail call is reported and absorbed by the iteration. *)
Lemma iteration_absorbs_failure w self total index l name e st st' :
  assoc_get "domain" l = Some name -> truthy name = true ->
  process_one w self name
    (snd (print (nl +:+ "Processing application " +:+ str_of_nat index +:+ " of " +:+
                 str_of_nat total +:+ ": " +:+ py_str w name) st)) = (Raise e, st') ->
  iteration w self total index (JObj l) st =
  (Ok tt, snd (print ("Error processing " +:+ py_str w name +:+ ": " +:+ exn_str e) st')).
Proof.
  intros Hd Ht Hp. unfold iteration, bind, lift, py_get; simpl. rewrite Hd, Ht; simpl.
  unfold try_except. simpl in Hp. rewrite Hp. reflexivity.
Qed.

Lemma handle_info_extends w self name info :
  keeps (continues any_event) (handle_info w self name info).
Proof.
  apply keeps_handle_info.
  - apply continues_refl.
  - apply continues_trans.
  - intros line. by apply continues_emit.
  - intros url. by apply continues_session_get.
  - intros e change _ He. by apply continues_os_call.
Qed.

Lemma iteration_extends w self total index app :
  keeps (continues any_event) (iteration w self total index app).
Proof.
  apply keeps_iteration.
  - apply continues_refl.
  - apply continues_trans.
  - intros line. by apply continues_emit.
  - intros url. by apply continues_session_get.
  - intros url. by apply continues_session_get.
  - intros e change _ He. by apply continues_os_call.
Qed.

(** The iteration on a record with an identifier prints its line and
    issues its detail call, whatever follows. *)
Lemma iteration_visits w self total index l name st :
  assoc_get "domain" l = Some name -> truthy name = true ->
  exists st',
    iteration w self total index (JObj l) st = (Ok tt, st') /\
    visited w self total index name st st'.
Proof.
  intros Hd Ht.
  destruct (iteration_record w self total index l st) as [st' Hit]. exists st'.
  split; [exact Hit |]. revert Hit.
  unfold iteration, bind at 1, lift, py_get. rewrite Hd, Ht. cbn [negb].
  unfold bind at 1, print at 1, emit at 1.
  set (line := nl +:+ "Processing application " +:+ str_of_nat index +:+ " of " +:+
               str_of_nat total +:+ ": " +:+ py_str w name).
  set (st_p := {| trace := EPrint line :: trace st; fs := fs st |}).
  unfold try_except at 1, process_one, bind at 1, get_application_info, bind at 1.
  assert (Hlog : exists mid st0,
            _log_endpoint self (nl +:+ "Calling application info endpoint: " +:+
                                app_url w self name) st_p = (Ok tt, st0) /\
            trace st0 = mid ++ trace st_p).
  { unfold _log_endpoint. destruct (enable_endpoint_logging self).
    - eexists [_], _. split; reflexivity.
    - eexists [], _. split; reflexivity. }
  destruct Hlog as [mid [st0 [-> Hst0]]].
  unfold try_except at 1, bind at 1, session_get.
  set (st_g := {| trace := EGet InfoCall (app_url w self name) (session_headers self)
                           :: trace st0; fs := fs st0 |}).
  assert (Hg : trace st_g = EGet InfoCall (app_url w self name) (session_headers self)
                            :: mid ++ EPrint line :: [] ++ trace st).
  { unfold st_g. cbn [trace]. rewrite Hst0. reflexivity. }
  assert (Hend : forall st2, continues any_event st_g st2 -> visited w self total index name st st2).
  { intros st2 [new [E _]]. exists new, mid, []. rewrite E, Hg. reflexivity. }
  assert (Hprint : forall text st2, continues any_event st_g st2 ->
            visited w self total index name st (snd (print text st2))).
  { intros text st2 Hc. apply Hend. eapply continues_trans; [exact Hc |].
    by apply (continues_emit any_event). }
  destruct (http_get w (trace st0) InfoCall _ _) as [r | e].
  - unfold bind at 1, raise_for_status.
    destruct (_ && _).
    + unfold raise at 1. cbn [is_RequestException exn_cls]. unfold raise at 1.
      intros [= <-]. exact (Hprint _ st_g (continues_refl _ _)).
    + unfold ret at 1, lift. destruct (body_json r) as [info | e].
      * pose proof (handle_info_extends w self name info st_g) as Hh.
        destruct (handle_info w self name info st_g) as [[[] | e] st3]; cbn [snd] in Hh.
        -- intros [= <-]. by apply Hend.
        -- intros [= <-]. exact (Hprint _ st3 Hh).
      * destruct (is_RequestException e).
        -- unfold raise at 1. intros [= <-]. exact (Hprint _ st_g (continues_refl _ _)).
        -- intros [= <-]. exact (Hprint _ st_g (continues_refl _ _)).
  - destruct (is_RequestException e).
    + unfold raise at 1. intros [= <-]. exact (Hprint _ st_g (continues_refl _ _)).
    + intros [= <-]. exact (Hprint _ st_g (continues_refl _ _)).
Qed.

Lemma visited_later w self total i name st st1 st2 :
  visited w self total i name st st1 -> continues any_event st1 st2 ->
  visited w self total i name st st2.
Proof.
  intros [newer [mid [older E]]] [new [E2 _]].
  exists (new ++ newer), mid, older. rewrite E2, E. by rewrite <- app_assoc.
Qed.

Lemma visited_earlier w self total i name st0 st st2 :
  continues any_event st0 st -> visited w self total i name st st2 ->
  visited w self total i name st0 st2.
Proof.
  intros [new [E0 _]] [newer [mid [older E]]].
  exists newer, mid, (older ++ new). rewrite E, E0. by rewrite <- app_assoc.
Qed.

(** The loop over records takes up every record that has an identifier,
    under the number of its position. *)
Lemma loop_visits w self total post : forall index st,
  Forall (fun a => is_record a = true) post ->
  exists st3,
    for_enumerate (iteration w self total) index post st = (Ok tt, st3) /\
    continues any_event st st3 /\
    forall j l name,
      post !! j = Some (JObj l) -> assoc_get "domain" l = Some name -> truthy name = true ->
      visited w self total (index + j) name st st3.
Proof.
  induction post as [| a post IH]; intros index st Hrec.
  - exists st. split; [reflexivity |]. split; [apply continues_refl |]. by intros j l name.
  - apply Forall_cons_iff in Hrec. destruct Hrec as [Ha Hrec].
    destruct a as [| | | | | | la]; try discriminate.
    destruct (iteration_record w self total index la st) as [st1 H1].
    pose proof (iteration_extends w self total index (JObj la) st) as Hc1.
    rewrite H1 in Hc1. cbn [snd] in Hc1.
    destruct (IH (S index) st1 Hrec) as [st3 [H3 [Hc3 Hv]]].
    exists st3. split; [| split].
    + cbn [for_enumerate]. unfold bind. by rewrite H1.
    + by apply continues_trans with st1.
    + intros [| j] l name Hj Hd Ht.
      * injection Hj as ->. rewrite Nat.add_0_r.
        destruct (iteration_visits w self total index l name st Hd Ht) as [st1' [H1' Hv1]].
        rewrite H1 in H1'. injection H1' as <-.
        by apply visited_later with st1.
      * rewrite Nat.add_succ_r. apply visited_earlier with st1; [exact Hc1 |].
        by apply (Hv j l name).
Qed.

(** C1. When the processing of record K raises (the detail call fails, or
    the download raises), the error is caught at the end of iteration K,
    which prints it and ends normally; the loop then goes on with
    records K+1..N and ends normally, and every one of these records
    that has an identifier is taken up (its line is printed and its
    detail call is issued) after the error of record K was printed. *)
Theorem process_continues_after_failure w self total index pre l name e post st st1 st_f :
  Forall (fun a => is_record a = true) post ->
  for_enumerate (iteration w self total) index pre st = (Ok tt, st1) ->
  assoc_get "domain" l = Some name -> truthy name = true ->
  process_one w self name
    (snd (print (nl +:+ "Processing application " +:+ str_of_nat (index + length pre) +:+
                 " of " +:+ str_of_nat total +:+ ": " +:+ py_str w name) st1))
    = (Raise e, st_f) ->
  exists st2 st3,
    st2 = snd (print ("Error processing " +:+ py_str w name +:+ ": " +:+ exn_str e) st_f) /\
    iteration w self total (index + length pre) (JObj l) st1 = (Ok tt, st2) /\
    for_enumerate (iteration w self total) (S (index + length pre)) post st2 = (Ok tt, st3) /\
    for_enumerate (iteration w self total) index (pre ++ JObj l :: post) st = (Ok tt, st3) /\
    forall j l' name',
      post !! j = Some (JObj l') -> assoc_get "domain" l' = Some name' ->
      truthy name' = true ->
      visited w self total (S (index + length pre) + j) name' st2 st3.
Proof.
  intros Hpost Hpre Hd Ht Hfail.
  pose proof (iteration_absorbs_failure w self total (index + length pre) l name e st1 st_f
                Hd Ht Hfail) as Hk.
  destruct (loop_visits w self total post (S (index + length pre))
              (snd (print ("Error processing " +:+ py_str w name +:+ ": " +:+ exn_str e) st_f))
              Hpost) as [st3 [H3 [_ Hv]]].
  eexists _, st3. split; [reflexivity |]. split; [exact Hk |]. split; [exact H3 |].
  split; [| exact Hv].
  rewrite (for_enumerate_app _ _ _ _ _ _ Hpre). cbn [for_enumerate]. unfold bind.
  by rewrite Hk.
Qed.

(** C10. An element of the list that is not a record ends the loop: the
    lookup of its identifier raises outside the [try] of the iteration,
    so no later element is visited, and [process_all_applications]
    reports the error from its outer handler. *)
Theorem non_record_aborts_loop w self pre x post st st_a st_b :
  Forall (fun a => is_record a = true) pre -> is_record x = false ->
  get_applications w self (snd (print "Starting applications download process..." st))
    = (Ok (JArr (pre ++ x :: post)), st_a) ->
  (print (nl +:+ "Found " +:+ str_of_nat (length (pre ++ x :: post)) +:+
          " applications to process") ;;;
   save_snapshot w self (JArr (pre ++ x :: post))) st_a = (Ok tt, st_b) ->
  exists st_c,
    for_enumerate (iteration w self (length (pre ++ x :: post))) 1 pre st_b = (Ok tt, st_c) /\
    for_enumerate (iteration w self (length (pre ++ x :: post))) 1 (pre ++ x :: post) st_b
      = (Raise (mk_exn AttributeError (interp_text w AttributeError x)), st_c) /\
    process_all_applications w self st =
      (Ok tt, snd (print ("Error during process: " +:+ interp_text w AttributeError x) st_c)).
Proof.
  intros Hpre Hx Hget Hsnap.
  set (n := length (pre ++ x :: post)) in *.
  destruct (for_enumerate_records w self n pre 1 st_b Hpre) as [st_c Hc].
  assert (Hloop : for_enumerate (iteration w self n) 1 (pre ++ x :: post) st_b
                  = (Raise (mk_exn AttributeError (interp_text w AttributeError x)), st_c)).
  { rewrite (for_enumerate_app _ _ _ _ _ _ Hc). simpl.
    unfold bind at 1. unfold iteration at 1. unfold bind at 1, lift, py_get.
    destruct x; try discriminate; reflexivity. }
  exists st_c. repeat split; auto.
  unfold process_all_applications. unfold bind at 1. simpl.
  unfold try_except. unfold bind at 1. simpl in Hget. rewrite Hget.
  unfold bind at 1. unfold lift, py_items. fold n.
  unfold bind at 1 in Hsnap. unfold bind at 1.
  destruct (print _ st_a) as [[[] | e1] st_p] eqn:Hp; [| discriminate].
  unfold bind at 1. rewrite Hsnap. rewrite Hloop. reflexivity.
Qed.

(* ===================================================================== *)
(** ** Counting the detail calls *)
(* ===================================================================== *)

Lemma count_info_app a b : count_info (a ++ b) = count_info a + count_info b.
Proof. unfold count_info. by rewrite List.filter_app, length_app. Qed.

Lemma count_info_quiet st st' :
  continues not_info st st' -> count_info (trace st') = count_info (trace st).
Proof.
  intros [new [-> Hn]]. rewrite count_info_app.
  assert (count_info new = 0) as ->; [| reflexivity].
  induction Hn as [| e l He _ IH]; [reflexivity |].
  unfold count_info in *. simpl. unfold not_info in He. by rewrite He.
Qed.

Lemma get_applications_quiet w self : keeps (continues not_info) (get_applications w self).
Proof.
  apply keeps_get_applications.
  - apply continues_refl.
  - apply continues_trans.
  - intros line. by apply continues_emit.
  - intros url. by apply continues_session_get.
Qed.

Lemma save_snapshot_quiet w self apps :
  keeps (continues not_info) (save_snapshot w self apps).
Proof.
  apply keeps_save_snapshot.
  - apply continues_refl.
  - apply continues_trans.
  - intros line. by apply continues_emit.
  - intros e change _ He. apply continues_os_call. by destruct e.
Qed.

Lemma handle_info_quiet w self name info :
  keeps (continues not_info) (handle_info w self name info).
Proof.
  apply keeps_handle_info.
  - apply continues_refl.
  - apply continues_trans.
  - intros line. by apply continues_emit.
  - intros url. by apply continues_session_get.
  - intros e change _ He. apply continues_os_call. by destruct e.
Qed.

(** [get_application_info] issues one detail call, whatever comes back. *)
Lemma get_application_info_count w self name st :
  count_info (trace (snd (get_application_info w self name st))) = S (count_info (trace st)).
Proof.
  unfold get_application_info, _log_endpoint, try_except, bind, session_get, print, emit.
  destruct (enable_endpoint_logging self); simpl;
    (destruct (http_get w _ InfoCall _ _) as [r | e]; simpl;
     [ unfold raise_for_status; destruct (_ && _); simpl;
       [| unfold lift; destruct (body_json r) as [v | e]; simpl ]
     | ];
     repeat match goal with |- context [is_RequestException ?e] =>
              destruct (is_RequestException e); simpl end;
     reflexivity).
Qed.

Lemma iteration_count w self total index l st :
  count_info (trace (snd (iteration w self total index (JObj l) st))) =
  count_info (trace st) + (if has_identifier (JObj l) then 1 else 0).
Proof.
  unfold iteration, bind, lift, py_get, has_identifier; simpl.
  destruct (truthy _); simpl; [| lia].
  unfold try_except, process_one, bind.
  match goal with |- context [get_application_info w self ?n ?s] =>
    pose proof (get_application_info_count w self n s) as Hc;
    destruct (get_application_info w self n s) as [[info | e] st2] end; simpl in *.
  - pose proof (handle_info_quiet w self
        (match assoc_get "domain" l with Some x => x | None => JNull end) info st2) as Hq.
    apply count_info_quiet in Hq.
    destruct (handle_info w self _ info st2) as [[[] | e] st3]; simpl in *;
      unfold count_info in *; simpl in *; lia.
  - unfold count_info in *; simpl in *; lia.
Qed.

Lemma loop_count w self total l : forall index st,
  Forall (fun a => is_record a = true) l ->
  count_info (trace (snd (for_enumerate (iteration w self total) index l st))) =
  count_info (trace st) + length (List.filter has_identifier l).
Proof.
  induction l as [| a l IH]; intros index st Hl; [simpl; lia |].
  inversion Hl as [| ? ? Ha Hl']; subst.
  destruct a; try discriminate.
  destruct (iteration_record w self total index l0 st) as [st1 H1].
  pose proof (iteration_count w self total index l0 st) as Hc. rewrite H1 in Hc.
  cbn [for_enumerate List.filter snd] in *.
  set (b := has_identifier (JObj l0)) in *.
  unfold bind. rewrite H1. rewrite (IH _ _ Hl'), Hc.
  destruct b; cbn [length]; lia.
Qed.

Lemma filter_complement {A} (p : A -> bool) (l : list A) :
  length (List.filter p l) = length l - length (List.filter (fun a => negb (p a)) l).
Proof.
  induction l as [| a l IH]; simpl; [reflexivity |].
  assert (length (List.filter (fun a => negb (p a)) l) <= length l) by apply List.filter_length_le.
  destruct (p a); simpl; lia.
Qed.

(** A record without a usable identifier is passed over in silence: its
    iteration returns in the state it started in. *)
Lemma iteration_skips w self total index a st :
  is_record a = true -> has_identifier a = false ->
  iteration w self total index a st = (Ok tt, st).
Proof.
  destruct a as [| | | | | | l]; try discriminate. intros _ Hid.
  unfold has_identifier in Hid. unfold iteration, bind, lift, py_get.
  by rewrite Hid.
Qed.



(* ===================================================================== *)
(** ** Construction *)
(* ===================================================================== *)

(** C3. When the control-plane selector (the value the code tests: the
    variable ANYPOINT_CONTROL_PLANE, or "us" when unset, in lower case)
    is not one of us, eu1, gov, the constructor raises a configuration
    error from [_load_config] before any effect, and the whole run
    consists of the line that reports it: no HTTP call is issued. *)
Theorem invalid_control_plane_fails_before_http w st :
  str_in (lower (getenv_or w "ANYPOINT_CONTROL_PLANE" "us")) valid_control_planes = false ->
  exists e,
    __init__ w st = (Raise e, st) /\
    (exn_cls e = ValueError \/ exn_cls e = KeyError) /\
    main w st = (Ok tt, {| trace := EPrint ("Fatal error: " +:+ exn_str e) :: trace st;
                           fs := fs st |}) /\
    forall f, Forall (fun ev => is_http ev = false) (trace (run w f)).
Proof.
  intros H.
  assert (Hinit : forall st0, exists e, __init__ w st0 = (Raise e, st0) /\
                    (exn_cls e = ValueError \/ exn_cls e = KeyError) /\
                    main w st0 = (Ok tt, {| trace := EPrint ("Fatal error: " +:+ exn_str e)
                                                       :: trace st0; fs := fs st0 |})).
  { intros st0. unfold main, try_except, bind at 1. unfold __init__, bind at 1 2.
    unfold _load_config.
    destruct (List.filter (env_missing w) required_vars).
    - rewrite H. simpl. eexists. repeat split. by left.
    - simpl. eexists. repeat split. by right. }
  destruct (Hinit st) as [e [H1 [H2 H3]]]. exists e. repeat split; auto.
  intros f. unfold run. destruct (Hinit (initial f)) as [e' [_ [_ H3']]].
  rewrite H3'. simpl. repeat constructor.
Qed.

Lemma same_header_refl k : same_header k k = true.
Proof. unfold same_header. apply String.eqb_refl. Qed.

Lemma header_get_set_same k v hs : header_get k (header_set k v hs) = Some v.
Proof.
  induction hs as [| [k' v'] hs IH]; simpl.
  - by rewrite same_header_refl.
  - destruct (same_header k k') eqn:E; simpl.
    + by rewrite same_header_refl.
    + by rewrite E.
Qed.

Lemma header_get_set_other k k2 v hs :
  same_header k k2 = false -> header_get k (header_set k2 v hs) = header_get k hs.
Proof.
  intros Hne. induction hs as [| [k' v'] hs IH]; simpl.
  - by rewrite Hne.
  - destruct (same_header k2 k') eqn:E; simpl.
    + rewrite Hne. unfold same_header in *.
      apply String.eqb_eq in E. rewrite <- E. by rewrite Hne.
    + by rewrite IH.
Qed.

(** What a successful [_setup_session] has done. *)
Lemma setup_session_ok w self self' st st' :
  _setup_session w self st = (Ok self', st') ->
  exists tr resp body tok,
    http_post w tr (auth_url self)
      [("grant_type", "client_credentials"); ("client_id", client_id (config self));
       ("client_secret", client_secret (config self))] = Ok resp /\
    body_json resp = Ok (JObj body) /\ assoc_get "access_token" body = Some tok /\
    self' = with_session_headers self
              (headers_update
                 [("Authorization"%string, "Bearer " +:+ py_str w tok);
                  ("Content-Type"%string, "application/json");
                  ("x-anypnt-env-id"%string, environment_id (config self));
                  ("x-anypnt-org-id"%string, organization_id (config self))]
                 (session_headers self)).
Proof.
  unfold _setup_session. unfold bind at 1.
  destruct (_log_endpoint self _ st) as [[[] | e0] st0]; [| discriminate].
  unfold try_except, bind at 1, requests_post.
  destruct (http_post w (trace st0) _ _) as [resp | e1] eqn:Hpost.
  2: { simpl. destruct (is_RequestException e1); discriminate. }
  unfold bind at 1. unfold raise_for_status.
  destruct (_ && _); simpl.
  { discriminate. }
  unfold bind at 1, lift.
  destruct (body_json resp) as [body | e2] eqn:Hbody.
  2: { destruct (is_RequestException e2); discriminate. }
  unfold bind, py_subscript.
  destruct body as [| b | z | f | s | l | l]; simpl; try discriminate.
  destruct (assoc_get "access_token" l) as [tok |] eqn:Htok; simpl; [| discriminate].
  unfold ret. intros [= <- <-].
  exists (trace st0), resp, l, tok. repeat split; auto.
Qed.

Lemma load_config_ok w self self' st st' :
  _load_config w self st = (Ok self', st') ->
  organization_id (config self') = getenv_or w "ANYPOINT_ORG_ID" "" /\
  environment_id (config self') = getenv_or w "ANYPOINT_ENV_ID" "".
Proof.
  unfold _load_config.
  destruct (List.filter _ _); [| discriminate].
  destruct (negb _); [discriminate |]. unfold ret. intros [= <- <-]. split; reflexivity.
Qed.

Lemma setup_base_urls_ok w self self' st st' :
  _setup_base_urls w self st = (Ok self', st') -> config self' = config self.
Proof.
  unfold _setup_base_urls.
  destruct (assoc_get _ control_plane_domains); [| discriminate].
  unfold bind at 1.
  match goal with |- context [(if ?b then ?x else ?y) st] =>
    destruct ((if b then x else y) st) as [[[] | e] st2] end; [| discriminate].
  unfold ret. intros [= <- <-]. reflexivity.
Qed.

(** What a successful construction has done. *)
Lemma init_ok w st self st1 :
  __init__ w st = (Ok self, st1) ->
  exists self0 st0 self1 st2,
    _setup_session w self0 st0 = (Ok self1, st2) /\
    _setup_download_dir w self1 st2 = (Ok self, st1) /\
    organization_id (config self0) = getenv_or w "ANYPOINT_ORG_ID" "" /\
    environment_id (config self0) = getenv_or w "ANYPOINT_ENV_ID" "".
Proof.
  unfold __init__. unfold bind at 1.
  destruct (_load_config w new_object st) as [[sa | e] sta] eqn:Hload; [| discriminate].
  unfold bind at 1.
  destruct (_setup_base_urls w sa sta) as [[sb | e] stb] eqn:Hbase; [| discriminate].
  unfold bind at 1.
  destruct (_setup_session w _ stb) as [[sc | e] stc] eqn:Hsess; [| discriminate].
  intros Hdir. eexists _, stb, sc, stc. split; [exact Hsess |]. split; [exact Hdir |].
  apply load_config_ok in Hload. apply setup_base_urls_ok in Hbase.
  simpl. rewrite Hbase. exact Hload.
Qed.

Lemma setup_download_dir_ok w self self' st st' :
  _setup_download_dir w self st = (Ok self', st') ->
  self' = with_download_dir self (run_dir_name (now w (trace st))) /\
  download_dir self' ∈ dirs (fs st').
Proof.
  unfold _setup_download_dir, bind, datetime_now, makedirs, os_call. simpl.
  destruct (os_fault w _ _); [discriminate |].
  unfold ret. intros [= <- <-]. split; [reflexivity |]. simpl.
  unfold made_dirs. set_solver.
Qed.

(** C4. Once the constructor has returned (the configuration is complete
    and the authentication succeeded), the session holds the bearer token
    of the authentication response and the two tenant headers, and every
    call [process_all_applications] issues (list, detail, download) is
    made with these headers. *)
Theorem requests_carry_credentials w st self st1 :
  __init__ w st = (Ok self, st1) ->
  exists tr resp body tok,
    http_post w tr (auth_url self)
      [("grant_type", "client_credentials"); ("client_id", client_id (config self));
       ("client_secret", client_secret (config self))] = Ok resp /\
    body_json resp = Ok (JObj body) /\ assoc_get "access_token" body = Some tok /\
    forall st2,
      continues
        (fun e => match e with
                  | EGet _ _ hs =>
                      carries_credentials (py_str w tok) (getenv_or w "ANYPOINT_ORG_ID" "")
                        (getenv_or w "ANYPOINT_ENV_ID" "") hs
                  | EPost _ _ => False
                  | _ => True
                  end)
        st2 (snd (process_all_applications w self st2)).
Proof.
  intros Hinit.
  destruct (init_ok _ _ _ _ Hinit) as [self0 [st0 [self1 [st2 [Hs [Hd [Horg Henv]]]]]]].
  destruct (setup_session_ok _ _ _ _ _ Hs) as [tr [resp [body [tok [Hp [Hb [Ht ->]]]]]]].
  destruct (setup_download_dir_ok _ _ _ _ _ Hd) as [-> _].
  exists tr, resp, body, tok. simpl. repeat split; auto.
  intros st3. apply process_all_applications_continues; try (intros; exact I).
  intros site url. simpl. rewrite <- Horg, <- Henv.
  unfold carries_credentials, headers_update. simpl. repeat split.
  - rewrite !header_get_set_other by reflexivity. apply header_get_set_same.
  - apply header_get_set_same.
  - rewrite header_get_set_other by reflexivity. apply header_get_set_same.
Qed.

(* ===================================================================== *)
(** ** The file system *)
(* ===================================================================== *)

Ltac grows_step :=
  match goal with
  | |- keeps fs_grows (bind _ _) => apply (keeps_bind _ fs_grows_trans); [| intros ?]
  | |- keeps fs_grows (try_except _ _ _) =>
      apply (keeps_try_except _ fs_grows_trans); [| intros ?]
  | |- keeps fs_grows (if _ then _ else _) => apply keeps_if
  | |- keeps fs_grows (ret _) => apply (keeps_ret _ fs_grows_refl)
  | |- keeps fs_grows (raise _) => apply (keeps_raise _ fs_grows_refl)
  | |- keeps fs_grows (lift _) => apply (keeps_lift _ fs_grows_refl)
  | |- keeps fs_grows (print _) => intros ?; split; reflexivity
  | |- keeps fs_grows (requests_post _ _ _) => intros ?; split; reflexivity
  | |- keeps fs_grows (datetime_now _) => intros ?; split; reflexivity
  | |- keeps fs_grows (makedirs _ _) =>
      apply fs_grows_os_call; intros ?; split; [apply union_grows | reflexivity]
  | |- keeps fs_grows (process_all_applications _ _) => apply process_all_applications_grows
  | |- keeps fs_grows (match ?x with _ => _ end) => destruct x
  end.

Lemma init_grows w : keeps fs_grows (__init__ w).
Proof.
  unfold __init__, _load_config, _setup_base_urls, _setup_session, _setup_download_dir,
    _log_endpoint, raise_for_status.
  repeat grows_step.
Qed.

Lemma main_grows w : keeps fs_grows (main w).
Proof.
  unfold main. repeat first [ apply init_grows | grows_step ].
Qed.

Lemma init_last_step w st :
  __init__ w st = (self <- configure_and_authenticate w ;; _setup_download_dir w self) st.
Proof.
  unfold __init__, configure_and_authenticate, bind.
  destruct (_load_config w new_object st) as [[s1 | e1] st1]; [| reflexivity].
  destruct (_setup_base_urls w s1 st1) as [[s2 | e2] st2]; reflexivity.
Qed.

Lemma configure_and_authenticate_same_fs w :
  keeps same_fs (configure_and_authenticate w).
Proof.
  unfold configure_and_authenticate, _load_config, _setup_base_urls, _setup_session,
    _log_endpoint, raise_for_status.
  keeps_walk same_fs_refl same_fs_trans ltac:(intros ?; reflexivity).
Qed.

(** A successful [_setup_session] ends on its authentication call. *)
Lemma setup_session_ends_on_post w self self' st st' :
  _setup_session w self st = (Ok self', st') ->
  exists url data older, trace st' = EPost url data :: older.
Proof.
  unfold _setup_session. unfold bind at 1.
  destruct (_log_endpoint self _ st) as [[[] | e0] st0]; [| discriminate].
  unfold try_except, bind at 1, requests_post.
  destruct (http_post w (trace st0) _ _) as [resp | e1].
  2: { simpl. destruct (is_RequestException e1); discriminate. }
  unfold bind at 1. unfold raise_for_status.
  destruct (_ && _); simpl.
  { discriminate. }
  unfold bind at 1, lift.
  destruct (body_json resp) as [body | e2].
  2: { destruct (is_RequestException e2); discriminate. }
  unfold bind. destruct (py_subscript _ _ body _) as [tok | e3]; simpl.
  - unfold ret. intros [= <- <-]. by eexists _, _, _.
  - destruct (is_RequestException e3); discriminate.
Qed.

(** C8 (amended). The run directory is created by the constructor, as its
    last step: when the configuration and the authentication have
    succeeded, nothing has changed on disk yet and the last effect is
    the authentication call; the constructor then asks for the
    directory, named after the clock, and returns with it created, so
    the directory exists before the pipeline starts, whatever the
    pipeline does later (only if the operating system refuses the
    creation does the constructor raise, without a directory).  Nothing
    removes the directory afterwards: the pipeline and the whole run only
    ever add directories and files. *)
Theorem run_directory_created_at_startup w st self0 st0 :
  configure_and_authenticate w st = (Ok self0, st0) ->
  let d := run_dir_name (now w (trace st0)) in
  fs st0 = fs st /\
  (exists url data older, trace st0 = EPost url data :: older) /\
  __init__ w st =
    match os_fault w (trace st0) (EMakedirs d) with
    | None =>
        (Ok (with_download_dir self0 d),
         {| trace := EMakedirs d :: trace st0;
            fs := {| dirs := made_dirs d ∪ dirs (fs st); files := files (fs st) |} |})
    | Some msg =>
        (Raise (mk_exn OSError msg), {| trace := EMakedirs d :: trace st0; fs := fs st |})
    end /\
  d ∈ made_dirs d ∪ dirs (fs st) /\
  (forall self st2, fs_grows st2 (snd (process_all_applications w self st2))) /\
  (forall st2, fs_grows st2 (snd (main w st2))).
Proof.
  intros Hpre d.
  assert (Hfs : fs st0 = fs st).
  { pose proof (configure_and_authenticate_same_fs w st) as H. by rewrite Hpre in H. }
  split; [exact Hfs |]. split; [| split; [| split; [| split]]].
  - revert Hpre. unfold configure_and_authenticate. unfold bind at 1.
    destruct (_load_config w new_object st) as [[s1 | e1] st1]; [| discriminate].
    unfold bind at 1.
    destruct (_setup_base_urls w s1 st1) as [[s2 | e2] st2]; [| discriminate].
    apply setup_session_ends_on_post.
  - rewrite init_last_step. unfold bind at 1. rewrite Hpre.
    unfold _setup_download_dir, bind, datetime_now, makedirs, os_call.
    cbn [download_dir with_download_dir fst snd trace fs].
    change ("downloads_" +:+ u (strftime (now w (trace st0)))) with d.
    destruct (os_fault w (trace st0) (EMakedirs d)); rewrite Hfs; reflexivity.
  - unfold made_dirs. set_solver.
  - intros self. apply process_all_applications_grows.
  - apply main_grows.
Qed.

(** C8, as stated, fails: with a server whose list call breaks, nothing
    is ever stored, yet the run directory exists as soon as the
    constructor has returned. *)
Lemma run_directory_not_lazy :
  (exists self, fst (__init__ offline_world (initial empty_fs)) = Ok self /\
                download_dir self = "downloads_20240115_120000") /\
  "downloads_20240115_120000" ∈ dirs (fs (snd (__init__ offline_world (initial empty_fs)))) /\
  files (fs (run offline_world empty_fs)) = ∅ /\
  "downloads_20240115_120000" ∈ dirs (fs (run offline_world empty_fs)).
Proof.
  split; [eexists; split; vm_compute; reflexivity |].
  split; [apply (bool_decide_unpack _); vm_compute; exact I |].
  split; [vm_compute; reflexivity |].
  apply (bool_decide_unpack _); vm_compute; exact I.
Qed.

(* ===================================================================== *)
(** ** The detail record without a filename *)
(* ===================================================================== *)

Lemma get_application_info_no_download w self name :
  keeps (continues no_download) (get_application_info w self name).
Proof.
  apply keeps_get_application_info.
  - apply continues_refl.
  - apply continues_trans.
  - intros line. by apply continues_emit.
  - intros url. by apply continues_session_get.
Qed.

Lemma get_application_info_fs w self name :
  keeps (fun st st' => fs st' = fs st) (get_application_info w self name).
Proof.
  apply keeps_get_application_info; try done.
  intros a b c H1 H2. by rewrite H2.
Qed.

(** C5. When the detail response of an application has no usable
    filename, its iteration issues no download call and no file-system
    call and leaves the file system as it was; it logs the skip (for a
    record without the value: the line "Filename not found for <name>,
    skipping" and the record received; for a response that is no record
    at all: the error line of the iteration) and nothing else; it ends
    normally, and the loop goes on with the next item. *)
Theorem missing_filename_skips_download w self total index l name info rest st st_i :
  assoc_get "domain" l = Some name -> truthy name = true ->
  get_application_info w self name
    (snd (print (nl +:+ "Processing application " +:+ str_of_nat index +:+ " of " +:+
                 str_of_nat total +:+ ": " +:+ py_str w name) st)) = (Ok info, st_i) ->
  has_filename info = false ->
  exists st',
    iteration w self total index (JObj l) st = (Ok tt, st') /\
    trace st' =
      match info with
      | JObj _ =>
          [EPrint ("Received JSON: " +:+ dumps w info);
           EPrint ("Filename not found for " +:+ py_str w name +:+ ", skipping")]
      | _ =>
          [EPrint ("Error processing " +:+ py_str w name +:+ ": " +:+
                   interp_text w AttributeError info)]
      end ++ trace st_i /\
    continues no_download st st' /\
    fs st' = fs st /\
    for_enumerate (iteration w self total) index (JObj l :: rest) st =
    for_enumerate (iteration w self total) (S index) rest st'.
Proof.
  intros Hd Ht Hget Hnf.
  set (st_p := snd (print (nl +:+ "Processing application " +:+ str_of_nat index +:+
                           " of " +:+ str_of_nat total +:+ ": " +:+ py_str w name) st)) in *.
  assert (Hc : continues no_download st st_i).
  { apply continues_trans with st_p.
    - by apply (continues_emit no_download).
    - pose proof (get_application_info_no_download w self name st_p) as H.
      by rewrite Hget in H. }
  assert (Hf : fs st_i = fs st).
  { pose proof (get_application_info_fs w self name st_p) as H. by rewrite Hget in H. }
  assert (Hit : exists st', iteration w self total index (JObj l) st = (Ok tt, st') /\
            trace st' =
              match info with
              | JObj _ =>
                  [EPrint ("Received JSON: " +:+ dumps w info);
                   EPrint ("Filename not found for " +:+ py_str w name +:+ ", skipping")]
              | _ =>
                  [EPrint ("Error processing " +:+ py_str w name +:+ ": " +:+
                           interp_text w AttributeError info)]
              end ++ trace st_i /\
            continues no_download st_i st' /\ fs st' = fs st_i).
  { unfold iteration, bind at 1, lift, py_get. rewrite Hd, Ht. cbn [negb].
    unfold bind at 1. change (print _ st) with (Ok tt, st_p).
    unfold try_except, process_one, bind at 1. rewrite Hget.
    unfold handle_info, bind at 1, lift, py_get.
    destruct info as [| b | z | f | s | l' | l'];
      try (eexists; split; [reflexivity |]; split; [reflexivity |]; split; [| reflexivity];
           apply (continues_emit no_download); reflexivity).
    unfold has_filename in Hnf. rewrite Hnf. cbn [negb].
    eexists; split; [reflexivity |]. split; [reflexivity |]. split; [| reflexivity].
    eexists [_; _]. split; [reflexivity |]. repeat constructor. }
  destruct Hit as [st' [Hi [Htr [Hc' Hf']]]]. exists st'. repeat split; auto.
  - by apply continues_trans with st_i.
  - congruence.
  - simpl. unfold bind. by rewrite Hi.
Qed.

(* ===================================================================== *)
(** ** The interrupted download *)
(* ===================================================================== *)

(** Writing the chunks one after the other appends their bytes to the file. *)
Lemma write_all w path chunks :
  (forall tr d, os_fault w tr (EWrite path d) = None) ->
  forall st old, files (fs st) !! path = Some old ->
  exists st',
    for_each (file_write w path) chunks st = (Ok tt, st') /\
    files (fs st') !! path = Some (old +:+ join_chunks chunks) /\
    dirs (fs st') = dirs (fs st).
Proof.
  intros Hw. induction chunks as [| c cs IH]; intros st old Hold.
  - exists st. simpl. by rewrite str_app_nil_r.
  - cbn [for_each]. unfold bind, file_write, os_call. rewrite Hw, Hold.
    match goal with |- context [for_each _ cs ?s] =>
      destruct (IH s (old +:+ c)) as [st' [H1 [H2 H3]]] end.
    { simpl. apply lookup_insert_eq. }
    exists st'. split; [exact H1 |]. split; [| exact H3].
    rewrite H2. cbn [join_chunks fold_right]. by rewrite str_app_assoc.
Qed.

(** C9. A download is not atomic: when the transfer breaks after one
    chunk or more has been written, [download_application] prints the
    error and returns None, and both the directory of the application
    and the file holding the chunks received so far are left behind. *)
Theorem download_not_atomic w self a fn st resp c cs e :
  let url := app_url w self (JStr a) +:+ "/download/" +:+ fn in
  let app_dir := path_join (download_dir self) a in
  let out := path_join app_dir fn in
  let st0 := snd (_log_endpoint self
                    (nl +:+ "Calling application download endpoint: " +:+ url) st) in
  os_fault w (trace st0) (EMakedirs app_dir) = None ->
  http_get w (EMakedirs app_dir :: trace st0) DownloadCall url (session_headers self) = Ok resp ->
  (400 <=? status_code resp) && (status_code resp <? 600) = false ->
  body_chunks resp = c :: cs -> body_error resp = Some e -> is_RequestException e = true ->
  (forall tr, os_fault w tr (EOpen out) = None) ->
  (forall tr d, os_fault w tr (EWrite out d) = None) ->
  exists st',
    download_application w self (JStr a) (JStr fn) st = (Ok None, st') /\
    files (fs st') !! out = Some (join_chunks (c :: cs)) /\
    app_dir ∈ dirs (fs st') /\
    exists earlier,
      trace st' = EPrint ("Error downloading application " +:+ a +:+ ": " +:+ exn_str e)
                  :: earlier.
Proof.
  intros url app_dir out st0 Hmk Hget Hstatus Hchunks Herr Hcls Hopen Hwrite.
  unfold download_application. cbn [py_str]. fold url. unfold bind at 1.
  assert (Hlog : _log_endpoint self
                   (nl +:+ "Calling application download endpoint: " +:+ url) st = (Ok tt, st0)).
  { unfold st0, _log_endpoint. destruct (enable_endpoint_logging self); reflexivity. }
  rewrite Hlog.
  unfold bind at 1, lift, py_path_join. fold app_dir.
  unfold bind at 1, makedirs, os_call. rewrite Hmk.
  unfold bind at 1. fold out.
  unfold try_except, bind at 1, session_get. cbn [trace fs]. rewrite Hget.
  unfold bind at 1, raise_for_status. rewrite Hstatus. unfold ret at 1.
  unfold bind at 1, open_write, os_call. rewrite Hopen.
  unfold bind at 1, write_chunks, bind at 1. rewrite Hchunks.
  match goal with |- context [for_each _ (c :: cs) ?s] =>
    destruct (write_all w out (c :: cs) Hwrite s "") as [st1 [H1 [H2 H3]]] end.
  { simpl. apply lookup_insert_eq. }
  rewrite H1, Herr. unfold raise. rewrite Hcls.
  unfold bind, print, emit. eexists. split; [reflexivity |].
  cbn [fs trace]. split; [exact H2 |]. split.
  - rewrite H3. simpl. unfold made_dirs. clear. set_solver.
  - eexists. reflexivity.
Qed.

(* ===================================================================== *)
(** ** The name of the run directory *)
(* ===================================================================== *)

Lemma digit_char_inj a b : digit_char a = digit_char b -> (a mod 10 = b mod 10)%N.
Proof.
  unfold digit_char. intros H.
  apply (f_equal N_of_ascii) in H.
  rewrite !N_ascii_embedding in H.
  - lia.
  - pose proof (N.mod_upper_bound b 10). lia.
  - pose proof (N.mod_upper_bound a 10). lia.
Qed.

Lemma pad2_inj a b : (a < 100)%N -> (b < 100)%N -> pad2 a = pad2 b -> a = b.
Proof.
  intros Ha Hb H. unfold pad2 in H. injection H as H1 H2.
  apply digit_char_inj in H1, H2.
  assert (Ha' : (a / 10 < 10)%N) by (apply N.Div0.div_lt_upper_bound; lia).
  assert (Hb' : (b / 10 < 10)%N) by (apply N.Div0.div_lt_upper_bound; lia).
  rewrite (N.mod_small (a / 10) 10), (N.mod_small (b / 10) 10) in H1 by assumption.
  pose proof (N.div_mod a 10 ltac:(lia)). pose proof (N.div_mod b 10 ltac:(lia)). lia.
Qed.

Lemma pad4_inj a b : (a < 10000)%N -> (b < 10000)%N -> pad4 a = pad4 b -> a = b.
Proof.
  intros Ha Hb H. unfold pad4, pad2 in H. injection H as H1 H2 H3 H4.
  apply digit_char_inj in H1, H2, H3, H4.
  assert (Ha' : (a / 1000 < 10)%N) by (apply N.Div0.div_lt_upper_bound; lia).
  assert (Hb' : (b / 1000 < 10)%N) by (apply N.Div0.div_lt_upper_bound; lia).
  rewrite (N.mod_small (a / 1000) 10), (N.mod_small (b / 1000) 10) in H1 by assumption.
  assert (E1 : forall n, (n / 100 = 10 * (n / 1000) + (n / 100) mod 10)%N).
  { intros n. replace (n / 1000)%N with (n / 100 / 10)%N
      by (rewrite N.Div0.div_div; reflexivity).
    apply (N.div_mod (n / 100) 10). lia. }
  assert (E2 : forall n, (n / 10 = 10 * (n / 100) + (n / 10) mod 10)%N).
  { intros n. replace (n / 100)%N with (n / 10 / 10)%N
      by (rewrite N.Div0.div_div; reflexivity).
    apply (N.div_mod (n / 10) 10). lia. }
  pose proof (N.div_mod a 10 ltac:(lia)). pose proof (N.div_mod b 10 ltac:(lia)).
  pose proof (E1 a). pose proof (E1 b). pose proof (E2 a). pose proof (E2 b). lia.
Qed.

Lemma strftime_inj d1 d2 :
  valid_datetime d1 -> valid_datetime d2 -> strftime d1 = strftime d2 -> same_second d1 d2.
Proof.
  unfold valid_datetime, same_second, strftime. intros V1 V2 H.
  assert (Hsplit : forall a b c d e f a' b' c' d' e' f',
    (pad4 a +:+ pad2 b +:+ pad2 c +:+ "_" +:+ pad2 d +:+ pad2 e +:+ pad2 f)%stdpp =
    (pad4 a' +:+ pad2 b' +:+ pad2 c' +:+ "_" +:+ pad2 d' +:+ pad2 e' +:+ pad2 f')%stdpp ->
    pad4 a = pad4 a' /\ pad2 b = pad2 b' /\ pad2 c = pad2 c' /\ pad2 d = pad2 d' /\
    pad2 e = pad2 e' /\ pad2 f = pad2 f').
  { intros. unfold pad4, pad2 in *. cbv [String.append] in H0. injection H0 as ?.
    repeat split; congruence. }
  apply Hsplit in H. destruct H as [Hy [Hm [Hd [Hh [Hmi Hs]]]]].
  split; [apply pad4_inj; [lia | lia | exact Hy] |].
  repeat split; apply pad2_inj; first [assumption | lia].
Qed.

Lemma files_kept_refl P st : files_kept P st st.
Proof. by intros p _. Qed.

Lemma files_kept_trans P a b c : files_kept P a b -> files_kept P b c -> files_kept P a c.
Proof. intros H1 H2 p Hp. by rewrite (H2 p Hp), (H1 p Hp). Qed.

Lemma keeps_bind_post {A B} (R : state -> state -> Prop) (Q : A -> Prop)
    (m : M A) (k : A -> M B) :
  (forall a b c, R a b -> R b c -> R a c) ->
  (forall st a st', m st = (Ok a, st') -> Q a) ->
  keeps R m -> (forall a, Q a -> keeps R (k a)) -> keeps R (bind m k).
Proof.
  intros R_trans Hq Hm Hk st. unfold bind. specialize (Hm st). specialize (Hq st).
  destruct (m st) as [[a | e] st1]; simpl in *; [| exact Hm].
  eapply R_trans; [exact Hm |]. apply Hk. by eapply Hq.
Qed.

Lemma is_component_relative s : is_component s = true -> starts_with_slash s = false.
Proof.
  unfold is_component. intros H. do 3 (apply andb_true_iff in H; destruct H as [H _]).
  apply negb_true_iff in H. destruct s as [| c s]; [reflexivity |].
  cbn [has_slash starts_with_slash] in *.
  apply orb_false_iff in H. by destruct H.
Qed.

Section Frame.

Variable w : World.
Variable self : MulesoftDownloader.

(** The run directory is a directory name: joining a relative name to it
    puts the name under it. *)
Hypothesis dir_joins :
  forall x, starts_with_slash x = false ->
  path_join (download_dir self) x = download_dir self +:+ "/" +:+ x.

Hypothesis components : names_are_components w.

Let R : state -> state -> Prop := files_kept (under (download_dir self)).

Lemma frame_refl st : R st st.
Proof. apply files_kept_refl. Qed.

Lemma frame_trans a b c : R a b -> R b c -> R a c.
Proof. apply files_kept_trans. Qed.

Lemma under_join2 a x :
  starts_with_slash a = false -> starts_with_slash x = false ->
  under (download_dir self) (path_join (path_join (download_dir self) a) x).
Proof using dir_joins.
  intros Ha Hx. rewrite (dir_joins a Ha). unfold path_join. rewrite Hx.
  destruct (_ || _); eexists; rewrite !str_app_assoc; reflexivity.
Qed.

Lemma frame_print line : keeps R (print line).
Proof. intros st p _. reflexivity. Qed.

Lemma frame_log message : keeps R (_log_endpoint self message).
Proof. unfold _log_endpoint. destruct (enable_endpoint_logging self); by intros st p _. Qed.

Lemma frame_get site url hs : keeps R (session_get w site url hs).
Proof. intros st p _. reflexivity. Qed.

Lemma frame_makedirs path : keeps R (makedirs w path).
Proof.
  intros st p _. unfold makedirs, os_call. by destruct (os_fault w (trace st) _).
Qed.

Lemma frame_open path : under (download_dir self) path -> keeps R (open_write w path).
Proof.
  intros Hu st p Hp. unfold open_write, os_call.
  destruct (os_fault w (trace st) _); [reflexivity |]. cbn [snd fs files].
  apply lookup_insert_ne. by intros ->.
Qed.

Lemma frame_write path data : under (download_dir self) path -> keeps R (file_write w path data).
Proof.
  intros Hu st p Hp. unfold file_write, os_call.
  destruct (os_fault w (trace st) _); [reflexivity |]. cbn [snd fs files].
  apply lookup_insert_ne. by intros ->.
Qed.

Ltac frame_walk extra :=
  keeps_walk frame_refl frame_trans
    ltac:(first [ apply frame_print | apply frame_log | apply frame_get
                | apply frame_makedirs | extra ]).

(** A download writes under the run directory only. *)
Lemma frame_download_application a fn :
  (forall s, a = JStr s -> is_component s = true) ->
  (forall s, fn = JStr s -> is_component s = true) ->
  keeps R (download_application w self a fn).
Proof using dir_joins.
  intros Ha Hfn. unfold download_application.
  apply (keeps_bind _ frame_trans); [apply frame_log | intros _].
  destruct a as [| | | | sa | |];
    try (unfold py_path_join, lift; intros st p _; reflexivity).
  specialize (Ha sa eq_refl). apply is_component_relative in Ha.
  unfold py_path_join at 1.
  change (bind (lift (Ok ?x)) ?k) with (k x). cbv beta.
  apply (keeps_bind _ frame_trans); [apply frame_makedirs | intros _].
  destruct fn as [| | | | sfn | |];
    try (unfold py_path_join, lift; intros st p _; reflexivity).
  specialize (Hfn sfn eq_refl). apply is_component_relative in Hfn.
  unfold py_path_join.
  change (bind (lift (Ok ?x)) ?k) with (k x). cbv beta.
  pose proof (under_join2 sa sfn Ha Hfn) as Hu.
  unfold write_chunks, raise_for_status.
  frame_walk ltac:(first [ by apply frame_open
                         | apply (keeps_for_each _ frame_refl frame_trans);
                           intros ?; by apply frame_write ]).
Qed.

(** The names of a record are components when the record comes from the
    server. *)
Lemma record_name_component v key l s :
  Forall (fun s => is_component s = true) (record_names v) ->
  v = JObj l -> (key = "domain" \/ key = "filename") ->
  assoc_get key l = Some (JStr s) -> is_component s = true.
Proof.
  intros Hn -> Hkey Hs. cbn [record_names] in Hn. apply Forall_app in Hn.
  destruct Hn as [Hd Hf]. destruct Hkey as [-> | ->]; rewrite Hs in *.
  - by apply Forall_inv in Hd.
  - by apply Forall_inv in Hf.
Qed.

Lemma frame_handle_info name info :
  (forall s, name = JStr s -> is_component s = true) ->
  Forall (fun s => is_component s = true) (record_names info) ->
  keeps R (handle_info w self name info).
Proof using dir_joins.
  intros Hname Hinfo. unfold handle_info.
  destruct info as [| | | | | | l];
    try (unfold py_get, lift; intros st p _; reflexivity).
  unfold py_get. change (bind (lift (Ok ?x)) ?k) with (k x). cbv beta.
  destruct (negb (truthy _)).
  - frame_walk fail.
  - apply (keeps_bind _ frame_trans); [apply frame_print | intros _].
    apply (keeps_bind _ frame_trans).
    + apply frame_download_application; [exact Hname |].
      intros s Hs. destruct (assoc_get "filename" l) as [x |] eqn:E; [| discriminate].
      subst x. apply (record_name_component (JObj l) "filename" l s Hinfo eq_refl);
        [by right | exact E].
    + intros out. frame_walk fail.
Qed.

Lemma get_application_info_names name st info st' :
  get_application_info w self name st = (Ok info, st') ->
  Forall (fun s => is_component s = true) (record_names info).
Proof using components.
  unfold get_application_info. unfold bind at 1.
  destruct (_log_endpoint self _ st) as [[[] | e0] st0]; [| discriminate].
  unfold try_except, bind at 1, session_get.
  destruct (http_get w (trace st0) InfoCall _ _) as [resp | e1] eqn:Hget.
  2: { destruct (is_RequestException e1); discriminate. }
  unfold bind, raise_for_status. destruct (_ && _).
  { unfold raise. cbn [is_RequestException exn_cls]. discriminate. }
  unfold ret, lift. destruct (body_json resp) as [v | e2] eqn:Hbody.
  2: { destruct (is_RequestException e2); discriminate. }
  intros [= <- <-]. pose proof (components _ _ _ _ _ _ Hget Hbody) as H.
  destruct v; try exact H. constructor.
Qed.

Lemma frame_get_application_info name : keeps R (get_application_info w self name).
Proof.
  unfold get_application_info, raise_for_status. frame_walk fail.
Qed.

Lemma frame_iteration total index app :
  Forall (fun s => is_component s = true) (record_names app) ->
  keeps R (iteration w self total index app).
Proof using dir_joins components.
  intros Happ. unfold iteration.
  destruct app as [| | | | | | l];
    try (unfold py_get, lift; intros st p _; reflexivity).
  unfold py_get. change (bind (lift (Ok ?x)) ?k) with (k x). cbv beta.
  destruct (negb (truthy _)); [apply (keeps_ret _ frame_refl) |].
  apply (keeps_bind _ frame_trans); [apply frame_print | intros _].
  apply (keeps_try_except _ frame_trans); [| intros e; apply frame_print].
  unfold process_one.
  apply (keeps_bind_post R (fun info => Forall (fun s => is_component s = true)
                                         (record_names info))).
  - apply frame_trans.
  - intros st info st'. apply get_application_info_names.
  - apply frame_get_application_info.
  - intros info Hinfo. apply frame_handle_info; [| exact Hinfo].
    intros s Hs. destruct (assoc_get "domain" l) as [x |] eqn:E; [| discriminate].
    subst x. apply (record_name_component (JObj l) "domain" l s Happ eq_refl);
      [by left | exact E].
Qed.

Lemma frame_loop total l : forall index,
  Forall (fun app => Forall (fun s => is_component s = true) (record_names app)) l ->
  keeps R (for_enumerate (iteration w self total) index l).
Proof using dir_joins components.
  induction l as [| a l IH]; intros index Hl.
  - apply (keeps_ret _ frame_refl).
  - apply Forall_cons_iff in Hl. destruct Hl as [Ha Hl]. cbn [for_enumerate].
    apply (keeps_bind _ frame_trans); [by apply frame_iteration | intros _; by apply IH].
Qed.

Lemma get_applications_names st v st' :
  get_applications w self st = (Ok v, st') ->
  Forall (fun s => is_component s = true) (response_names v).
Proof using components.
  unfold get_applications. unfold bind at 1.
  destruct (_log_endpoint self _ st) as [[[] | e0] st0]; [| discriminate].
  unfold bind at 1.
  match goal with |- context [(if ?b then ?x else ?y) st0] =>
    destruct ((if b then x else y) st0) as [[[] | e] st1] end; [| discriminate].
  unfold try_except, bind at 1, session_get.
  destruct (http_get w (trace st1) ListCall _ _) as [resp | e1] eqn:Hget.
  2: { destruct (is_RequestException e1); discriminate. }
  unfold bind, raise_for_status. destruct (_ && _).
  { unfold raise. cbn [is_RequestException exn_cls]. discriminate. }
  unfold ret, lift. destruct (body_json resp) as [v' | e2] eqn:Hbody.
  2: { destruct (is_RequestException e2); discriminate. }
  intros [= <- <-]. exact (components _ _ _ _ _ _ Hget Hbody).
Qed.

Lemma frame_get_applications : keeps R (get_applications w self).
Proof.
  unfold get_applications, raise_for_status. frame_walk fail.
Qed.

Lemma items_names v items :
  Forall (fun s => is_component s = true) (response_names v) ->
  py_items (interp_text w) v = Ok items ->
  Forall (fun app => Forall (fun s => is_component s = true) (record_names app)) items.
Proof.
  intros Hv. destruct v as [| | | | s | l | l]; try discriminate; intros [= <-].
  - clear Hv. induction s as [| c s IH]; constructor; [constructor | exact IH].
  - cbn [response_names] in Hv. induction l as [| a l IH]; [constructor |].
    cbn [map concat] in Hv. apply Forall_app in Hv. destruct Hv as [Ha Hl].
    constructor; auto.
  - clear Hv. induction l as [| kv l IH]; constructor; [constructor | exact IH].
Qed.

(** The whole pipeline writes under the run directory only. *)
Lemma frame_process_all_applications : keeps R (process_all_applications w self).
Proof using dir_joins components.
  unfold process_all_applications.
  apply (keeps_bind _ frame_trans); [apply frame_print | intros _].
  apply (keeps_try_except _ frame_trans); [| intros e; apply frame_print].
  apply (keeps_bind_post R (fun v => Forall (fun s => is_component s = true)
                                      (response_names v))).
  - apply frame_trans.
  - intros st v st'. apply get_applications_names.
  - apply frame_get_applications.
  - intros v Hv. destruct (py_items (interp_text w) v) as [items | e] eqn:Hitems.
    2: { intros st p _. reflexivity. }
    change (bind (lift (Ok ?x)) ?k) with (k x). cbv beta.
    apply (keeps_bind _ frame_trans); [apply frame_print | intros _].
    apply (keeps_bind _ frame_trans).
    + unfold save_snapshot.
      apply (keeps_bind _ frame_trans); [intros ?; apply frame_refl | intros dt].
      cbv zeta.
      assert (Hu : under (download_dir self)
                     (path_join (download_dir self)
                        ("applications_list_" +:+ strftime dt +:+ ".json"))).
      { rewrite dir_joins by reflexivity. by eexists. }
      frame_walk ltac:(first [ by apply frame_open | by apply frame_write ]).
    + intros _. apply frame_loop. by apply (items_names v).
Qed.

End Frame.

Lemma str_length_u (s : string) : str_length (u s) = String.length s.
Proof. induction s as [| c s IH]; simpl; congruence. Qed.

Lemma run_dir_name_length d : str_length (run_dir_name d) = 25.
Proof. reflexivity. Qed.

Lemma str_app_same_length a : forall b x y,
  str_length a = str_length b -> a +:+ x = b +:+ y -> a = b.
Proof.
  induction a as [| c a IH]; intros [| c' b] x y Hl H; try discriminate; [reflexivity |].
  cbv [str_app] in H. fold str_app in H. injection H as -> H.
  f_equal. injection Hl as Hl. by apply (IH b x y).
Qed.

Lemma under_unique d1 d2 p :
  str_length d1 = str_length d2 -> under d1 p -> under d2 p -> d1 = d2.
Proof. intros Hl [r1 ->] [r2 H]. exact (str_app_same_length d1 d2 _ _ Hl H). Qed.

Lemma code_digit_char n : code (digit_char n) = (48 + n mod 10)%N.
Proof.
  unfold code, digit_char. apply N_ascii_embedding.
  zify; Z.to_euclidean_division_equations; lia.
Qed.

Lemma ends_with_slash_last a c :
  ends_with_slash (a +:+ SCons c "") = N.eqb c (code "/").
Proof.
  induction a as [| c' a IH]; [reflexivity |].
  cbv [str_app]. fold str_app. cbn [ends_with_slash].
  destruct (a +:+ SCons c "") eqn:E; [by destruct a | exact IH].
Qed.

(** A run directory name is a directory name. *)
Lemma run_dir_joins d x :
  starts_with_slash x = false ->
  path_join (run_dir_name d) x = run_dir_name d +:+ "/" +:+ x.
Proof.
  intros Hx. unfold path_join. rewrite Hx.
  assert (E : exists a, run_dir_name d = a +:+ SCons (code (digit_char (second d))) "").
  { exists ("downloads_" +:+ u (pad4 (year d) +:+ pad2 (month d) +:+ pad2 (day d) +:+ "_" +:+
                              pad2 (hour d) +:+ pad2 (minute d) +:+
                              String (digit_char (second d / 10)) "")%stdpp).
    reflexivity. }
  destruct E as [a E]. rewrite E at 1 2. rewrite ends_with_slash_last, code_digit_char.
  replace (str_eqb (a +:+ _) "") with false by (by destruct a).
  replace (N.eqb _ _) with false; [reflexivity |].
  symmetry. apply N.eqb_neq. change (code "/") with 47%N.
  zify; Z.to_euclidean_division_equations; lia.
Qed.

Lemma setup_download_dir_name w self st self' st' :
  _setup_download_dir w self st = (Ok self', st') ->
  download_dir self' = run_dir_name (now w (trace st)).
Proof.
  unfold _setup_download_dir, bind, datetime_now, makedirs, os_call.
  destruct (os_fault w _ _); [discriminate |]. by intros [= <- <-].
Qed.

(** A run whose directory is named after another second leaves the files
    of the run directory of [d1] alone. *)
Lemma other_run_keeps_files w self d1 d2 :
  download_dir self = run_dir_name d2 -> run_dir_name d1 <> run_dir_name d2 ->
  names_are_components w ->
  forall st p, under (run_dir_name d1) p ->
  files (fs (snd (process_all_applications w self st))) !! p = files (fs st) !! p.
Proof.
  intros Hd Hne Hc st p Hp.
  apply (frame_process_all_applications w self); [| exact Hc |].
  - rewrite Hd. apply run_dir_joins.
  - rewrite Hd. intros Hp2. apply Hne.
    by apply (under_unique _ _ p (eq_refl : str_length (run_dir_name d1) = str_length (run_dir_name d2))).
Qed.

(** C7 (amended). Two invocations whose clocks show valid dates of four
    digit years get the same run directory name exactly when the two
    readings, taken when the directory is created, agree down to the
    second.  When the readings differ in the year, month, day, hour, minute
    or second, and the server names applications and files by single path
    components, the pipeline of either run changes no file under the run
    directory of the other, whatever the two application sets. *)
Theorem run_directories_differ_by_second w1 w2 self1 self2 st1 st2 self1' self2' st1' st2' :
  _setup_download_dir w1 self1 st1 = (Ok self1', st1') ->
  _setup_download_dir w2 self2 st2 = (Ok self2', st2') ->
  valid_datetime (now w1 (trace st1)) -> valid_datetime (now w2 (trace st2)) ->
  (download_dir self1' = download_dir self2' <->
   same_second (now w1 (trace st1)) (now w2 (trace st2))) /\
  (~ same_second (now w1 (trace st1)) (now w2 (trace st2)) ->
   (names_are_components w2 ->
    forall st p, under (download_dir self1') p ->
    files (fs (snd (process_all_applications w2 self2' st))) !! p = files (fs st) !! p) /\
   (names_are_components w1 ->
    forall st p, under (download_dir self2') p ->
    files (fs (snd (process_all_applications w1 self1' st))) !! p = files (fs st) !! p)).
Proof.
  intros H1 H2 V1 V2.
  apply setup_download_dir_name in H1, H2. rewrite H1, H2.
  assert (Hiff : run_dir_name (now w1 (trace st1)) = run_dir_name (now w2 (trace st2)) <->
                 same_second (now w1 (trace st1)) (now w2 (trace st2))).
  { unfold run_dir_name. split.
    - intros H. apply strftime_inj; auto.
      by apply str_app_inv_head, u_inj in H.
    - intros [Hy [Hm [Hd [Hh [Hmi Hs]]]]]. unfold strftime. congruence. }
  split; [exact Hiff |]. intros Hne. split; intros Hc.
  - apply (other_run_keeps_files w2 self2' _ _ H2); [| exact Hc].
    intros E. by apply Hne, Hiff.
  - apply (other_run_keeps_files w1 self1' _ _ H1); [| exact Hc].
    intros E. by apply Hne, Hiff.
Qed.

(** C7, as stated, fails twice.  Two runs started half a second apart write
    to the same directory, and the later one replaces the artifact the
    earlier one stored.  And two runs started five seconds apart, with
    different run directories, both store the artifact at the absolute path
    the server names, the later run replacing the file of the earlier. *)
Lemma distinct_times_share_run_directory :
  (noon <> noon_and_a_half /\
   run_dir_name noon = run_dir_name noon_and_a_half /\
   files (fs (run sample_world empty_fs)) !! "downloads_20240115_120000/gamma/gamma.jar"
     = Some "PKdata" /\
   files (fs (run later_world (fs (run sample_world empty_fs))))
     !! "downloads_20240115_120000/gamma/gamma.jar" = Some "PKnew") /\
  (run_dir_name noon = "downloads_20240115_120000" /\
   run_dir_name five_past = "downloads_20240115_120005" /\
   files (fs (run (absolute_world noon ["PK"; "data"]) empty_fs)) !! "/srv/mule/gamma.jar"
     = Some "PKdata" /\
   files (fs (run (absolute_world five_past ["PK"; "new"])
                  (fs (run (absolute_world noon ["PK"; "data"]) empty_fs))))
     !! "/srv/mule/gamma.jar" = Some "PKnew").
Proof.
  split.
  - split; [discriminate |]. split; [reflexivity |].
    split; vm_compute; reflexivity.
  - split; [reflexivity |]. split; [reflexivity |].
    split; vm_compute; reflexivity.
Qed.

(* ===================================================================== *)
(** ** The snapshot: [json.loads] reads back what [json.dumps] writes *)
(* ===================================================================== *)

Lemma str_app_cons c (s t : str) : SCons c s +:+ t = SCons c (s +:+ t).
Proof. reflexivity. Qed.

Lemma str_app_nil_l (t : str) : "" +:+ t = t.
Proof. reflexivity. Qed.

Lemma str_length_app (a b : str) : str_length (a +:+ b) = str_length a + str_length b.
Proof.
  induction a as [| c a IH]; [reflexivity |].
  rewrite str_app_cons. cbn [str_length]. by rewrite IH.
Qed.

Lemma narrow_u (s : string) : narrow (u s) = s.
Proof.
  induction s as [| c s IH]; [reflexivity |]. cbn [u narrow].
  by rewrite ascii_N_embedding, IH.
Qed.

(** *** Characters *)

(** Comparisons of code points, decided by arithmetic. *)
Ltac code_cases :=
  repeat match goal with
  | |- context [N.eqb ?a ?b] => destruct (N.eqb_spec a b)
  | |- context [N.leb ?a ?b] => destruct (N.leb_spec a b)
  | |- context [N.ltb ?a ?b] => destruct (N.ltb_spec a b)
  | H : context [N.eqb ?a ?b] |- _ => destruct (N.eqb_spec a b)
  | H : context [N.leb ?a ?b] |- _ => destruct (N.leb_spec a b)
  | H : context [N.ltb ?a ?b] |- _ => destruct (N.ltb_spec a b)
  end; cbn [andb orb negb] in *; try discriminate;
  try first [lia | zify; Z.to_euclidean_division_equations; lia].

(** The code points of the characters written in a statement. *)
Ltac codes_out :=
  repeat match goal with
  | |- context [code ?c] =>
      let v := eval vm_compute in (code c) in change (code c) with v
  | H : context [code ?c] |- _ =>
      let v := eval vm_compute in (code c) in change (code c) with v in H
  end.

Lemma hex_value_digit d : (d < 16)%N -> hex_value (hex_digit d) = Some d.
Proof.
  intros Hd. unfold hex_value, hex_digit.
  destruct (N.ltb_spec d 10); code_cases; f_equal; lia.
Qed.

Lemma hex4_digits n :
  (n < 65536)%N ->
  hex4 (hex_digit ((n / 4096) mod 16)) (hex_digit ((n / 256) mod 16))
       (hex_digit ((n / 16) mod 16)) (hex_digit (n mod 16)) = Some n.
Proof.
  intros Hn. unfold hex4.
  rewrite !hex_value_digit by (apply N.mod_upper_bound; lia).
  f_equal. zify. Z.to_euclidean_division_equations. lia.
Qed.

Lemma lor_shift a b : (b < 1024)%N -> N.lor (a * 1024) b = (a * 1024 + b)%N.
Proof.
  intros Hb.
  assert (Hland : N.land (a * 1024) b = 0%N).
  { apply N.bits_inj. intros i. rewrite N.land_spec, N.bits_0.
    destruct (N.lt_ge_cases i 10) as [Hi | Hi].
    - change 1024%N with (2 ^ 10)%N. by rewrite N.mul_pow2_bits_low.
    - rewrite <- (N.mod_small b (2 ^ 10)) by exact Hb.
      rewrite N.mod_pow2_bits_high by exact Hi. apply andb_false_r. }
  symmetry. rewrite <- N.lxor_lor by exact Hland. by apply N.add_nocarry_lxor.
Qed.

(** The high and the low surrogate of a code point above U+FFFF. *)
Lemma high_half n : N.lor 0xd800 (N.land (N.shiftr n 10) 0x3ff) = (0xd800 + (n / 1024) mod 1024)%N.
Proof.
  change 0x3ff%N with (N.ones 10). rewrite N.land_ones, N.shiftr_div_pow2.
  change (2 ^ 10)%N with 1024%N. change 0xd800%N with (54 * 1024)%N.
  apply lor_shift. apply N.mod_upper_bound. lia.
Qed.

Lemma low_half n : N.lor 0xdc00 (N.land n 0x3ff) = (0xdc00 + n mod 1024)%N.
Proof.
  change 0x3ff%N with (N.ones 10). rewrite N.land_ones.
  change (2 ^ 10)%N with 1024%N. change 0xdc00%N with (55 * 1024)%N.
  apply lor_shift. apply N.mod_upper_bound. lia.
Qed.

Lemma join_halves c :
  (0x10000 <= c < 0x110000)%N ->
  join_surrogates (0xd800 + ((c - 0x10000) / 1024) mod 1024)
                  (0xdc00 + (c - 0x10000) mod 1024) = c.
Proof.
  intros Hc. unfold join_surrogates.
  assert (E : forall a x, (a + x - a = x)%N) by (intros; lia). rewrite !E.
  rewrite N.shiftl_mul_pow2. change (2 ^ 10)%N with 1024%N.
  rewrite lor_shift by (apply N.mod_upper_bound; lia).
  zify. Z.to_euclidean_division_equations. lia.
Qed.

(** *** Strings *)

(** Reading one escape [\uXXXX] that stands for itself. *)
Lemma scan_u_lone h1 h2 h3 h4 n rest :
  hex4 h1 h2 h3 h4 = Some n ->
  is_high_surrogate n = false \/ starts_low_escape rest = false ->
  scan_string (SCons 92 (SCons 117 (SCons h1 (SCons h2 (SCons h3 (SCons h4 rest)))))) =
  cons_char n (scan_string rest).
Proof.
  intros Hhex Hlone. cbn [scan_string]. change (92 =? 34)%N with false.
  change (92 =? 92)%N with true. change (117 =? 117)%N with true. cbv iota. rewrite Hhex.
  destruct Hlone as [Hh | Hl].
  - rewrite Hh. cbn [andb].
    destruct rest as [| b [| e [| l1 [| l2 [| l3 [| l4 rest']]]]]]; reflexivity.
  - destruct rest as [| b [| e [| l1 [| l2 [| l3 [| l4 rest']]]]]]; try reflexivity;
      cbn [starts_low_escape] in Hl.
    + rewrite <- andb_assoc, Hl, andb_false_r. reflexivity.
    + rewrite <- andb_assoc, Hl, andb_false_r. reflexivity.
    + rewrite <- andb_assoc, Hl, andb_false_r. reflexivity.
    + rewrite <- andb_assoc, Hl, andb_false_r. reflexivity.
    + destruct ((b =? 92)%N && (e =? 117)%N) eqn:Hbe; cbn [andb] in Hl.
      * rewrite <- andb_assoc, Hbe, andb_true_r.
        destruct (hex4 l1 l2 l3 l4) as [m |]; [| discriminate]. rewrite Hl.
        by destruct (is_high_surrogate n).
      * rewrite <- andb_assoc, Hbe, andb_false_r. reflexivity.
Qed.

(** Reading the two escapes of a surrogate pair. *)
Lemma scan_u_pair h1 h2 h3 h4 l1 l2 l3 l4 n m rest :
  hex4 h1 h2 h3 h4 = Some n -> hex4 l1 l2 l3 l4 = Some m ->
  is_high_surrogate n = true -> is_low_surrogate m = true ->
  scan_string (SCons 92 (SCons 117 (SCons h1 (SCons h2 (SCons h3 (SCons h4
                (SCons 92 (SCons 117 (SCons l1 (SCons l2 (SCons l3 (SCons l4 rest)))))))))))) =
  cons_char (join_surrogates n m) (scan_string rest).
Proof.
  intros Hn Hm Hhi Hlo. cbn [scan_string]. change (92 =? 34)%N with false.
  change (92 =? 92)%N with true. change (117 =? 117)%N with true. cbv iota.
  rewrite Hn, Hhi. cbn [andb]. by rewrite Hm, Hlo.
Qed.

Lemma escape_u_app n t :
  escape_u n +:+ t =
  SCons 92 (SCons 117 (SCons (hex_digit ((n / 4096) mod 16))
    (SCons (hex_digit ((n / 256) mod 16)) (SCons (hex_digit ((n / 16) mod 16))
      (SCons (hex_digit (n mod 16)) t))))).
Proof. reflexivity. Qed.

Lemma starts_low_escape_u n t :
  (n < 65536)%N -> starts_low_escape (escape_u n +:+ t) = is_low_surrogate n.
Proof.
  intros Hn. rewrite escape_u_app. cbn [starts_low_escape].
  by rewrite (hex4_digits n Hn).
Qed.

(** The shapes of an escaped character. *)
Lemma escape_char_cases c :
  (exists x, escape_char c = SCons x "" /\ x <> 92%N) \/
  (exists x, escape_char c = SCons 92 (SCons x "") /\ x <> 117%N) \/
  ((c < 0x10000)%N /\ escape_char c = escape_u c) \/
  ((0x10000 <= c)%N /\
   escape_char c = escape_u (0xd800 + ((c - 0x10000) / 1024) mod 1024) +:+
                   escape_u (0xdc00 + (c - 0x10000) mod 1024)).
Proof.
  unfold escape_char.
  destruct (N.eqb_spec c 34); [right; left; eexists; split; [reflexivity | lia] |].
  destruct (N.eqb_spec c 92); [right; left; eexists; split; [reflexivity | lia] |].
  destruct (N.eqb_spec c 10); [right; left; eexists; split; [reflexivity | done] |].
  destruct (N.eqb_spec c 13); [right; left; eexists; split; [reflexivity | done] |].
  destruct (N.eqb_spec c 9); [right; left; eexists; split; [reflexivity | done] |].
  destruct (N.eqb_spec c 12); [right; left; eexists; split; [reflexivity | done] |].
  destruct (N.eqb_spec c 8); [right; left; eexists; split; [reflexivity | done] |].
  destruct ((32 <=? c)%N && (c <=? 126)%N); [left; eexists; split; [reflexivity | lia] |].
  destruct (N.ltb_spec c 0x10000); [right; right; left; by split |].
  right; right; right. split; [done |]. cbv zeta. by rewrite high_half, low_half.
Qed.

Lemma starts_low_escape_plain x t : x <> 92%N -> starts_low_escape (SCons x t) = false.
Proof.
  intros Hx. assert ((x =? 92)%N = false) as Hf by by apply N.eqb_neq.
  destruct t as [| e [| l1 [| l2 [| l3 [| l4 r]]]]]; cbn [starts_low_escape]; by rewrite ?Hf.
Qed.

Lemma starts_low_escape_short x t :
  x <> 117%N -> starts_low_escape (SCons 92 (SCons x t)) = false.
Proof.
  intros Hx. assert ((x =? 117)%N = false) as Hf by by apply N.eqb_neq.
  destruct t as [| l1 [| l2 [| l3 [| l4 r]]]]; cbn [starts_low_escape];
    by rewrite ?Hf, ?andb_false_r.
Qed.

(** After a character that is no low surrogate comes no escape of one. *)
Lemma escape_body_quiet s rest :
  match s with SCons d _ => is_low_surrogate d = false | SNil => True end ->
  starts_low_escape (escape_body s +:+ quote +:+ rest) = false.
Proof.
  destruct s as [| d s']; [intros _; by apply starts_low_escape_plain |].
  intros Hd. cbn [escape_body]. rewrite str_app_assoc.
  destruct (escape_char_cases d) as [[x [-> Hx]] | [[x [-> Hx]] | [[Hlt ->] | [Hge ->]]]].
  - rewrite str_app_cons, str_app_nil_l. by apply starts_low_escape_plain.
  - rewrite !str_app_cons, str_app_nil_l. by apply starts_low_escape_short.
  - by rewrite starts_low_escape_u.
  - rewrite str_app_assoc, starts_low_escape_u.
    + unfold is_low_surrogate. pose proof (N.mod_upper_bound ((d - 0x10000) / 1024) 1024).
      code_cases.
    + pose proof (N.mod_upper_bound ((d - 0x10000) / 1024) 1024). lia.
Qed.

(** Reading back one escaped character. *)
Lemma scan_escape_char c tail :
  (c < 0x110000)%N ->
  is_high_surrogate c = false \/ starts_low_escape tail = false ->
  scan_string (escape_char c +:+ tail) = cons_char c (scan_string tail).
Proof.
  intros Hc Hlone. unfold escape_char.
  destruct (N.eqb_spec c 34) as [-> |]; [reflexivity |].
  destruct (N.eqb_spec c 92) as [-> |]; [reflexivity |].
  destruct (N.eqb_spec c 10) as [-> |]; [reflexivity |].
  destruct (N.eqb_spec c 13) as [-> |]; [reflexivity |].
  destruct (N.eqb_spec c 9) as [-> |]; [reflexivity |].
  destruct (N.eqb_spec c 12) as [-> |]; [reflexivity |].
  destruct (N.eqb_spec c 8) as [-> |]; [reflexivity |].
  destruct ((32 <=? c)%N && (c <=? 126)%N) eqn:Hp.
  { rewrite str_app_cons, str_app_nil_l. cbn [scan_string].
    assert ((c =? 34)%N = false) as -> by by apply N.eqb_neq.
    assert ((c =? 92)%N = false) as -> by by apply N.eqb_neq.
    assert ((c <? 32)%N = false) as ->; [| reflexivity].
    apply andb_true_iff in Hp. destruct Hp as [Hp _]. apply N.leb_le in Hp.
    apply N.ltb_ge. exact Hp. }
  destruct (N.ltb_spec c 0x10000) as [Hlt | Hge].
  { rewrite escape_u_app. apply scan_u_lone; [by apply hex4_digits | exact Hlone]. }
  cbv zeta. rewrite high_half, low_half, str_app_assoc, !escape_u_app.
  pose proof (N.mod_upper_bound ((c - 0x10000) / 1024) 1024 ltac:(lia)) as Hhi.
  pose proof (N.mod_upper_bound (c - 0x10000) 1024 ltac:(lia)) as Hlo.
  rewrite (scan_u_pair _ _ _ _ _ _ _ _ (0xd800 + ((c - 0x10000) / 1024) mod 1024)
             (0xdc00 + (c - 0x10000) mod 1024)).
  - by rewrite join_halves.
  - apply hex4_digits. lia.
  - apply hex4_digits. lia.
  - unfold is_high_surrogate. code_cases.
  - unfold is_low_surrogate. code_cases.
Qed.

Lemma scan_escape_body s rest :
  wf_str s = true ->
  scan_string (escape_body s +:+ quote +:+ rest) = Some (s, rest).
Proof.
  induction s as [| c s IH]; intros Hwf.
  - reflexivity.
  - cbn [wf_str] in Hwf. apply andb_true_iff in Hwf. destruct Hwf as [Hwf Hs].
    apply andb_true_iff in Hwf. destruct Hwf as [Hc Hpair].
    apply N.ltb_lt in Hc. apply negb_true_iff in Hpair.
    cbn [escape_body]. rewrite str_app_assoc, scan_escape_char, (IH Hs); [reflexivity | exact Hc |].
    destruct (is_high_surrogate c); [right | by left]. cbn [andb] in Hpair.
    apply escape_body_quiet. by destruct s.
Qed.

Lemma encode_str_app s rest :
  encode_str s +:+ rest = SCons 34 (escape_body s +:+ quote +:+ rest).
Proof.
  unfold encode_str. rewrite !str_app_assoc. reflexivity.
Qed.

(** *** Digits *)

Lemma delim_head rest :
  delim rest = true ->
  rest = "" \/ exists c r, rest = SCons c r /\ (c = 44 \/ c = 10)%N.
Proof.
  destruct rest as [| c r]; [by left |]. simpl. intros H. right. exists c, r. split; [done |].
  apply orb_true_iff in H. destruct H as [H | H]; apply N.eqb_eq in H; auto.
Qed.

Ltac delim_cases rest H :=
  destruct (delim_head rest H) as [-> | [? [? [-> [-> | ->]]]]].

Lemma take_digits_all ds : all_digits ds = true -> take_digits ds = (ds, "").
Proof.
  induction ds as [| c ds IH]; [reflexivity |]. simpl. intros H.
  apply andb_true_iff in H. destruct H as [Hc Hds]. rewrite Hc, (IH Hds). reflexivity.
Qed.

Lemma take_digits_app s rest ds r :
  take_digits s = (ds, r) -> delim rest = true ->
  take_digits (s +:+ rest) = (ds, r +:+ rest).
Proof.
  intros H Hd. revert ds r H. induction s as [| c s IH]; intros ds r H.
  - injection H as <- <-. delim_cases rest Hd; reflexivity.
  - change (SCons c s +:+ rest) with (SCons c (s +:+ rest)). simpl in *.
    destruct (is_digit c).
    + destruct (take_digits s) as [ds0 r0]. injection H as <- <-.
      rewrite (IH ds0 r0 eq_refl). reflexivity.
    + injection H as <- <-. reflexivity.
Qed.

Lemma take_digits_concat s ds r : take_digits s = (ds, r) -> s = ds +:+ r.
Proof.
  revert ds r. induction s as [| c s IH]; intros ds r H; simpl in H.
  - by injection H as <- <-.
  - destruct (is_digit c).
    + destruct (take_digits s) as [ds0 r0]. injection H as <- <-.
      change (SCons c s = SCons c (ds0 +:+ r0)). by rewrite (IH ds0 r0).
    + by injection H as <- <-.
Qed.

Lemma scan_integer_app s rest i r :
  scan_integer s = Some (i, r) -> delim rest = true ->
  scan_integer (s +:+ rest) = Some (i, r +:+ rest).
Proof.
  intros H Hd. unfold scan_integer in *.
  assert (Hcore : forall sign s1,
    match s1 with
    | SCons c s2 =>
        if (c =? 48)%N then Some (sign +:+ "0", s2)
        else if is_digit c then let (ds, r) := take_digits s2 in Some (sign +:+ SCons c ds, r)
        else None
    | SNil => None
    end = Some (i, r) ->
    match s1 +:+ rest with
    | SCons c s2 =>
        if (c =? 48)%N then Some (sign +:+ "0", s2)
        else if is_digit c then let (ds, r) := take_digits s2 in Some (sign +:+ SCons c ds, r)
        else None
    | SNil => None
    end = Some (i, r +:+ rest)).
  { intros sign [| c s2] Hs; [discriminate |].
    change (SCons c s2 +:+ rest) with (SCons c (s2 +:+ rest)). cbv beta iota.
    destruct ((c =? 48)%N).
    - by injection Hs as <- <-.
    - destruct (is_digit c); [| discriminate].
      destruct (take_digits s2) as [ds0 r0] eqn:E. injection Hs as <- <-.
      by rewrite (take_digits_app _ _ _ _ E Hd). }
  destruct s as [| c s]; [discriminate |].
  change (SCons c s +:+ rest) with (SCons c (s +:+ rest)). cbv beta iota.
  destruct (N.eqb c (code "-")).
  - exact (Hcore "-" s H).
  - exact (Hcore "" (SCons c s) H).
Qed.

Lemma scan_integer_concat s i r : scan_integer s = Some (i, r) -> s = i +:+ r.
Proof.
  unfold scan_integer.
  assert (Hcore : forall sign s1,
    match s1 with
    | SCons c s2 =>
        if (c =? 48)%N then Some (sign +:+ "0", s2)
        else if is_digit c then let (ds, r) := take_digits s2 in Some (sign +:+ SCons c ds, r)
        else None
    | SNil => None
    end = Some (i, r) -> sign +:+ s1 = i +:+ r).
  { intros sign [| c s2] Hs; [discriminate |].
    destruct ((c =? 48)%N) eqn:E0.
    - injection Hs as <- <-. apply N.eqb_eq in E0. subst c.
      by rewrite str_app_assoc.
    - destruct (is_digit c); [| discriminate].
      destruct (take_digits s2) as [ds0 r0] eqn:E. injection Hs as <- <-.
      rewrite str_app_assoc. f_equal.
      change (SCons c s2 = SCons c (ds0 +:+ r0)). by rewrite (take_digits_concat _ _ _ E). }
  destruct s as [| c s]; [discriminate |].
  destruct (N.eqb c (code "-")) eqn:E.
  - apply N.eqb_eq in E. subst c. intros H. exact (Hcore "-" s H).
  - intros H. exact (Hcore "" (SCons c s) H).
Qed.

Lemma scan_frac_app s rest f r :
  scan_frac s = (f, r) -> delim rest = true -> scan_frac (s +:+ rest) = (f, r +:+ rest).
Proof.
  intros H Hd. destruct s as [| c s].
  - injection H as <- <-. delim_cases rest Hd; reflexivity.
  - change (SCons c s +:+ rest) with (SCons c (s +:+ rest)). unfold scan_frac in *.
    destruct (N.eqb c (code ".")).
    + destruct (take_digits s) as [ds0 r0] eqn:E.
      rewrite (take_digits_app _ _ _ _ E Hd).
      destruct ds0; by injection H as <- <-.
    + by injection H as <- <-.
Qed.

Lemma scan_frac_concat s f r : scan_frac s = (f, r) -> s = f +:+ r.
Proof.
  destruct s as [| c s]; unfold scan_frac.
  - by intros [= <- <-].
  - destruct (N.eqb c (code ".")).
    + destruct (take_digits s) as [ds0 r0] eqn:E. apply take_digits_concat in E.
      destruct ds0; intros [= <- <-]; [reflexivity |]. by rewrite E.
    + by intros [= <- <-].
Qed.

Lemma scan_exp_app s rest e r :
  scan_exp s = (e, r) -> delim rest = true -> scan_exp (s +:+ rest) = (e, r +:+ rest).
Proof.
  intros H Hd. destruct s as [| c s].
  - injection H as <- <-. delim_cases rest Hd; reflexivity.
  - change (SCons c s +:+ rest) with (SCons c (s +:+ rest)). unfold scan_exp in *.
    destruct (((c =? 101)%N) || ((c =? 69)%N)); [| by injection H as <- <-].
    assert (Hcore : forall sign s1,
      match take_digits s1 with
      | (SNil, _) => ("", SCons c s)
      | (ds, r) => (SCons c (sign +:+ ds), r)
      end = (e, r) ->
      match take_digits (s1 +:+ rest) with
      | (SNil, _) => ("", SCons c (s +:+ rest))
      | (ds, r) => (SCons c (sign +:+ ds), r)
      end = (e, r +:+ rest)).
    { intros sign s1 Hs. destruct (take_digits s1) as [ds0 r0] eqn:E.
      rewrite (take_digits_app _ _ _ _ E Hd). destruct ds0; by injection Hs as <- <-. }
    destruct s as [| c' s'].
    + simpl in H. injection H as <- <-.
      delim_cases rest Hd; reflexivity.
    + change (SCons c' s' +:+ rest) with (SCons c' (s' +:+ rest)) at 1. cbv beta iota.
      destruct (N.eqb c' (code "+")); [exact (Hcore "+" s' H) |].
      destruct (N.eqb c' (code "-")); [exact (Hcore "-" s' H) |].
      exact (Hcore "" (SCons c' s') H).
Qed.

Lemma scan_exp_concat s e r : scan_exp s = (e, r) -> s = e +:+ r.
Proof.
  destruct s as [| c s]; unfold scan_exp.
  - by intros [= <- <-].
  - destruct (((c =? 101)%N) || ((c =? 69)%N)); [| by intros [= <- <-]].
    assert (Hcore : forall sign s1, sign +:+ s1 = s ->
      match take_digits s1 with
      | (SNil, _) => ("", SCons c s)
      | (ds, r) => (SCons c (sign +:+ ds), r)
      end = (e, r) -> SCons c s = e +:+ r).
    { intros sign s1 Hs. destruct (take_digits s1) as [ds0 r0] eqn:E.
      apply take_digits_concat in E. subst s1 s.
      destruct ds0 as [| a ds0]; intros [= <- <-]; [reflexivity |].
      change (SCons c (sign +:+ SCons a ds0 +:+ r0) = SCons c ((sign +:+ SCons a ds0) +:+ r0)).
      by rewrite str_app_assoc. }
    destruct s as [| c' s']; [by intros [= <- <-] |].
    destruct (N.eqb c' (code "+")) eqn:E1.
    { apply N.eqb_eq in E1. subst c'. exact (Hcore "+" s' eq_refl). }
    destruct (N.eqb c' (code "-")) eqn:E2.
    { apply N.eqb_eq in E2. subst c'. exact (Hcore "-" s' eq_refl). }
    exact (Hcore "" (SCons c' s') eq_refl).
Qed.

(** *** Numbers *)

Lemma delim_not_number rest :
  delim rest = true -> scan_frac rest = ("", rest) /\ scan_exp rest = ("", rest).
Proof. intros Hd. delim_cases rest Hd; split; reflexivity. Qed.

(** A float literal followed by a delimiter is read as that float. *)
Lemma scan_number_float of_text s rest :
  float_literal s = true -> delim rest = true ->
  scan_number of_text (s +:+ rest) = Some (JFloat (of_text s), rest).
Proof.
  unfold float_literal, scan_number. intros H Hd.
  destruct (scan_integer s) as [[i r] |] eqn:Ei; [| discriminate].
  destruct (scan_frac r) as [f r1] eqn:Ef. destruct (scan_exp r1) as [e r2] eqn:Ee.
  apply andb_true_iff in H. destruct H as [Hr Hfe].
  apply str_eqb_eq in Hr. subst r2.
  rewrite (scan_integer_app _ _ _ _ Ei Hd), (scan_frac_app _ _ _ _ Ef Hd),
    (scan_exp_app _ _ _ _ Ee Hd).
  apply negb_true_iff in Hfe. rewrite Hfe.
  apply scan_integer_concat in Ei. apply scan_frac_concat in Ef. apply scan_exp_concat in Ee.
  subst s r r1. by rewrite str_app_nil_r.
Qed.

Lemma uint_all_digits d : all_digits (u (NilEmpty.string_of_uint d)) = true.
Proof. induction d; simpl; auto. Qed.

Lemma pos_to_uint_normal p : nzhead (Pos.to_uint p) = Pos.to_uint p.
Proof.
  assert (Hu : unorm (Pos.to_uint p) = Pos.to_uint p).
  { rewrite <- DecimalPos.Unsigned.to_of, DecimalPos.Unsigned.of_to. reflexivity. }
  rewrite <- Hu at 2. unfold unorm in *.
  destruct (nzhead (Pos.to_uint p)) eqn:E; try reflexivity.
  exfalso. apply (DecimalPos.Unsigned.to_uint_nonzero p). by rewrite <- Hu.
Qed.

(** The decimal text of a positive number: a digit other than zero, then digits. *)
Lemma scan_integer_pos sign p :
  (sign = "" \/ sign = "-") ->
  scan_integer (sign +:+ NilEmpty.string_of_uint (Pos.to_uint p)) =
  Some (sign +:+ u (NilEmpty.string_of_uint (Pos.to_uint p)), "").
Proof.
  intros Hsign.
  pose proof (pos_to_uint_normal p) as Hn.
  pose proof (nzhead_nonzero (Pos.to_uint p)) as Hz. rewrite Hn in Hz.
  pose proof (DecimalPos.Unsigned.to_uint_nonnil p) as Hnil.
  pose proof (uint_all_digits (Pos.to_uint p)) as Hd.
  assert (Hbody : forall sg,
    match u (NilEmpty.string_of_uint (Pos.to_uint p)) with
    | SCons c s2 =>
        if (c =? 48)%N then Some (sg +:+ "0", s2)
        else if is_digit c then let (ds, r) := take_digits s2 in Some (sg +:+ SCons c ds, r)
        else None
    | SNil => None
    end = Some (sg +:+ u (NilEmpty.string_of_uint (Pos.to_uint p)), "")).
  { intros sg. destruct (Pos.to_uint p) as [| d | d | d | d | d | d | d | d | d | d];
      try (simpl in *; rewrite (take_digits_all _ Hd); reflexivity).
    - by destruct Hnil.
    - by destruct (Hz d). }
  destruct Hsign as [-> | ->].
  - unfold scan_integer. change ("" +:+ ?x) with x.
    destruct (u (NilEmpty.string_of_uint (Pos.to_uint p))) as [| c s2] eqn:E.
    + specialize (Hbody ""). discriminate.
    + assert (Hc : N.eqb c (code "-") = false).
      { destruct (Pos.to_uint p); simpl in E; try discriminate;
          injection E as <- _; reflexivity. }
      rewrite Hc. exact (Hbody "").
  - unfold scan_integer.
    change ("-" +:+ ?x) with (SCons 45 x). cbv beta iota.
    change (N.eqb 45 (code "-")) with true. cbv beta iota.
    exact (Hbody "-").
Qed.

Lemma scan_integer_str_of_Z z : scan_integer (str_of_Z z) = Some (u (str_of_Z z), "").
Proof.
  unfold str_of_Z. destruct z as [| p | p]; cbn [Z.to_int NilZero.string_of_int].
  - reflexivity.
  - unfold NilZero.string_of_uint.
    pose proof (scan_integer_pos "" p (or_introl eq_refl)) as H.
    change ("" +:+ ?x) with x in H.
    destruct (Pos.to_uint p) eqn:E; try exact H.
    by destruct (DecimalPos.Unsigned.to_uint_nonnil p).
  - unfold NilZero.string_of_uint.
    pose proof (scan_integer_pos "-" p (or_intror eq_refl)) as H.
    change ("-" +:+ ?x) with (SCons 45 x) in H.
    destruct (Pos.to_uint p) eqn:E; try exact H.
    by destruct (DecimalPos.Unsigned.to_uint_nonnil p).
Qed.

Lemma int_of_str_of_Z z :
  NilZero.int_of_string (narrow (str_of_Z z)) = Some (Z.to_int z).
Proof.
  rewrite narrow_u. unfold str_of_Z. apply NilZero.isi.
  - destruct z; simpl; try discriminate.
    intros [= H]. by destruct (DecimalPos.Unsigned.to_uint_nonnil p).
  - destruct z; simpl; try discriminate.
    intros [= H]. by destruct (DecimalPos.Unsigned.to_uint_nonnil p).
Qed.

(** The decimal text of an int followed by a delimiter is read as that int. *)
Lemma scan_number_int of_text z rest :
  delim rest = true ->
  scan_number of_text (str_of_Z z +:+ rest) = Some (JInt z, rest).
Proof.
  intros Hd. unfold scan_number.
  rewrite (scan_integer_app _ _ _ _ (scan_integer_str_of_Z z) Hd).
  change ("" +:+ rest) with rest.
  destruct (delim_not_number rest Hd) as [-> ->]. simpl.
  by rewrite int_of_str_of_Z, DecimalZ.of_to.
Qed.

(** *** White space and first characters *)

Lemma skip_ws_spaces n s : skip_ws (spaces n +:+ s) = skip_ws s.
Proof. induction n as [| n IH]; [reflexivity | exact IH]. Qed.

Lemma skip_ws_newline_indent n s : skip_ws (newline_indent n +:+ s) = skip_ws s.
Proof.
  unfold newline_indent. rewrite str_app_assoc.
  change (nl +:+ ?x) with (SCons 10 x). cbn [skip_ws].
  change (is_ws 10) with true. cbv iota. apply skip_ws_spaces.
Qed.

Lemma skip_ws_value c t : starts_value c -> skip_ws (SCons c t) = SCons c t.
Proof. intros [H _]. cbn [skip_ws]. by rewrite H. Qed.

Lemma scan_integer_head s i r :
  scan_integer s = Some (i, r) -> exists c t, s = SCons c t /\ starts_number c = true.
Proof.
  unfold scan_integer, starts_number. destruct s as [| c s]; [discriminate |].
  intros H. exists c, s. split; [reflexivity |].
  destruct (N.eqb c (code "-")) eqn:E; [reflexivity |]. simpl.
  destruct ((c =? 48)%N) eqn:E0.
  - apply N.eqb_eq in E0. subst c. reflexivity.
  - destruct (is_digit c); [reflexivity | discriminate].
Qed.

Lemma starts_number_facts c :
  starts_number c = true ->
  starts_value c /\
  N.eqb c (code "034") = false /\ N.eqb c (code "{") = false /\ N.eqb c (code "[") = false /\
  N.eqb 110 c = false /\ N.eqb 116 c = false /\ N.eqb 102 c = false.
Proof.
  unfold starts_value, starts_number, is_digit, is_ws. codes_out.
  intros H. repeat split; code_cases.
Qed.

(** Where a number is read, [scan_once] reads it. *)
Lemma scan_once_number of_text n s res :
  scan_number of_text s = Some res -> scan_once of_text (S n) s = Some res.
Proof.
  intros H.
  assert (Hh : exists c t, s = SCons c t /\ starts_number c = true).
  { unfold scan_number in H. destruct (scan_integer s) as [[i r] |] eqn:E; [| discriminate].
    eapply scan_integer_head; eauto. }
  destruct Hh as [c [t [-> Hc]]].
  destruct (starts_number_facts c Hc) as [_ [H1 [H2 [H3 [H4 [H5 H6]]]]]].
  cbn [scan_once after_char]. rewrite H1, H2, H3.
  unfold scan_constant. cbn [strip_prefix]. rewrite H4, H5, H6, H. reflexivity.
Qed.

(** *** The layout of lists and dicts *)

Lemma encode_arr_cons repr level x xs :
  encode repr level (JArr (x :: xs)) =
  "[" +:+ newline_indent (S level) +:+ encode repr (S level) x +:+
  items_text repr level xs +:+ newline_indent level +:+ "]".
Proof.
  cbn [encode].
  assert (E : forall l,
    (fix items (l : list json) : str :=
       match l with
       | [] => ""
       | y :: l' => "," +:+ newline_indent (S level) +:+ encode repr (S level) y +:+ items l'
       end) l = items_text repr level l).
  { induction l as [| y l IH]; [reflexivity |]. cbn [items_text]. by rewrite <- IH. }
  by rewrite E.
Qed.

Lemma encode_obj_cons repr level k x xs :
  encode repr level (JObj ((k, x) :: xs)) =
  "{" +:+ newline_indent (S level) +:+ encode_str k +:+ ": " +:+ encode repr (S level) x +:+
  members_text repr level xs +:+ newline_indent level +:+ "}".
Proof.
  cbn [encode].
  assert (E : forall l,
    (fix items (l : list (str * json)) : str :=
       match l with
       | [] => ""
       | (k', y) :: l' =>
           "," +:+ newline_indent (S level) +:+ encode_str k' +:+ ": " +:+
           encode repr (S level) y +:+ items l'
       end) l = members_text repr level l).
  { induction l as [| [k' y] l IH]; [reflexivity |]. cbn [members_text]. by rewrite <- IH. }
  by rewrite E.
Qed.

Lemma wf_json_arr l : wf_json (JArr l) <-> Forall wf_json l.
Proof.
  cbn [wf_json]. induction l as [| x l IH]; [by split |].
  rewrite Forall_cons_iff, <- IH. reflexivity.
Qed.

Lemma wf_json_obj l :
  wf_json (JObj l) <->
  NoDup (map fst l) /\ Forall (fun kv => wf_str (fst kv) = true /\ wf_json (snd kv)) l.
Proof.
  cbn [wf_json]. apply and_iff_compat_l.
  induction l as [| [k x] l IH]; [by split |].
  rewrite Forall_cons_iff, <- IH. reflexivity.
Qed.

Lemma floats_read_back_arr repr of_text l :
  floats_read_back repr of_text (JArr l) <-> Forall (floats_read_back repr of_text) l.
Proof.
  cbn [floats_read_back]. induction l as [| x l IH]; [by split |].
  rewrite Forall_cons_iff, <- IH. reflexivity.
Qed.

Lemma floats_read_back_obj repr of_text l :
  floats_read_back repr of_text (JObj l) <->
  Forall (fun kv => floats_read_back repr of_text (snd kv)) l.
Proof.
  cbn [floats_read_back]. induction l as [| [k x] l IH]; [by split |].
  rewrite Forall_cons_iff, <- IH. reflexivity.
Qed.

Lemma size_arr_cons x l : size (JArr (x :: l)) = size x + size (JArr l).
Proof. cbn [size]. lia. Qed.

Lemma size_obj_cons k x l : size (JObj ((k, x) :: l)) = size x + size (JObj l).
Proof. cbn [size]. lia. Qed.

Lemma size_pos v : 1 <= size v.
Proof. destruct v; cbn [size]; lia. Qed.

(** *** Floats *)

Lemma SFeqb_refl_finite f : is_finite f = true -> SFeqb f f = true.
Proof.
  destruct f as [s | s | | s m e]; try discriminate; intros _; [reflexivity |].
  unfold SFeqb, SFcompare. rewrite Z.compare_refl, Pos.compare_cont_refl.
  by destruct s.
Qed.

Lemma floatstr_finite repr f : is_finite f = true -> floatstr repr f = repr f.
Proof.
  intros H. unfold floatstr. rewrite (SFeqb_refl_finite f H).
  by destruct f as [s | s | | s m e].
Qed.

(** What [floatstr] writes for a float is read back as that float. *)
Lemma scan_once_float repr of_text f n rest :
  floats_read_back repr of_text (JFloat f) -> delim rest = true ->
  scan_once of_text (S n) (floatstr repr f +:+ rest) = Some (JFloat f, rest).
Proof.
  intros Hf Hd. destruct (is_finite f) eqn:E.
  - destruct (Hf E) as [Hlit Hback]. rewrite (floatstr_finite repr f E).
    apply scan_once_number. rewrite (scan_number_float _ _ _ Hlit Hd). by rewrite Hback.
  - destruct f as [s | [] | | s m e]; try discriminate; reflexivity.
Qed.

(** The first character of what [encode] writes. *)
Lemma encode_head repr of_text level v :
  floats_read_back repr of_text v ->
  exists c t, encode repr level v = SCons c t /\ starts_value c.
Proof.
  assert (Hnum : forall s i r, scan_integer s = Some (i, r) ->
                   exists c t, s = SCons c t /\ starts_value c).
  { intros s i r H. destruct (scan_integer_head _ _ _ H) as [c [t [-> Hc]]].
    exists c, t. split; [reflexivity |]. by apply starts_number_facts. }
  intros Hf. destruct v as [| [] | z | f | s | [| x l] | [| [k x] l]].
  - by eexists _, _.
  - by eexists _, _.
  - by eexists _, _.
  - apply (Hnum _ _ _ (scan_integer_str_of_Z z)).
  - cbn [encode]. destruct (is_finite f) eqn:E.
    + rewrite (floatstr_finite repr f E). destruct (Hf E) as [Hlit _].
      unfold float_literal in Hlit.
      destruct (scan_integer (repr f)) as [[i r] |] eqn:Ei; [| discriminate].
      apply (Hnum _ _ _ Ei).
    + destruct f as [? | [] | | ? ? ?]; try discriminate; by eexists _, _.
  - by eexists _, _.
  - by eexists _, _.
  - rewrite encode_arr_cons. by eexists _, _.
  - by eexists _, _.
  - rewrite encode_obj_cons. by eexists _, _.
Qed.

(** *** Dicts *)

Lemma assoc_set_fresh {A} k (v : A) acc :
  ~ In k (map fst acc) -> assoc_set k v acc = acc ++ [(k, v)].
Proof.
  induction acc as [| [k' v'] acc IH]; intros Hk; [reflexivity |]. cbn [assoc_set].
  destruct (str_eqb k k') eqn:E.
  - apply str_eqb_eq in E. subst k'. destruct Hk. by left.
  - rewrite IH; [reflexivity |]. intros Hin. apply Hk. by right.
Qed.

Lemma dict_of_pairs_nodup l : NoDup (map fst l) -> dict_of_pairs l = l.
Proof.
  unfold dict_of_pairs.
  assert (H : forall (l acc : list (str * json)), NoDup (map fst (acc ++ l)) ->
            fold_left (fun d kv => assoc_set (fst kv) (snd kv) d) l acc = acc ++ l).
  { clear l. induction l as [| [k v] l IH]; intros acc Hnd.
    - by rewrite app_nil_r.
    - cbn [fold_left fst snd]. rewrite assoc_set_fresh.
      + rewrite IH; rewrite <- app_assoc; [reflexivity | exact Hnd].
      + rewrite map_app in Hnd. apply NoDup_ListNoDup in Hnd.
        apply List.NoDup_remove_2 in Hnd. intros Hin. apply Hnd.
        apply in_or_app. by left. }
  intros Hnd. apply (H l []). exact Hnd.
Qed.

(** *** Reading a document back *)

Lemma after_comma t :
  skip_ws ("," +:+ t) = "," +:+ t /\
  after_char "]" ("," +:+ t) = None /\ after_char "}" ("," +:+ t) = None /\
  after_char "," ("," +:+ t) = Some t.
Proof. repeat split. Qed.

Lemma after_close_list level t :
  after_char "]" (skip_ws (newline_indent level +:+ "]" +:+ t)) = Some t.
Proof. by rewrite skip_ws_newline_indent. Qed.

Lemma after_close_dict level t :
  after_char "}" (skip_ws (newline_indent level +:+ "}" +:+ t)) = Some t.
Proof. by rewrite skip_ws_newline_indent. Qed.

Lemma after_key k t :
  after_char "034" (encode_str k +:+ ": " +:+ t) = Some (escape_body k +:+ quote +:+ ": " +:+ t) /\
  after_char ":" (skip_ws (": " +:+ t)) = Some (" " +:+ t) /\
  skip_ws (" " +:+ t) = skip_ws t /\
  skip_ws (encode_str k +:+ t) = encode_str k +:+ t.
Proof. rewrite !encode_str_app. repeat split. Qed.

Section ReadBack.

Variable repr : spec_float -> str.
Variable of_text : str -> spec_float.

Lemma skip_ws_encode level v tail :
  floats_read_back repr of_text v ->
  skip_ws (encode repr level v +:+ tail) = encode repr level v +:+ tail.
Proof.
  intros Hf. destruct (encode_head repr of_text level v Hf) as [c [t [-> Hc]]].
  change (SCons c t +:+ tail) with (SCons c (t +:+ tail)). by apply skip_ws_value.
Qed.

Lemma not_closing_encode level v tail close :
  (close = "]" \/ close = "}")%char ->
  floats_read_back repr of_text v ->
  after_char close (encode repr level v +:+ tail) = None.
Proof.
  intros Hcl Hf. destruct (encode_head repr of_text level v Hf) as [c [t [-> [_ [H1 H2]]]]].
  change (SCons c t +:+ tail) with (SCons c (t +:+ tail)). cbn [after_char].
  destruct Hcl as [-> | ->]; by rewrite ?H1, ?H2.
Qed.

Lemma array_items_ok xs : forall x level n m rest,
  Forall (reads_back repr of_text) (x :: xs) ->
  Forall (floats_read_back repr of_text) (x :: xs) ->
  size (JArr (x :: xs)) <= S n -> size (JArr (x :: xs)) <= S m ->
  delim rest = true ->
  array_items (scan_once of_text n) m
    (encode repr (S level) x +:+ items_text repr level xs +:+
     newline_indent level +:+ "]" +:+ rest) = Some (x :: xs, rest).
Proof.
  induction xs as [| y ys IH]; intros x level n m rest Hrb Hfl Hn Hm Hd.
  - apply Forall_inv in Hrb. rewrite size_arr_cons in Hn, Hm.
    pose proof (size_pos x). cbn [size] in Hn, Hm.
    destruct m as [| m]; [lia |]. cbn [array_items items_text].
    change ("" +:+ ?t) with t.
    rewrite (Hrb (S level) n) by first [lia | reflexivity].
    by rewrite after_close_list.
  - pose proof (Forall_inv Hrb) as Hx. apply Forall_inv_tail in Hrb, Hfl.
    pose proof (Forall_inv Hfl) as Hfy.
    rewrite size_arr_cons in Hn, Hm.
    pose proof (size_pos x). pose proof (size_pos (JArr (y :: ys))).
    destruct m as [| m]; [lia |]. cbn [array_items items_text].
    rewrite !str_app_assoc.
    rewrite (Hx (S level) n) by first [lia | reflexivity].
    match goal with |- context [skip_ws ("," +:+ ?t)] =>
      destruct (after_comma t) as [-> [-> [_ ->]]] end.
    rewrite skip_ws_newline_indent, (skip_ws_encode _ _ _ Hfy).
    specialize (IH y level n m rest Hrb Hfl ltac:(lia) ltac:(lia) Hd).
    rewrite ?str_app_assoc in IH. by rewrite IH.
Qed.

Lemma object_pairs_ok xs : forall k x level n m rest,
  Forall (fun kv => wf_str (fst kv) = true) ((k, x) :: xs) ->
  Forall (fun kv => reads_back repr of_text (snd kv)) ((k, x) :: xs) ->
  Forall (fun kv => floats_read_back repr of_text (snd kv)) ((k, x) :: xs) ->
  size (JObj ((k, x) :: xs)) <= S n -> size (JObj ((k, x) :: xs)) <= S m ->
  delim rest = true ->
  object_pairs (scan_once of_text n) m
    (encode_str k +:+ ": " +:+ encode repr (S level) x +:+ members_text repr level xs +:+
     newline_indent level +:+ "}" +:+ rest) = Some ((k, x) :: xs, rest).
Proof.
  induction xs as [| [k' y] ys IH]; intros k x level n m rest Hks Hrb Hfl Hn Hm Hd.
  - apply Forall_inv in Hrb. pose proof (Forall_inv Hfl) as Hfx. cbn [snd] in Hrb, Hfx.
    apply Forall_inv in Hks. cbn [fst] in Hks.
    rewrite size_obj_cons in Hn, Hm.
    pose proof (size_pos x). cbn [size] in Hn, Hm.
    destruct m as [| m]; [lia |]. cbn [object_pairs members_text].
    change ("" +:+ ?t) with t.
    match goal with |- context [after_char "034" (encode_str k +:+ ": " +:+ ?t)] =>
      destruct (after_key k t) as [-> [Hcolon [Hsp _]]] end.
    rewrite (scan_escape_body _ _ Hks), Hcolon, Hsp, (skip_ws_encode _ _ _ Hfx).
    rewrite (Hrb (S level) n) by first [lia | reflexivity].
    by rewrite after_close_dict.
  - pose proof (Forall_inv Hrb) as Hx. pose proof (Forall_inv Hfl) as Hfx.
    pose proof (Forall_inv Hks) as Hk. cbn [fst] in Hk.
    apply Forall_inv_tail in Hrb, Hfl, Hks.
    pose proof (Forall_inv Hfl) as Hfy. cbn [snd] in Hx, Hfx, Hfy.
    rewrite size_obj_cons in Hn, Hm.
    pose proof (size_pos x). pose proof (size_pos (JObj ((k', y) :: ys))).
    destruct m as [| m]; [lia |]. cbn [object_pairs members_text].
    rewrite !str_app_assoc.
    match goal with |- context [after_char "034" (encode_str k +:+ ": " +:+ ?t)] =>
      destruct (after_key k t) as [-> [Hcolon [Hsp _]]] end.
    rewrite (scan_escape_body _ _ Hk), Hcolon, Hsp, (skip_ws_encode _ _ _ Hfx).
    rewrite (Hx (S level) n) by first [lia | reflexivity].
    match goal with |- context [skip_ws ("," +:+ ?t)] =>
      destruct (after_comma t) as [-> [_ [-> ->]]] end.
    rewrite skip_ws_newline_indent.
    match goal with |- context [skip_ws (encode_str k' +:+ ?t)] =>
      destruct (after_key k' t) as [_ [_ [_ ->]]] end.
    specialize (IH k' y level n m rest Hks Hrb Hfl ltac:(lia) ltac:(lia) Hd).
    rewrite ?str_app_assoc in IH. by rewrite IH.
Qed.

End ReadBack.

(** Every well-formed document whose floats read back is read back. *)
Lemma encode_reads_back repr of_text v :
  wf_json v -> floats_read_back repr of_text v -> reads_back repr of_text v.
Proof.
  induction v as [| b | z | f | s | l IH | l IH] using json_induction;
    intros Hwf Hfl level fuel rest Hsize Hd;
    (destruct fuel as [| n]; [pose proof (size_pos (JArr [])); cbn [size] in *; lia |]).
  - reflexivity.
  - destruct b; reflexivity.
  - apply scan_once_number. by apply scan_number_int.
  - by apply scan_once_float.
  - cbn [encode]. rewrite encode_str_app. cbn [scan_once after_char].
    change (N.eqb 34 (code "034")) with true. cbv iota. by rewrite (scan_escape_body _ _ Hwf).
  - destruct l as [| x xs]; [reflexivity |].
    apply wf_json_arr in Hwf. apply floats_read_back_arr in Hfl.
    assert (Hrb : Forall (reads_back repr of_text) (x :: xs)).
    { clear Hsize. induction IH as [| y l Hy _ IHl]; [constructor |].
      apply Forall_cons_iff in Hwf, Hfl. destruct Hwf, Hfl.
      constructor; auto. }
    rewrite encode_arr_cons, !str_app_assoc.
    change ("[" +:+ ?t) with (SCons 91 t). cbn [scan_once after_char].
    change (N.eqb 91 (code "034")) with false. change (N.eqb 91 (code "{")) with false.
    change (N.eqb 91 (code "[")) with true. cbv iota.
    rewrite skip_ws_newline_indent, (skip_ws_encode repr of_text) by (by inversion Hfl).
    rewrite (not_closing_encode repr of_text) by (first [by left | by inversion Hfl]).
    by rewrite (array_items_ok repr of_text xs x level n n rest).
  - destruct l as [| [k x] xs]; [reflexivity |].
    apply wf_json_obj in Hwf. destruct Hwf as [Hnd Hwf].
    apply floats_read_back_obj in Hfl.
    assert (Hks : Forall (fun kv => wf_str (fst kv) = true) ((k, x) :: xs)).
    { eapply Forall_impl; [exact Hwf |]. by intros kv [Hk _]. }
    assert (Hrb : Forall (fun kv => reads_back repr of_text (snd kv)) ((k, x) :: xs)).
    { clear Hsize Hnd Hks. induction IH as [| y l Hy _ IHl]; [constructor |].
      apply Forall_cons_iff in Hwf, Hfl. destruct Hwf as [[_ Hwy] Hwf], Hfl.
      constructor; auto. }
    rewrite encode_obj_cons, !str_app_assoc.
    change ("{" +:+ ?t) with (SCons 123 t). cbn [scan_once after_char].
    change (N.eqb 123 (code "034")) with false. change (N.eqb 123 (code "{")) with true. cbv iota.
    rewrite skip_ws_newline_indent.
    match goal with |- context [skip_ws (encode_str k +:+ ?t)] =>
      destruct (after_key k t) as [_ [_ [_ ->]]] end.
    rewrite encode_str_app at 1. cbn [after_char].
    change (N.eqb 34 (code "}")) with false. cbv iota.
    rewrite (object_pairs_ok repr of_text xs k x level n n rest) by assumption.
    by rewrite (dict_of_pairs_nodup _ Hnd).
Qed.

Lemma size_le_length repr of_text v :
  floats_read_back repr of_text v -> forall level,
  size v <= str_length (encode repr level v).
Proof.
  induction v as [| b | z | f | s | l IH | l IH] using json_induction; intros Hfl level;
    try (destruct (encode_head repr of_text level _ Hfl) as [c [t [-> _]]]; cbn; lia).
  - apply floats_read_back_arr in Hfl.
    destruct l as [| x xs]; [cbn; lia |].
    rewrite encode_arr_cons, !str_length_app.
    assert (Hitems : size (JArr xs) <= S (str_length (items_text repr level xs))).
    { apply Forall_inv_tail in IH, Hfl. clear x.
      induction IH as [| y l Hy _ IHl]; [cbn; lia |].
      apply Forall_cons_iff in Hfl. destruct Hfl as [Hfy Hfl].
      rewrite size_arr_cons. cbn [items_text]. rewrite !str_length_app.
      specialize (Hy Hfy (S level)). specialize (IHl Hfl). lia. }
    rewrite size_arr_cons.
    pose proof (Forall_inv IH (Forall_inv Hfl) (S level)). cbn [str_length]. lia.
  - apply floats_read_back_obj in Hfl.
    destruct l as [| [k x] xs]; [cbn; lia |].
    rewrite encode_obj_cons, !str_length_app.
    assert (Hitems : size (JObj xs) <= S (str_length (members_text repr level xs))).
    { apply Forall_inv_tail in IH, Hfl. clear k x.
      induction IH as [| [k y] l Hy _ IHl]; [cbn; lia |].
      apply Forall_cons_iff in Hfl. destruct Hfl as [Hfy Hfl].
      rewrite size_obj_cons. cbn [members_text]. rewrite !str_length_app.
      specialize (Hy Hfy (S level)). specialize (IHl Hfl). cbn [snd] in Hy. lia. }
    rewrite size_obj_cons.
    pose proof (Forall_inv IH (Forall_inv Hfl) (S level)) as Hx. cbn [snd] in Hx.
    cbn [str_length]. lia.
Qed.

(** [json.loads(json.dumps(v, indent=2))] is [v]. *)
Lemma loads_dumps repr of_text v :
  wf_json v -> floats_read_back repr of_text v ->
  json_loads of_text (json_dumps repr v) = Some v.
Proof.
  intros Hwf Hfl. unfold json_loads, json_dumps.
  pose proof (skip_ws_encode repr of_text 0 v "" Hfl) as Hs.
  rewrite str_app_nil_r in Hs. rewrite Hs.
  pose proof (encode_reads_back repr of_text v Hwf Hfl 0
                (str_length (encode repr 0 v)) ""
                (size_le_length repr of_text v Hfl 0) eq_refl) as H.
  rewrite str_app_nil_r in H. by rewrite H.
Qed.

(** What a successful [save_snapshot] has stored. *)
Lemma save_snapshot_ok w self applications st st' :
  save_snapshot w self applications st = (Ok tt, st') ->
  files (fs st') !!
    path_join (download_dir self)
      ("applications_list_" +:+ strftime (now w (trace st)) +:+ ".json")
  = Some (dumps w applications).
Proof.
  unfold save_snapshot, bind at 1, datetime_now.
  unfold bind at 1, open_write, os_call.
  destruct (os_fault w (trace st) (EOpen _)); [discriminate |].
  unfold bind at 1, file_write, os_call. cbn [trace fs files].
  destruct (os_fault w _ (EWrite _ _)); [discriminate |].
  unfold print, emit. intros [= <-]. cbn [fs files].
  rewrite lookup_insert_eq. by rewrite lookup_insert_eq.
Qed.


(* ===================================================================== *)
(** ** Further properties: the configuration *)
(* ===================================================================== *)

(** X1. A required variable that is unset or empty makes the constructor
    raise KeyError, naming every missing variable in the order of
    [required_vars], before any effect and whatever the control plane. *)
Theorem missing_variable_raises_KeyError w st k :
  In k required_vars -> env_missing w k = true ->
  __init__ w st =
  (Raise (mk_exn KeyError
            (py_repr w (JStr ("Missing environment variables: " +:+
                              str_join ", " (List.filter (env_missing w) required_vars))))),
   st) /\
  In k (List.filter (env_missing w) required_vars).
Proof.
  intros Hin Hk.
  assert (Hf : In k (List.filter (env_missing w) required_vars)).
  { apply filter_In. by split. }
  split; [| exact Hf].
  unfold __init__, bind at 1 2, _load_config.
  destruct (List.filter (env_missing w) required_vars); [destruct Hf | reflexivity].
Qed.

(** X2. [_load_config] returns exactly when the four required variables
    are set and not empty and the selector, in lower case, is one of the
    three control planes; it then stores the lower-cased selector, the
    logging flag (on unless the variable differs from "true" up to case)
    and the four credentials, and has no effect. *)
Theorem load_config_succeeds_iff w self self' st st' :
  _load_config w self st = (Ok self', st') <->
  List.filter (env_missing w) required_vars = [] /\
  str_in (lower (getenv_or w "ANYPOINT_CONTROL_PLANE" "us")) valid_control_planes = true /\
  self' = loaded_config w self /\ st' = st.
Proof.
  unfold _load_config. split.
  - destruct (List.filter (env_missing w) required_vars); [| discriminate].
    destruct (str_in _ valid_control_planes); [| discriminate].
    unfold ret. simpl. intros [= <- <-]. repeat split.
  - intros [-> [-> [-> ->]]]. reflexivity.
Qed.

(** X3. On a validated selector the lookup of the host cannot fail:
    [_setup_base_urls] returns, and both URLs are on the host the table
    gives for the selector. *)
Theorem setup_base_urls_total w self st :
  str_in (control_plane self) valid_control_planes = true ->
  exists host self' st',
    _setup_base_urls w self st = (Ok self', st') /\
    assoc_get (control_plane self) control_plane_domains = Some host /\
    auth_url self' = "https://" +:+ host +:+ "/accounts/api/v2/oauth2/token" /\
    base_url self' = "https://" +:+ host +:+ "/cloudhub/api" /\
    config self' = config self /\ fs st' = fs st.
Proof.
  intros Hv. unfold _setup_base_urls.
  assert (Hh : exists host, assoc_get (control_plane self) control_plane_domains = Some host).
  { unfold str_in, valid_control_planes in Hv. simpl in Hv.
    repeat (apply orb_true_iff in Hv; destruct Hv as [Hv | Hv]); try discriminate;
      apply String.eqb_eq in Hv; rewrite Hv; by eexists. }
  destruct Hh as [host Hh]. rewrite Hh. exists host.
  unfold bind. cbn [enable_endpoint_logging].
  destruct (enable_endpoint_logging self); simpl; eexists _, _; repeat split.
Qed.

(* ===================================================================== *)
(** ** Further properties: the constructor and the run *)
(* ===================================================================== *)

Lemma count_events_app p a b :
  count_events p (a ++ b) = count_events p a + count_events p b.
Proof. unfold count_events. by rewrite List.filter_app, length_app. Qed.

Lemma count_events_quiet p st st' :
  continues (none_of p) st st' -> count_events p (trace st') = count_events p (trace st).
Proof.
  intros [new [-> Hn]]. rewrite count_events_app.
  assert (count_events p new = 0) as ->; [| reflexivity].
  induction Hn as [| e l He _ IH]; [reflexivity |].
  unfold count_events in *. simpl. unfold none_of in He. by rewrite He.
Qed.

Lemma continues_requests_post w E url data :
  E (EPost url data) -> keeps (continues E) (requests_post w url data).
Proof.
  intros He st. exists [EPost url data]. split; [reflexivity | repeat constructor; exact He].
Qed.

(** Every event of the constructor is a console line, the authentication
    call or the creation of the run directory. *)
Lemma init_continues w (E : event -> Prop) :
  (forall line, E (EPrint line)) -> (forall url data, E (EPost url data)) ->
  (forall p, E (EMakedirs p)) ->
  keeps (continues E) (__init__ w).
Proof.
  intros Hp Hpost Hm.
  unfold __init__, _load_config, _setup_base_urls, _setup_session, _setup_download_dir,
    _log_endpoint, raise_for_status, makedirs.
  keeps_walk (continues_refl E) (continues_trans E)
    ltac:(first [ apply continues_emit, Hp | apply continues_requests_post, Hpost
                | apply continues_os_call, Hm ]).
Qed.

(** What [try: m except Exception as e: print(...)] returns. *)
Lemma try_print_returns (m : M unit) (text : exn -> str) st :
  try_except m any_Exception (fun e => print (text e)) st =
  match m st with
  | (Ok _, st') => (Ok tt, st')
  | (Raise e, st') => (Ok tt, snd (print (text e) st'))
  end.
Proof. unfold try_except. destruct (m st) as [[[] | e] st']; reflexivity. Qed.

Lemma process_all_applications_returns w self st :
  fst (process_all_applications w self st) = Ok tt.
Proof.
  unfold process_all_applications, bind at 1. simpl. rewrite try_print_returns.
  match goal with |- context [match ?x with _ => _ end] =>
    destruct x as [[[] | e] st'] end; reflexivity.
Qed.

(** X4. Neither [process_all_applications] nor [main] ever raises: each
    wraps its body in a handler of [Exception] that only prints. *)
Theorem run_never_raises w self st :
  fst (process_all_applications w self st) = Ok tt /\ fst (main w st) = Ok tt.
Proof.
  split; [apply process_all_applications_returns |].
  unfold main. rewrite try_print_returns.
  match goal with |- context [match ?x with _ => _ end] =>
    destruct x as [[[] | e] st'] end; reflexivity.
Qed.

(** X5. When the constructor raises, nothing has been created on disk
    and no GET has been issued; [main] prints the error after "Fatal
    error: " and returns. *)
Theorem failed_constructor_leaves_no_trace w st e st' :
  __init__ w st = (Raise e, st') ->
  fs st' = fs st /\
  continues (none_of is_get) st st' /\
  main w st = (Ok tt, snd (print ("Fatal error: " +:+ exn_str e) st')).
Proof.
  intros Hinit. split; [| split].
  - revert Hinit. unfold __init__. unfold bind at 1.
    assert (H1 : keeps same_fs (_load_config w new_object)).
    { unfold _load_config. keeps_walk same_fs_refl same_fs_trans idtac. }
    specialize (H1 st).
    destruct (_load_config w new_object st) as [[sa | e1] sta]; simpl in H1;
      [| by intros [= <- <-]].
    unfold bind at 1.
    assert (H2 : keeps same_fs (_setup_base_urls w sa)).
    { unfold _setup_base_urls.
      keeps_walk same_fs_refl same_fs_trans ltac:(intros ?; reflexivity). }
    specialize (H2 sta).
    destruct (_setup_base_urls w sa sta) as [[sb | e2] stb]; simpl in H2;
      [| intros [= <- <-]; unfold same_fs in *; congruence].
    unfold bind at 1.
    match goal with |- context [_setup_session w ?s stb] =>
      assert (H3 : keeps same_fs (_setup_session w s));
      [ unfold _setup_session, _log_endpoint, raise_for_status;
        keeps_walk same_fs_refl same_fs_trans ltac:(intros ?; reflexivity)
      | specialize (H3 stb);
        destruct (_setup_session w s stb) as [[sc | e3] stc]; simpl in H3;
        [| intros [= <- <-]; unfold same_fs in *; congruence] ]
    end.
    unfold _setup_download_dir, bind, datetime_now, makedirs, os_call. simpl.
    destruct (os_fault w _ _); [| discriminate].
    intros [= <- <-]. simpl. unfold same_fs in *. congruence.
  - pose proof (init_continues w (none_of is_get)
                  ltac:(done) ltac:(done) ltac:(done) st) as H.
    by rewrite Hinit in H.
  - unfold main. rewrite try_print_returns. unfold bind at 1. by rewrite Hinit.
Qed.

(** [_setup_session] issues the authentication call once at most. *)
Lemma setup_session_posts_once w self st :
  count_events is_post (trace (snd (_setup_session w self st))) <=
  S (count_events is_post (trace st)).
Proof.
  unfold _setup_session, _log_endpoint, try_except, bind, requests_post, print, emit.
  destruct (enable_endpoint_logging self); simpl;
    (destruct (http_post w _ _ _) as [r | e]; simpl;
     [ unfold raise_for_status; destruct (_ && _); simpl;
       [| unfold lift; destruct (body_json r) as [v | e]; simpl;
          [ destruct (py_subscript _ _ v _); simpl |] ]
     | ];
     repeat match goal with |- context [is_RequestException ?e] =>
              destruct (is_RequestException e); simpl end;
     unfold count_events; simpl; lia).
Qed.

(** X6. A run requests a token once at most: the authentication call is
    issued by the constructor only, and never again. *)
Theorem at_most_one_authentication w st :
  count_events is_post (trace (snd (main w st))) <= S (count_events is_post (trace st)).
Proof.
  assert (Hq : forall m : M MulesoftDownloader,
            keeps (continues (none_of is_post)) m -> forall s,
            count_events is_post (trace (snd (m s))) = count_events is_post (trace s)).
  { intros m Hm s. apply count_events_quiet, Hm. }
  assert (Hinit : forall s, count_events is_post (trace (snd (__init__ w s))) <=
                            S (count_events is_post (trace s))).
  { intros s. unfold __init__. unfold bind at 1.
    pose proof (Hq (_load_config w new_object)) as H1.
    specialize (H1 ltac:(unfold _load_config;
      keeps_walk (continues_refl (none_of is_post)) (continues_trans (none_of is_post)) idtac) s).
    destruct (_load_config w new_object s) as [[sa | e1] sta]; simpl in *; [| lia].
    unfold bind at 1.
    pose proof (Hq (_setup_base_urls w sa)) as H2.
    specialize (H2 ltac:(unfold _setup_base_urls;
      keeps_walk (continues_refl (none_of is_post)) (continues_trans (none_of is_post))
        ltac:(by apply continues_emit)) sta).
    destruct (_setup_base_urls w sa sta) as [[sb | e2] stb]; simpl in *; [| lia].
    unfold bind at 1.
    match goal with |- context [_setup_session w ?s0 stb] =>
      pose proof (setup_session_posts_once w s0 stb) as H3;
      destruct (_setup_session w s0 stb) as [[sc | e3] stc] end; simpl in *; [| lia].
    pose proof (Hq (_setup_download_dir w sc)) as H4.
    specialize (H4 ltac:(unfold _setup_download_dir, makedirs;
      keeps_walk (continues_refl (none_of is_post)) (continues_trans (none_of is_post))
        ltac:(by apply continues_os_call)) stc).
    lia. }
  unfold main. rewrite try_print_returns. unfold bind at 1.
  specialize (Hinit st).
  destruct (__init__ w st) as [[self | e] st1]; simpl in *.
  - unfold bind.
    pose proof (process_all_applications_continues w self (none_of is_post)
                  ltac:(done) ltac:(done) ltac:(done) ltac:(done) ltac:(done) st1) as Hp.
    apply count_events_quiet in Hp.
    destruct (process_all_applications w self st1) as [[[] | e] st2]; simpl in *;
      unfold count_events in *; simpl; lia.
  - unfold count_events in *; simpl; lia.
Qed.

(** X7. Once the constructor has returned, [main] ends with the line
    "Process completed successfully!", whatever happened to the list
    call and to the downloads. *)
Theorem success_line_follows_construction w st self st1 :
  __init__ w st = (Ok self, st1) ->
  main w st =
  (Ok tt, snd (print (nl +:+ "Process completed successfully!")
                 (snd (process_all_applications w self st1)))).
Proof.
  intros Hinit. unfold main. rewrite try_print_returns. unfold bind at 1. rewrite Hinit.
  unfold bind at 1.
  pose proof (process_all_applications_returns w self st1) as Hp.
  destruct (process_all_applications w self st1) as [[[] | e] st2]; [reflexivity |].
  discriminate Hp.
Qed.

(** X8. An authentication response without the key access_token makes
    [_setup_session] raise the KeyError of the lookup itself: it is no
    RequestException, so it is not rewritten into "Error during
    authentication", and the session headers are not set. *)
Theorem missing_access_token_raises_KeyError w self st resp body :
  let st0 := snd (_log_endpoint self
                    (nl +:+ "Calling authentication endpoint: " +:+ auth_url self) st) in
  let data := [("grant_type", "client_credentials");
               ("client_id", client_id (config self));
               ("client_secret", client_secret (config self))] in
  http_post w (trace st0) (auth_url self) data = Ok resp ->
  (400 <=? status_code resp) && (status_code resp <? 600) = false ->
  body_json resp = Ok (JObj body) -> assoc_get "access_token" body = None ->
  _setup_session w self st =
  (Raise (mk_exn KeyError (py_repr w (JStr "access_token"))),
   {| trace := EPost (auth_url self) data :: trace st0; fs := fs st0 |}).
Proof.
  intros st0 data Hpost Hstatus Hbody Hkey.
  assert (Hlog : _log_endpoint self
                   (nl +:+ "Calling authentication endpoint: " +:+ auth_url self) st
                 = (Ok tt, st0)).
  { unfold st0, _log_endpoint. destruct (enable_endpoint_logging self); reflexivity. }
  unfold _setup_session. unfold bind at 1. rewrite Hlog.
  unfold try_except, bind at 1, requests_post. fold data. rewrite Hpost.
  unfold bind at 1, raise_for_status. rewrite Hstatus. unfold ret at 1.
  unfold bind at 1, lift. rewrite Hbody.
  unfold bind, py_subscript. rewrite Hkey. reflexivity.
Qed.

(** X9. With endpoint logging off, the list call and a detail call print
    nothing: each adds its GET to the trace and nothing else. *)
Theorem quiet_calls_without_logging w self name st :
  enable_endpoint_logging self = false ->
  trace (snd (get_applications w self st)) =
    EGet ListCall (base_url self +:+ "/applications") (session_headers self) :: trace st /\
  trace (snd (get_application_info w self name st)) =
    EGet InfoCall (app_url w self name) (session_headers self) :: trace st.
Proof.
  intros Hoff. split.
  - unfold get_applications, _log_endpoint, try_except, bind, session_get. rewrite Hoff. simpl.
    destruct (http_get w _ ListCall _ _) as [r | e]; simpl.
    + unfold raise_for_status. destruct (_ && _); simpl; [reflexivity |].
      unfold lift. destruct (body_json r) as [v | e]; simpl; [reflexivity |].
      by destruct (is_RequestException e).
    + by destruct (is_RequestException e).
  - unfold get_application_info, _log_endpoint, try_except, bind, session_get.
    rewrite Hoff. simpl.
    destruct (http_get w _ InfoCall _ _) as [r | e]; simpl.
    + unfold raise_for_status. destruct (_ && _); simpl; [reflexivity |].
      unfold lift. destruct (body_json r) as [v | e]; simpl; [reflexivity |].
      by destruct (is_RequestException e).
    + by destruct (is_RequestException e).
Qed.

(* ===================================================================== *)
(** ** Further properties: the download *)
(* ===================================================================== *)

Lemma for_each_write_inv w path chunks : forall st st' old,
  for_each (file_write w path) chunks st = (Ok tt, st') ->
  files (fs st) !! path = Some old ->
  files (fs st') !! path = Some (old +:+ join_chunks chunks) /\ dirs (fs st') = dirs (fs st).
Proof.
  induction chunks as [| c cs IH]; intros st st' old H Hold.
  - injection H as <-. simpl. by rewrite str_app_nil_r.
  - cbn [for_each] in H. unfold bind, file_write, os_call in H.
    destruct (os_fault w (trace st) (EWrite path c)); [discriminate |].
    rewrite Hold in H.
    apply (IH _ _ (old +:+ c)) in H; [| simpl; apply lookup_insert_eq].
    destruct H as [H1 H2]. split; [| exact H2].
    rewrite H1. cbn [join_chunks fold_right]. by rewrite str_app_assoc.
Qed.

(** What a download that returned a path has done. *)
Lemma download_success_inv w self a fn st p st' :
  download_application w self a fn st = (Ok (Some p), st') ->
  exists sa sfn tr resp,
    a = JStr sa /\ fn = JStr sfn /\
    p = path_join (path_join (download_dir self) sa) sfn /\
    http_get w tr DownloadCall (app_url w self a +:+ "/download/" +:+ sfn)
      (session_headers self) = Ok resp /\
    (400 <=? status_code resp) && (status_code resp <? 600) = false /\
    body_error resp = None /\
    files (fs st') !! p = Some (join_chunks (body_chunks resp)) /\
    path_join (download_dir self) sa ∈ dirs (fs st').
Proof.
  unfold download_application. unfold bind at 1.
  destruct (_log_endpoint self _ st) as [[[] | e0] st0]; [| discriminate].
  unfold bind at 1, lift, py_path_join.
  destruct a as [| | | | sa | |]; try discriminate.
  unfold bind at 1, makedirs, os_call.
  destruct (os_fault w (trace st0) _); [discriminate |].
  unfold bind at 1.
  destruct fn as [| | | | sfn | |]; try discriminate.
  unfold try_except, bind at 1, session_get. cbn [trace fs py_str].
  destruct (http_get w _ DownloadCall _ _) as [resp | e1] eqn:Hget.
  2: { destruct (is_RequestException e1); discriminate. }
  unfold bind at 1, raise_for_status.
  destruct ((400 <=? status_code resp) && (status_code resp <? 600)) eqn:Hstatus.
  { simpl. discriminate. }
  unfold ret at 1. unfold bind at 1, open_write, os_call.
  destruct (os_fault w _ (EOpen _)); [discriminate |].
  unfold bind at 1, write_chunks, bind at 1.
  match goal with |- context [for_each ?f ?l ?s] =>
    destruct (for_each f l s) as [[[] | e2] st2] eqn:Hw end.
  2: { destruct (is_RequestException e2); discriminate. }
  destruct (body_error resp) as [e3 |] eqn:Herr.
  { unfold raise. destruct (is_RequestException e3); discriminate. }
  unfold ret, bind. intros [= <- <-].
  apply (for_each_write_inv _ _ _ _ _ "") in Hw; [| simpl; apply lookup_insert_eq].
  destruct Hw as [Hfile Hdirs].
  eexists sa, sfn, _, resp. repeat split; try eassumption.
  rewrite Hdirs. simpl. unfold made_dirs. clear. set_solver.
Qed.

(** X10. A download that returns a path has stored the artifact at
    <run directory>/<application>/<filename> (joined as os.path.join
    does): the file holds the chunks of the response, in order, and the
    directory of the application exists. *)
Theorem download_lands_in_run_directory w self a fn st p st' :
  download_application w self a fn st = (Ok (Some p), st') ->
  exists sa sfn tr resp,
    a = JStr sa /\ fn = JStr sfn /\
    p = path_join (path_join (download_dir self) sa) sfn /\
    http_get w tr DownloadCall (app_url w self a +:+ "/download/" +:+ sfn)
      (session_headers self) = Ok resp /\
    files (fs st') !! p = Some (join_chunks (body_chunks resp)) /\
    path_join (download_dir self) sa ∈ dirs (fs st').
Proof.
  intros H. destruct (download_success_inv _ _ _ _ _ _ _ H)
    as [sa [sfn [tr [resp [Ha [Hfn [Hp [Hget [_ [_ [Hfile Hdir]]]]]]]]]]].
  exists sa, sfn, tr, resp. repeat split; assumption.
Qed.

(** X11. A filename that starts with a slash is taken as it is: the
    artifact is stored at that absolute path, outside the run directory. *)
Theorem absolute_filename_leaves_run_directory w self a sfn st p st' :
  starts_with_slash sfn = true ->
  download_application w self a (JStr sfn) st = (Ok (Some p), st') ->
  p = sfn /\ exists content, files (fs st') !! sfn = Some content.
Proof.
  intros Habs H. destruct (download_success_inv _ _ _ _ _ _ _ H)
    as [sa [sfn' [tr [resp [Ha [Hfn [Hp [_ [_ [_ [Hfile _]]]]]]]]]]].
  injection Hfn as <-.
  assert (Hp' : p = sfn). { rewrite Hp. unfold path_join. by rewrite Habs. }
  split; [exact Hp' |]. rewrite <- Hp'. eauto.
Qed.

(** X12. When the server answers the download call with an error status,
    [download_application] prints the error and returns None; it has
    created the directory of the application and no file. *)
Theorem refused_download_leaves_empty_directory w self sa sfn st resp :
  let url := app_url w self (JStr sa) +:+ "/download/" +:+ sfn in
  let app_dir := path_join (download_dir self) sa in
  let st0 := snd (_log_endpoint self
                    (nl +:+ "Calling application download endpoint: " +:+ url) st) in
  os_fault w (trace st0) (EMakedirs app_dir) = None ->
  http_get w (EMakedirs app_dir :: trace st0) DownloadCall url (session_headers self) = Ok resp ->
  (400 <=? status_code resp) && (status_code resp <? 600) = true ->
  exists st',
    download_application w self (JStr sa) (JStr sfn) st = (Ok None, st') /\
    files (fs st') = files (fs st) /\
    dirs (fs st') = made_dirs app_dir ∪ dirs (fs st) /\
    trace st' =
      EPrint ("Error downloading application " +:+ sa +:+ ": " +:+ error_text resp)
      :: EGet DownloadCall url (session_headers self) :: EMakedirs app_dir :: trace st0.
Proof.
  intros url app_dir st0 Hmk Hget Hstatus.
  assert (Hlog : _log_endpoint self
                   (nl +:+ "Calling application download endpoint: " +:+ url) st = (Ok tt, st0)).
  { unfold st0, _log_endpoint. destruct (enable_endpoint_logging self); reflexivity. }
  assert (Hfs : fs st0 = fs st).
  { unfold st0, _log_endpoint. destruct (enable_endpoint_logging self); reflexivity. }
  unfold download_application. cbn [py_str]. fold url. unfold bind at 1. rewrite Hlog.
  unfold bind at 1, lift, py_path_join. fold app_dir.
  unfold bind at 1, makedirs, os_call. rewrite Hmk.
  unfold bind at 1.
  unfold try_except, bind at 1, session_get. cbn [trace fs]. rewrite Hget.
  unfold bind at 1, raise_for_status. rewrite Hstatus. unfold raise. cbn [is_RequestException exn_cls].
  unfold bind, print, emit. eexists. split; [reflexivity |].
  cbn [fs trace files dirs exn_str]. rewrite Hfs. repeat split.
Qed.

(** X13. An error of the operating system when the file is opened is not
    turned into None: it leaves [download_application] as an OSError
    (the handler there catches RequestException only), after the
    directory of the application has been created. *)
Theorem open_failure_escapes_download w self sa sfn st resp msg :
  let url := app_url w self (JStr sa) +:+ "/download/" +:+ sfn in
  let app_dir := path_join (download_dir self) sa in
  let out := path_join app_dir sfn in
  let st0 := snd (_log_endpoint self
                    (nl +:+ "Calling application download endpoint: " +:+ url) st) in
  let tr := EGet DownloadCall url (session_headers self) :: EMakedirs app_dir :: trace st0 in
  os_fault w (trace st0) (EMakedirs app_dir) = None ->
  http_get w (EMakedirs app_dir :: trace st0) DownloadCall url (session_headers self) = Ok resp ->
  (400 <=? status_code resp) && (status_code resp <? 600) = false ->
  os_fault w tr (EOpen out) = Some msg ->
  download_application w self (JStr sa) (JStr sfn) st =
  (Raise (mk_exn OSError msg),
   {| trace := EOpen out :: tr;
      fs := {| dirs := made_dirs app_dir ∪ dirs (fs st0); files := files (fs st0) |} |}).
Proof.
  intros url app_dir out st0 tr Hmk Hget Hstatus Hopen.
  assert (Hlog : _log_endpoint self
                   (nl +:+ "Calling application download endpoint: " +:+ url) st = (Ok tt, st0)).
  { unfold st0, _log_endpoint. destruct (enable_endpoint_logging self); reflexivity. }
  unfold download_application. cbn [py_str]. fold url. unfold bind at 1. rewrite Hlog.
  unfold bind at 1, lift, py_path_join. fold app_dir.
  unfold bind at 1, makedirs, os_call. rewrite Hmk.
  unfold bind at 1. fold out.
  unfold try_except, bind at 1, session_get. cbn [trace fs]. rewrite Hget.
  unfold bind at 1, raise_for_status. rewrite Hstatus. unfold ret at 1.
  unfold bind at 1, open_write, os_call. cbn [trace fs]. fold tr. rewrite Hopen.
  reflexivity.
Qed.

(* ===================================================================== *)
(** ** Further properties: the batch *)
(* ===================================================================== *)

(** X14. When the list call returns a value that has no length (null, a
    boolean or a number), [process_all_applications] reports the
    TypeError of [len] and stops there: nothing is written and no
    further call is made. *)
Theorem unsized_list_response_is_reported w self st v st_a :
  get_applications w self (snd (print "Starting applications download process..." st))
    = (Ok v, st_a) ->
  match v with JArr _ | JObj _ | JStr _ => False | _ => True end ->
  process_all_applications w self st =
  (Ok tt, snd (print ("Error during process: " +:+ interp_text w TypeError v) st_a)).
Proof.
  intros Hget Hv. unfold process_all_applications. unfold bind at 1. simpl.
  rewrite try_print_returns. unfold bind at 1. simpl in Hget. rewrite Hget.
  unfold bind at 1, lift, py_items.
  destruct v; try contradiction; reflexivity.
Qed.

(** X15. When the list call returns the empty list, the run writes the
    snapshot "[]" and does nothing else: the loop has no iteration. *)
Theorem empty_list_writes_snapshot_only w self st st_a :
  let st_p := snd (print (nl +:+ "Found 0 applications to process") st_a) in
  let json_path := path_join (download_dir self)
                     ("applications_list_" +:+ strftime (now w (trace st_p)) +:+ ".json") in
  get_applications w self (snd (print "Starting applications download process..." st))
    = (Ok (JArr []), st_a) ->
  os_fault w (trace st_p) (EOpen json_path) = None ->
  os_fault w (EOpen json_path :: trace st_p) (EWrite json_path "[]") = None ->
  exists st',
    process_all_applications w self st = (Ok tt, st') /\
    trace st' = EPrint ("Saved applications JSON to: " +:+ json_path)
                :: EWrite json_path "[]" :: EOpen json_path :: trace st_p /\
    files (fs st') = <[json_path := "[]"]> (files (fs st_a)) /\
    dirs (fs st') = dirs (fs st_a).
Proof.
  intros st_p json_path Hget Hopen Hwrite.
  unfold process_all_applications. unfold bind at 1. simpl.
  rewrite try_print_returns. unfold bind at 1. simpl in Hget. rewrite Hget.
  unfold bind at 1, lift, py_items. unfold bind at 1.
  change (print _ st_a) with (Ok tt, st_p).
  unfold bind at 1, save_snapshot, bind at 1, datetime_now.
  fold json_path. unfold bind at 1, open_write, os_call. rewrite Hopen.
  unfold bind at 1, file_write, os_call. cbn [trace fs files dumps json_dumps encode].
  rewrite Hwrite. rewrite lookup_insert_eq.
  eexists. split; [reflexivity |]. cbn [trace fs files dirs snd print emit].
  repeat split. by rewrite insert_insert_eq.
Qed.

(** X16. When the snapshot file cannot be opened, the batch is over
    before it starts: the error is reported by the outer handler and no
    application is processed. *)
Theorem snapshot_failure_aborts_batch w self st apps st_a msg :
  let st_p := snd (print (nl +:+ "Found " +:+ str_of_nat (length apps) +:+
                          " applications to process") st_a) in
  let json_path := path_join (download_dir self)
                     ("applications_list_" +:+ strftime (now w (trace st_p)) +:+ ".json") in
  get_applications w self (snd (print "Starting applications download process..." st))
    = (Ok (JArr apps), st_a) ->
  os_fault w (trace st_p) (EOpen json_path) = Some msg ->
  process_all_applications w self st =
  (Ok tt, {| trace := EPrint ("Error during process: " +:+ msg) :: EOpen json_path
                      :: trace st_p;
             fs := fs st_a |}).
Proof.
  intros st_p json_path Hget Hopen.
  unfold process_all_applications. unfold bind at 1. simpl.
  rewrite try_print_returns. unfold bind at 1. simpl in Hget. rewrite Hget.
  unfold bind at 1, lift, py_items. unfold bind at 1.
  change (print _ st_a) with (Ok tt, st_p).
  unfold bind at 1, save_snapshot, bind at 1, datetime_now.
  fold json_path. unfold bind at 1, open_write, os_call. rewrite Hopen.
  reflexivity.
Qed.

(** [get_applications] issues one list call, whatever comes back. *)
Lemma get_applications_count w self st :
  count_events is_list_call (trace (snd (get_applications w self st))) =
  S (count_events is_list_call (trace st)).
Proof.
  unfold get_applications, _log_endpoint, try_except, bind, session_get, print, emit.
  destruct (enable_endpoint_logging self); simpl;
    (destruct (http_get w _ ListCall _ _) as [r | e]; simpl;
     [ unfold raise_for_status; destruct (_ && _); simpl;
       [| unfold lift; destruct (body_json r) as [v | e]; simpl ]
     | ];
     repeat match goal with |- context [is_RequestException ?e] =>
              destruct (is_RequestException e); simpl end;
     reflexivity).
Qed.

(** X17. A run of [process_all_applications] issues the list call
    exactly once: there is no paging and no second attempt. *)
Theorem exactly_one_list_call w self st :
  count_events is_list_call (trace (snd (process_all_applications w self st))) =
  S (count_events is_list_call (trace st)).
Proof.
  set (E := none_of is_list_call).
  assert (Hrest : forall apps,
    keeps (continues E)
      (items <- lift (py_items (interp_text w) apps) ;;
       let total_apps := length items in
       print (nl +:+ "Found " +:+ str_of_nat total_apps +:+ " applications to process") ;;;
       save_snapshot w self apps ;;;
       for_enumerate (iteration w self total_apps) 1 items)).
  { intros apps.
    apply (keeps_bind _ (continues_trans E)); [apply (keeps_lift _ (continues_refl E)) |].
    intros items. cbv zeta.
    apply (keeps_bind _ (continues_trans E)); [by apply continues_emit |]. intros _.
    apply (keeps_bind _ (continues_trans E)).
    - apply keeps_save_snapshot;
        [apply continues_refl | apply continues_trans
        | intros; by apply continues_emit
        | intros e change _ He; apply continues_os_call; by destruct e].
    - intros _. apply (keeps_for_enumerate _ (continues_refl E) (continues_trans E)).
      intros i x. apply keeps_iteration;
        [apply continues_refl | apply continues_trans
        | intros; by apply continues_emit
        | intros; by apply continues_session_get
        | intros; by apply continues_session_get
        | intros e change _ He; apply continues_os_call; by destruct e]. }
  unfold process_all_applications. unfold bind at 1. simpl.
  rewrite try_print_returns. unfold bind at 1.
  match goal with |- context [get_applications w self ?s] =>
    pose proof (get_applications_count w self s) as Hc;
    destruct (get_applications w self s) as [[apps | e] st_a] end; simpl in Hc.
  - specialize (Hrest apps st_a). apply count_events_quiet in Hrest.
    match goal with |- context [match ?x with _ => _ end] =>
      destruct x as [[[] | e] st2] end; simpl in *;
      unfold count_events in *; simpl in *; lia.
  - unfold count_events in *; simpl in *; lia.
Qed.

(** The statements of [download_application] after its call add no call. *)
Lemma download_tail_quiet w path (r : response) :
  keeps (continues (none_of is_download_call))
    (raise_for_status r ;;; open_write w path ;;; write_chunks w path r ;;; ret (Some path)).
Proof.
  set (E := none_of is_download_call).
  unfold raise_for_status, open_write, write_chunks, file_write.
  keeps_walk (continues_refl E) (continues_trans E)
    ltac:(first [ by apply continues_os_call
                | apply (keeps_for_each _ (continues_refl E) (continues_trans E)); intros ?;
                  by apply continues_os_call ]).
Qed.

(** [download_application] issues the download call once at most. *)
Lemma download_application_count w self a fn st :
  count_events is_download_call (trace (snd (download_application w self a fn st))) <=
  S (count_events is_download_call (trace st)).
Proof.
  unfold download_application. unfold bind at 1.
  assert (Hlog : forall msg, count_events is_download_call
                   (trace (snd (_log_endpoint self msg st))) =
                 count_events is_download_call (trace st)).
  { intros msg. unfold _log_endpoint. destruct (enable_endpoint_logging self); reflexivity. }
  match goal with |- context [_log_endpoint self ?m st] =>
    specialize (Hlog m); destruct (_log_endpoint self m st) as [[[] | e0] st0] end;
    simpl in Hlog; [| simpl; lia].
  unfold bind at 1, lift. destruct (py_path_join _ _ a) as [app_dir | e1]; [| simpl; lia].
  unfold bind at 1, makedirs, os_call.
  destruct (os_fault w (trace st0) _); [unfold count_events in *; simpl; lia |].
  unfold bind at 1. destruct (py_path_join _ _ fn) as [out | e2];
    [| unfold count_events in *; simpl; lia].
  unfold try_except, bind at 1, session_get. cbn [trace fs].
  destruct (http_get w _ DownloadCall _ _) as [resp | e3].
  - match goal with |- context [bind (raise_for_status resp) ?k ?s] =>
      pose proof (download_tail_quiet w out resp s) as Hq;
      change (bind (raise_for_status resp) k s)
        with ((raise_for_status resp ;;; open_write w out ;;; write_chunks w out resp ;;;
               ret (Some out)) s) end.
    apply count_events_quiet in Hq.
    match goal with |- context [match ?x with _ => _ end] =>
      destruct x as [[res | e4] st2] end; simpl in *.
    + unfold count_events in *; simpl in *; lia.
    + destruct (is_RequestException e4); unfold count_events in *; simpl in *; lia.
  - destruct (is_RequestException e3); unfold count_events in *; simpl in *; lia.
Qed.

Lemma get_application_info_no_download_call w self name :
  keeps (continues (none_of is_download_call)) (get_application_info w self name).
Proof.
  apply keeps_get_application_info.
  - apply continues_refl.
  - apply continues_trans.
  - intros line. by apply continues_emit.
  - intros url. by apply continues_session_get.
Qed.

Lemma handle_info_count w self name info st :
  count_events is_download_call (trace (snd (handle_info w self name info st))) <=
  S (count_events is_download_call (trace st)).
Proof.
  unfold handle_info. unfold bind at 1, lift.
  destruct (py_get _ info "filename") as [filename | e]; [| simpl; lia].
  destruct (negb (truthy filename)); [unfold count_events; simpl; lia |].
  unfold bind at 1, print, emit. unfold bind.
  match goal with |- context [download_application w self name filename ?s] =>
    pose proof (download_application_count w self name filename s) as Hc;
    destruct (download_application w self name filename s) as [[[p |] | e] st2] end;
    simpl in *; try destruct (negb _); unfold count_events in *; simpl in *; lia.
Qed.

Lemma iteration_download_count w self total index app st :
  count_events is_download_call (trace (snd (iteration w self total index app st))) <=
  count_events is_download_call (trace st) + (if has_identifier app then 1 else 0).
Proof.
  unfold iteration. unfold bind at 1, lift.
  destruct app as [| b | z | f | s | l | l]; simpl; try lia.
  destruct (truthy _); cbn [negb]; [| simpl; lia].
  unfold bind at 1, print at 1, emit at 1. rewrite try_print_returns. unfold process_one, bind.
  match goal with |- context [get_application_info w self ?n ?s] =>
    pose proof (get_application_info_no_download_call w self n s) as Hq;
    apply count_events_quiet in Hq;
    destruct (get_application_info w self n s) as [[info | e] st2] end; simpl in *.
  - match goal with |- context [handle_info w self ?n info st2] =>
      pose proof (handle_info_count w self n info st2) as Hc;
      destruct (handle_info w self n info st2) as [[[] | e] st3] end;
      simpl in *; unfold count_events in *; simpl in *; lia.
  - unfold count_events in *; simpl in *; lia.
Qed.

(** X18. The loop issues one download call at most for each item that is
    a record with a usable identifier, and none for the others: nothing
    is ever downloaded twice or retried. *)
Theorem at_most_one_download_per_record w self total l : forall index st,
  count_events is_download_call
    (trace (snd (for_enumerate (iteration w self total) index l st))) <=
  count_events is_download_call (trace st) + length (List.filter has_identifier l).
Proof.
  induction l as [| a l IH]; intros index st; [simpl; lia |].
  cbn [for_enumerate List.filter]. unfold bind.
  pose proof (iteration_download_count w self total index a st) as Hc.
  destruct (iteration w self total index a st) as [[[] | e] st1]; simpl in Hc.
  - specialize (IH (S index) st1).
    destruct (has_identifier a); cbn [length]; lia.
  - simpl. destruct (has_identifier a); cbn [length]; lia.
Qed.

(** X19. The number printed for an application is its position in the
    whole list, counted from the first index: the records passed over
    without identifier keep their numbers. *)
Theorem printed_index_is_list_position w self total index pre l name st :
  Forall (fun a => is_record a = true) pre ->
  assoc_get "domain" l = Some name -> truthy name = true ->
  exists st1 st2 new,
    for_enumerate (iteration w self total) index pre st = (Ok tt, st1) /\
    for_enumerate (iteration w self total) index (pre ++ [JObj l]) st = (Ok tt, st2) /\
    trace st2 =
      new ++ EPrint (nl +:+ "Processing application " +:+ str_of_nat (index + length pre) +:+
                     " of " +:+ str_of_nat total +:+ ": " +:+ py_str w name) :: trace st1.
Proof.
  intros Hpre Hd Ht.
  destruct (for_enumerate_records w self total pre index st Hpre) as [st1 H1].
  assert (Hit : exists st2 new,
    iteration w self total (index + length pre) (JObj l) st1 = (Ok tt, st2) /\
    trace st2 =
      new ++ EPrint (nl +:+ "Processing application " +:+ str_of_nat (index + length pre) +:+
                     " of " +:+ str_of_nat total +:+ ": " +:+ py_str w name) :: trace st1).
  { unfold iteration, bind at 1, lift, py_get. rewrite Hd, Ht. cbn [negb].
    unfold bind at 1, print at 1, emit. rewrite try_print_returns.
    match goal with |- context [process_one w self name ?s] =>
      assert (Hq : continues (fun _ => True) s (snd (process_one w self name s)));
      [ apply keeps_process_one;
        [ apply continues_refl | apply continues_trans
        | intros; by apply continues_emit
        | intros; by apply continues_session_get
        | intros; by apply continues_session_get
        | intros; by apply continues_os_call ]
      | destruct (process_one w self name s) as [[[] | e] st2] ]
    end; simpl in Hq; destruct Hq as [new [Hnew _]].
    - exists st2, new. split; [reflexivity | exact Hnew].
    - eexists _, (_ :: new). split; [reflexivity |]. simpl. by rewrite Hnew. }
  destruct Hit as [st2 [new [Hi Htr]]].
  exists st1, st2, new. repeat split; auto.
  rewrite (for_enumerate_app _ _ _ _ _ _ H1). cbn [for_enumerate].
  unfold bind. by rewrite Hi.
Qed.

(** X20. A list of records none of which has a usable identifier is
    passed over in silence: the loop returns in the state it started in. *)
Theorem records_without_identifier_are_skipped w self total l : forall index st,
  Forall (fun a => is_record a = true /\ has_identifier a = false) l ->
  for_enumerate (iteration w self total) index l st = (Ok tt, st).
Proof.
  induction l as [| a l IH]; intros index st Hl; [reflexivity |].
  apply Forall_cons_iff in Hl. destruct Hl as [[Hr Hi] Hl].
  cbn [for_enumerate]. unfold bind at 1, iteration, bind at 1, lift, py_get.
  destruct a; try discriminate. unfold has_identifier in Hi. rewrite Hi. cbn [negb].
  unfold ret at 1. by apply IH.
Qed.

(** X21. When the detail call of an application breaks, the iteration
    prints one line that carries both prefixes, the one of
    [get_application_info] inside the one of the loop, and ends normally
    without touching the file system. *)
Theorem detail_failure_is_reported_with_both_prefixes w self total index l name e st :
  let st_p := snd (print (nl +:+ "Processing application " +:+ str_of_nat index +:+ " of " +:+
                          str_of_nat total +:+ ": " +:+ py_str w name) st) in
  let url := app_url w self name in
  let st0 := snd (_log_endpoint self
                    (nl +:+ "Calling application info endpoint: " +:+ url) st_p) in
  assoc_get "domain" l = Some name -> truthy name = true ->
  http_get w (trace st0) InfoCall url (session_headers self) = Raise e ->
  is_RequestException e = true ->
  iteration w self total index (JObj l) st =
  (Ok tt,
   {| trace := EPrint ("Error processing " +:+ py_str w name +:+
                       ": Error retrieving information for " +:+ py_str w name +:+ ": " +:+
                       exn_str e)
               :: EGet InfoCall url (session_headers self) :: trace st0;
      fs := fs st |}).
Proof.
  intros st_p url st0 Hd Ht Hget Hcls.
  assert (Hlog : _log_endpoint self
                   (nl +:+ "Calling application info endpoint: " +:+ url) st_p = (Ok tt, st0)).
  { unfold st0, _log_endpoint. destruct (enable_endpoint_logging self); reflexivity. }
  assert (Hfs : fs st0 = fs st).
  { unfold st0, _log_endpoint. destruct (enable_endpoint_logging self); reflexivity. }
  unfold iteration, bind at 1, lift, py_get. rewrite Hd, Ht. cbn [negb].
  unfold bind at 1. change (print _ st) with (Ok tt, st_p). cbv beta iota.
  rewrite try_print_returns. unfold process_one, bind at 1, get_application_info.
  fold url. unfold bind at 1. rewrite Hlog.
  unfold try_except, bind at 1, session_get. rewrite Hget, Hcls.
  unfold raise. cbn [exn_str print emit snd trace fs]. by rewrite Hfs.
Qed.

(** X22. In a run, authentication comes first: the events of [main]
    split into an earlier part without any GET and a later part
    without any POST. *)
Theorem authentication_precedes_every_get w st :
  exists before after,
    trace (snd (main w st)) = after ++ before ++ trace st /\
    Forall (none_of is_get) before /\ Forall (none_of is_post) after.
Proof.
  pose proof (init_continues w (none_of is_get) ltac:(done) ltac:(done) ltac:(done) st)
    as [before [Hb Fb]].
  unfold main. rewrite try_print_returns. unfold bind at 1.
  destruct (__init__ w st) as [[self | e] st1]; simpl in Hb.
  - unfold bind.
    pose proof (process_all_applications_continues w self (none_of is_post)
                  ltac:(done) ltac:(done) ltac:(done) ltac:(done) ltac:(done) st1)
      as [after [Ha Fa]].
    destruct (process_all_applications w self st1) as [[[] | e] st2]; simpl in *.
    + exists before, (EPrint (nl +:+ "Process completed successfully!") :: after).
      rewrite Ha, Hb. repeat split; auto. by constructor.
    + exists before, (EPrint ("Fatal error: " +:+ exn_str e) :: after).
      rewrite Ha, Hb. repeat split; auto. by constructor.
  - exists before, [EPrint ("Fatal error: " +:+ exn_str e)]. simpl. rewrite Hb.
    repeat split; auto. by repeat constructor.
Qed.

(* ===================================================================== *)
(** ** The theorems at work on the sample worlds *)
(* ===================================================================== *)

(** The detail call of [alpha] is refused (status 500), and the loop goes
    on with the three records after it: [beta] and [gamma] are taken up
    as numbers 3 and 4. *)
Lemma process_continues_after_failure_witness :
  exists st2 st3,
    st2 = snd (print ("Error processing " +:+ py_str sample_world (JStr "alpha") +:+ ": " +:+
                      exn_str (mk_exn PlainException
                                 "Error retrieving information for alpha: 500 Server Error"))
                 (snd (process_one sample_world sample_self (JStr "alpha")
                         (snd (print (nl +:+ "Processing application " +:+
                                      str_of_nat (1 + length (@nil json)) +:+ " of " +:+
                                      str_of_nat 4 +:+ ": " +:+
                                      py_str sample_world (JStr "alpha"))
                                 (initial empty_fs)))))) /\
    iteration sample_world sample_self 4 (1 + length (@nil json))
      (JObj [("domain", JStr "alpha"); ("status", JStr "STARTED")]) (initial empty_fs)
      = (Ok tt, st2) /\
    for_enumerate (iteration sample_world sample_self 4) (S (1 + length (@nil json)))
      [nameless_app; beta_app; gamma_app] st2 = (Ok tt, st3) /\
    for_enumerate (iteration sample_world sample_self 4) 1
      ([] ++ JObj [("domain", JStr "alpha"); ("status", JStr "STARTED")]
          :: [nameless_app; beta_app; gamma_app]) (initial empty_fs) = (Ok tt, st3) /\
    forall j l' name',
      [nameless_app; beta_app; gamma_app] !! j = Some (JObj l') ->
      assoc_get "domain" l' = Some name' -> truthy name' = true ->
      visited sample_world sample_self 4 (S (1 + length (@nil json)) + j) name' st2 st3.
Proof.
  apply (process_continues_after_failure sample_world sample_self 4 1 []
           [("domain", JStr "alpha"); ("status", JStr "STARTED")] (JStr "alpha")
           (mk_exn PlainException "Error retrieving information for alpha: 500 Server Error")
           [nameless_app; beta_app; gamma_app] (initial empty_fs) (initial empty_fs)).
  - repeat constructor.
  - reflexivity.
  - reflexivity.
  - reflexivity.
  - vm_compute. reflexivity.
Defined.


Lemma invalid_control_plane_fails_before_http_witness :
  exists e,
    __init__ mars_world (initial empty_fs) = (Raise e, initial empty_fs) /\
    (exn_cls e = ValueError \/ exn_cls e = KeyError) /\
    main mars_world (initial empty_fs) =
      (Ok tt, {| trace := EPrint ("Fatal error: " +:+ exn_str e) :: trace (initial empty_fs);
                 fs := fs (initial empty_fs) |}) /\
    forall f, Forall (fun ev => is_http ev = false) (trace (run mars_world f)).
Proof.
  apply (invalid_control_plane_fails_before_http mars_world (initial empty_fs)).
  vm_compute. reflexivity.
Defined.

Lemma requests_carry_credentials_witness :
  exists tr resp body tok,
    http_post sample_world tr (auth_url sample_self)
      [("grant_type", "client_credentials"); ("client_id", client_id (config sample_self));
       ("client_secret", client_secret (config sample_self))] = Ok resp /\
    body_json resp = Ok (JObj body) /\ assoc_get "access_token" body = Some tok /\
    forall st2,
      continues
        (fun e => match e with
                  | EGet _ _ hs =>
                      carries_credentials (py_str sample_world tok)
                        (getenv_or sample_world "ANYPOINT_ORG_ID" "")
                        (getenv_or sample_world "ANYPOINT_ENV_ID" "") hs
                  | EPost _ _ => False
                  | _ => True
                  end)
        st2 (snd (process_all_applications sample_world sample_self st2)).
Proof.
  apply (requests_carry_credentials sample_world (initial empty_fs) sample_self
           (snd (__init__ sample_world (initial empty_fs)))).
  vm_compute. reflexivity.
Defined.

(** The detail record of [beta] names no file. *)
Lemma missing_filename_skips_download_witness :
  exists st',
    iteration sample_world sample_self 4 3 (JObj [("domain", JStr "beta")]) (initial empty_fs)
      = (Ok tt, st') /\
    trace st' =
      [EPrint ("Received JSON: " +:+
               dumps sample_world (JObj [("domain", JStr "beta"); ("status", JStr "STARTED")]));
       EPrint ("Filename not found for " +:+ py_str sample_world (JStr "beta") +:+ ", skipping")]
      ++ trace (snd (get_application_info sample_world sample_self (JStr "beta")
                       (snd (print (nl +:+ "Processing application " +:+ str_of_nat 3 +:+
                                    " of " +:+ str_of_nat 4 +:+ ": " +:+
                                    py_str sample_world (JStr "beta"))
                               (initial empty_fs))))) /\
    continues no_download (initial empty_fs) st' /\
    fs st' = fs (initial empty_fs) /\
    for_enumerate (iteration sample_world sample_self 4) 3
      (JObj [("domain", JStr "beta")] :: [gamma_app]) (initial empty_fs) =
    for_enumerate (iteration sample_world sample_self 4) 4 [gamma_app] st'.
Proof.
  apply (missing_filename_skips_download sample_world sample_self 4 3
           [("domain", JStr "beta")] (JStr "beta")
           (JObj [("domain", JStr "beta"); ("status", JStr "STARTED")]) [gamma_app]
           (initial empty_fs)
           (snd (get_application_info sample_world sample_self (JStr "beta")
                   (snd (print (nl +:+ "Processing application " +:+ str_of_nat 3 +:+ " of " +:+
                                str_of_nat 4 +:+ ": " +:+ py_str sample_world (JStr "beta"))
                           (initial empty_fs)))))).
  - reflexivity.
  - reflexivity.
  - vm_compute. reflexivity.
  - reflexivity.
Defined.

Lemma sample_info_names url resp v :
  sample_info url = Ok resp -> body_json resp = Ok v ->
  Forall (fun s => is_component s = true) (response_names v).
Proof.
  unfold sample_info. intros H Hv.
  destruct (str_eqb url _); [| destruct (str_eqb url _)]; injection H as <-;
    try discriminate; injection Hv as <-; repeat constructor.
Qed.

Lemma sample_names_are_components : names_are_components sample_world.
Proof.
  intros tr [] url hs resp v H Hv; cbn in H.
  - injection H as <-. injection Hv as <-. repeat constructor.
  - by apply (sample_info_names url resp).
  - injection H as <-. discriminate.
Qed.

Lemma five_past_names_are_components : names_are_components five_past_world.
Proof.
  intros tr [] url hs resp v H Hv; cbn in H.
  - injection H as <-. injection Hv as <-. repeat constructor.
  - by apply (sample_info_names url resp).
  - injection H as <-. discriminate.
Qed.

Lemma run_directories_differ_by_second_witness :
  valid_datetime noon /\ valid_datetime five_past /\
  ("downloads_20240115_120000" = "downloads_20240115_120005" <-> same_second noon five_past) /\
  files (fs (snd (process_all_applications five_past_world
                    (with_download_dir sample_self "downloads_20240115_120005")
                    (snd (process_all_applications sample_world sample_self
                            (initial empty_fs))))))
    !! "downloads_20240115_120000/gamma/gamma.jar" = Some "PKdata" /\
  files (fs (snd (process_all_applications sample_world sample_self
                    (snd (process_all_applications five_past_world
                            (with_download_dir sample_self "downloads_20240115_120005")
                            (initial empty_fs))))))
    !! "downloads_20240115_120005/gamma/gamma.jar" = Some "PKnew".
Proof.
  assert (V1 : valid_datetime noon) by (unfold valid_datetime, noon; simpl; lia).
  assert (V2 : valid_datetime five_past) by (unfold valid_datetime, five_past; simpl; lia).
  assert (Hne : ~ same_second noon five_past).
  { intros [_ [_ [_ [_ [_ H]]]]]. discriminate H. }
  destruct (run_directories_differ_by_second sample_world five_past_world
              sample_self sample_self (initial empty_fs) (initial empty_fs)
              (with_download_dir sample_self "downloads_20240115_120000")
              (with_download_dir sample_self "downloads_20240115_120005")
              (snd (_setup_download_dir sample_world sample_self (initial empty_fs)))
              (snd (_setup_download_dir five_past_world sample_self (initial empty_fs)))
              eq_refl eq_refl V1 V2) as [Hiff Hkeep].
  destruct (Hkeep Hne) as [K2 K1].
  split; [exact V1 |]. split; [exact V2 |]. split; [exact Hiff |]. split.
  - rewrite (K2 five_past_names_are_components); [vm_compute; reflexivity | by eexists].
  - rewrite (K1 sample_names_are_components); [vm_compute; reflexivity | by eexists].
Defined.

(** With a server whose list call breaks: the directory is created right
    after the authentication call. *)
Lemma run_directory_created_at_startup_witness :
  fs (snd (configure_and_authenticate offline_world (initial empty_fs))) = fs (initial empty_fs) /\
  (exists url data older,
     trace (snd (configure_and_authenticate offline_world (initial empty_fs)))
     = EPost url data :: older) /\
  __init__ offline_world (initial empty_fs) =
    (Ok (with_download_dir (with_download_dir sample_self "downloads")
           "downloads_20240115_120000"),
     {| trace :=
          EMakedirs "downloads_20240115_120000"
          :: trace (snd (configure_and_authenticate offline_world (initial empty_fs)));
        fs := {| dirs := made_dirs "downloads_20240115_120000" ∪ dirs (fs (initial empty_fs));
                 files := files (fs (initial empty_fs)) |} |}) /\
  "downloads_20240115_120000" ∈
    made_dirs "downloads_20240115_120000" ∪ dirs (fs (initial empty_fs)) /\
  (forall self st2, fs_grows st2 (snd (process_all_applications offline_world self st2))) /\
  (forall st2, fs_grows st2 (snd (main offline_world st2))).
Proof.
  apply (run_directory_created_at_startup offline_world (initial empty_fs)
           (with_download_dir sample_self "downloads")
           (snd (configure_and_authenticate offline_world (initial empty_fs)))).
  vm_compute. reflexivity.
Defined.

(** The transfer of [gamma.jar] breaks after the chunks "PK" and "da". *)
Lemma download_not_atomic_witness :
  exists st',
    download_application broken_world sample_self (JStr "gamma") (JStr "gamma.jar")
      (initial empty_fs) = (Ok None, st') /\
    files (fs st') !! "downloads_20240115_120000/gamma/gamma.jar" = Some "PKda" /\
    "downloads_20240115_120000/gamma" ∈ dirs (fs st') /\
    exists earlier,
      trace st' = EPrint "Error downloading application gamma: Connection broken" :: earlier.
Proof.
  apply (download_not_atomic broken_world sample_self "gamma" "gamma.jar" (initial empty_fs)
           (stream_response ["PK"; "da"] (Some (mk_exn RequestException "Connection broken")))
           "PK" ["da"] (mk_exn RequestException "Connection broken")).
  - reflexivity.
  - reflexivity.
  - reflexivity.
  - reflexivity.
  - reflexivity.
  - reflexivity.
  - intros tr. reflexivity.
  - intros tr d. reflexivity.
Defined.

(** The string "oops" sits between two records: the second one is never visited. *)
Lemma non_record_aborts_loop_witness :
  exists st_c,
    for_enumerate (iteration mixed_world sample_self 3) 1 [beta_app]
      (snd ((print (nl +:+ "Found 3 applications to process") ;;;
             save_snapshot mixed_world sample_self (JArr [beta_app; JStr "oops"; gamma_app]))
              (snd (get_applications mixed_world sample_self
                      (snd (print "Starting applications download process..."
                              (initial empty_fs)))))))
      = (Ok tt, st_c) /\
    for_enumerate (iteration mixed_world sample_self 3) 1 [beta_app; JStr "oops"; gamma_app]
      (snd ((print (nl +:+ "Found 3 applications to process") ;;;
             save_snapshot mixed_world sample_self (JArr [beta_app; JStr "oops"; gamma_app]))
              (snd (get_applications mixed_world sample_self
                      (snd (print "Starting applications download process..."
                              (initial empty_fs)))))))
      = (Raise (mk_exn AttributeError (interp_text mixed_world AttributeError (JStr "oops"))),
         st_c) /\
    process_all_applications mixed_world sample_self (initial empty_fs) =
      (Ok tt, snd (print ("Error during process: " +:+
                          interp_text mixed_world AttributeError (JStr "oops")) st_c)).
Proof.
  apply (non_record_aborts_loop mixed_world sample_self [beta_app] (JStr "oops") [gamma_app]
           (initial empty_fs)
           (snd (get_applications mixed_world sample_self
                   (snd (print "Starting applications download process..."
                           (initial empty_fs)))))).
  - repeat constructor.
  - reflexivity.
  - vm_compute. reflexivity.
  - vm_compute. reflexivity.
Defined.



(** The organization is not set: the constructor stops on it. *)
Lemma missing_variable_raises_KeyError_witness :
  __init__ unset_world (initial empty_fs) =
  (Raise (mk_exn KeyError
            (py_repr unset_world
               (JStr ("Missing environment variables: " +:+
                      str_join ", " (List.filter (env_missing unset_world) required_vars))))),
   initial empty_fs) /\
  In "ANYPOINT_ORG_ID"%string (List.filter (env_missing unset_world) required_vars).
Proof.
  apply (missing_variable_raises_KeyError unset_world (initial empty_fs) "ANYPOINT_ORG_ID").
  - simpl. tauto.
  - vm_compute. reflexivity.
Defined.

Lemma setup_base_urls_total_witness :
  exists host self' st',
    _setup_base_urls sample_world sample_self (initial empty_fs) = (Ok self', st') /\
    assoc_get (control_plane sample_self) control_plane_domains = Some host /\
    auth_url self' = "https://" +:+ host +:+ "/accounts/api/v2/oauth2/token" /\
    base_url self' = "https://" +:+ host +:+ "/cloudhub/api" /\
    config self' = config sample_self /\ fs st' = fs (initial empty_fs).
Proof.
  apply (setup_base_urls_total sample_world sample_self (initial empty_fs)).
  vm_compute. reflexivity.
Defined.

(** The credentials are refused: one POST, no GET, nothing on disk. *)
Lemma failed_constructor_leaves_no_trace_witness :
  fs (snd (__init__ denied_world (initial empty_fs))) = fs (initial empty_fs) /\
  continues (none_of is_get) (initial empty_fs) (snd (__init__ denied_world (initial empty_fs))) /\
  main denied_world (initial empty_fs) =
    (Ok tt, snd (print ("Fatal error: " +:+
                        exn_str (mk_exn PlainException
                                   "Error during authentication: 401 Client Error: Unauthorized"))
                   (snd (__init__ denied_world (initial empty_fs))))).
Proof.
  apply (failed_constructor_leaves_no_trace denied_world (initial empty_fs)
           (mk_exn PlainException
              "Error during authentication: 401 Client Error: Unauthorized")
           (snd (__init__ denied_world (initial empty_fs)))).
  vm_compute. reflexivity.
Defined.

(** The list call breaks, and the run still ends with the success line. *)
Lemma success_line_follows_construction_witness :
  main offline_world (initial empty_fs) =
  (Ok tt, snd (print (nl +:+ "Process completed successfully!")
                 (snd (process_all_applications offline_world sample_self
                         (snd (__init__ offline_world (initial empty_fs))))))).
Proof.
  apply (success_line_follows_construction offline_world (initial empty_fs) sample_self
           (snd (__init__ offline_world (initial empty_fs)))).
  vm_compute. reflexivity.
Defined.

Lemma missing_access_token_raises_KeyError_witness :
  _setup_session tokenless_world sample_self (initial empty_fs) =
  (Raise (mk_exn KeyError (py_repr tokenless_world (JStr "access_token"))),
   {| trace := EPost (auth_url sample_self)
                 [("grant_type", "client_credentials");
                  ("client_id", client_id (config sample_self));
                  ("client_secret", client_secret (config sample_self))]
               :: trace (snd (_log_endpoint sample_self
                                (nl +:+ "Calling authentication endpoint: " +:+
                                 auth_url sample_self) (initial empty_fs)));
      fs := fs (snd (_log_endpoint sample_self
                       (nl +:+ "Calling authentication endpoint: " +:+
                        auth_url sample_self) (initial empty_fs))) |}).
Proof.
  apply (missing_access_token_raises_KeyError tokenless_world sample_self (initial empty_fs)
           (json_response (JObj [("error", JStr "invalid_client")]))
           [("error", JStr "invalid_client")]).
  - reflexivity.
  - reflexivity.
  - reflexivity.
  - reflexivity.
Defined.

Lemma quiet_calls_without_logging_witness :
  trace (snd (get_applications sample_world quiet_self (initial empty_fs))) =
    EGet ListCall (base_url quiet_self +:+ "/applications") (session_headers quiet_self)
    :: trace (initial empty_fs) /\
  trace (snd (get_application_info sample_world quiet_self (JStr "gamma") (initial empty_fs))) =
    EGet InfoCall (app_url sample_world quiet_self (JStr "gamma")) (session_headers quiet_self)
    :: trace (initial empty_fs).
Proof.
  apply (quiet_calls_without_logging sample_world quiet_self (JStr "gamma") (initial empty_fs)).
  reflexivity.
Defined.

(** The artifact of [gamma] lands under the run directory. *)
Lemma download_lands_in_run_directory_witness :
  exists sa sfn tr resp,
    JStr "gamma" = JStr sa /\ JStr "gamma.jar" = JStr sfn /\
    "downloads_20240115_120000/gamma/gamma.jar" =
      path_join (path_join (download_dir sample_self) sa) sfn /\
    http_get sample_world tr DownloadCall
      (app_url sample_world sample_self (JStr "gamma") +:+ "/download/" +:+ sfn)
      (session_headers sample_self) = Ok resp /\
    files (fs (snd (download_application sample_world sample_self (JStr "gamma")
                      (JStr "gamma.jar") (initial empty_fs)))) !!
      "downloads_20240115_120000/gamma/gamma.jar" = Some (join_chunks (body_chunks resp)) /\
    path_join (download_dir sample_self) sa ∈
      dirs (fs (snd (download_application sample_world sample_self (JStr "gamma")
                       (JStr "gamma.jar") (initial empty_fs)))).
Proof.
  apply (download_lands_in_run_directory sample_world sample_self (JStr "gamma")
           (JStr "gamma.jar") (initial empty_fs) "downloads_20240115_120000/gamma/gamma.jar"
           (snd (download_application sample_world sample_self (JStr "gamma")
                   (JStr "gamma.jar") (initial empty_fs)))).
  vm_compute. reflexivity.
Defined.

(** A server that names the file "/tmp/gamma.jar" has it written there. *)
Lemma absolute_filename_leaves_run_directory_witness :
  "/tmp/gamma.jar" = "/tmp/gamma.jar" /\
  exists content,
    files (fs (snd (download_application sample_world sample_self (JStr "gamma")
                      (JStr "/tmp/gamma.jar") (initial empty_fs)))) !! "/tmp/gamma.jar"
    = Some content.
Proof.
  apply (absolute_filename_leaves_run_directory sample_world sample_self (JStr "gamma")
           "/tmp/gamma.jar" (initial empty_fs) "/tmp/gamma.jar"
           (snd (download_application sample_world sample_self (JStr "gamma")
                   (JStr "/tmp/gamma.jar") (initial empty_fs)))).
  - reflexivity.
  - vm_compute. reflexivity.
Defined.

(** The download of [gamma.jar] is answered 404. *)
Lemma refused_download_leaves_empty_directory_witness :
  exists st',
    download_application refusing_world sample_self (JStr "gamma") (JStr "gamma.jar")
      (initial empty_fs) = (Ok None, st') /\
    files (fs st') = files (fs (initial empty_fs)) /\
    dirs (fs st') =
      made_dirs (path_join (download_dir sample_self) "gamma") ∪ dirs (fs (initial empty_fs)) /\
    trace st' =
      EPrint ("Error downloading application " +:+ "gamma" +:+ ": " +:+
              error_text (status_response 404 "404 Client Error: Not Found"))
      :: EGet DownloadCall
           (app_url refusing_world sample_self (JStr "gamma") +:+ "/download/" +:+ "gamma.jar")
           (session_headers sample_self)
      :: EMakedirs (path_join (download_dir sample_self) "gamma")
      :: trace (snd (_log_endpoint sample_self
                       (nl +:+ "Calling application download endpoint: " +:+
                        (app_url refusing_world sample_self (JStr "gamma") +:+ "/download/" +:+
                         "gamma.jar")) (initial empty_fs))).
Proof.
  apply (refused_download_leaves_empty_directory refusing_world sample_self "gamma" "gamma.jar"
           (initial empty_fs) (status_response 404 "404 Client Error: Not Found")).
  - reflexivity.
  - reflexivity.
  - reflexivity.
Defined.

(** The file of [gamma] cannot be opened: the OSError leaves the method. *)
Lemma open_failure_escapes_download_witness :
  download_application readonly_world sample_self (JStr "gamma") (JStr "gamma.jar")
    (initial empty_fs) =
  (Raise (mk_exn OSError "Permission denied"),
   {| trace :=
        EOpen (path_join (path_join (download_dir sample_self) "gamma") "gamma.jar")
        :: EGet DownloadCall
             (app_url readonly_world sample_self (JStr "gamma") +:+ "/download/" +:+ "gamma.jar")
             (session_headers sample_self)
        :: EMakedirs (path_join (download_dir sample_self) "gamma")
        :: trace (snd (_log_endpoint sample_self
                         (nl +:+ "Calling application download endpoint: " +:+
                          (app_url readonly_world sample_self (JStr "gamma") +:+ "/download/" +:+
                           "gamma.jar")) (initial empty_fs)));
      fs := {| dirs := made_dirs (path_join (download_dir sample_self) "gamma") ∪
                       dirs (fs (snd (_log_endpoint sample_self
                                        (nl +:+ "Calling application download endpoint: " +:+
                                         (app_url readonly_world sample_self (JStr "gamma") +:+
                                          "/download/" +:+ "gamma.jar")) (initial empty_fs))));
               files := files (fs (snd (_log_endpoint sample_self
                                          (nl +:+ "Calling application download endpoint: " +:+
                                           (app_url readonly_world sample_self (JStr "gamma") +:+
                                            "/download/" +:+ "gamma.jar"))
                                          (initial empty_fs)))) |} |}).
Proof.
  apply (open_failure_escapes_download readonly_world sample_self "gamma" "gamma.jar"
           (initial empty_fs) (stream_response ["PK"; "data"] None) "Permission denied").
  - reflexivity.
  - reflexivity.
  - reflexivity.
  - reflexivity.
Defined.

(** The list call answers null. *)
Lemma unsized_list_response_is_reported_witness :
  process_all_applications (answering_world JNull) sample_self (initial empty_fs) =
  (Ok tt, snd (print ("Error during process: " +:+
                      interp_text (answering_world JNull) TypeError JNull)
                 (snd (get_applications (answering_world JNull) sample_self
                         (snd (print "Starting applications download process..."
                                 (initial empty_fs))))))).
Proof.
  apply (unsized_list_response_is_reported (answering_world JNull) sample_self
           (initial empty_fs) JNull).
  - vm_compute. reflexivity.
  - exact I.
Defined.

(** The list call answers the empty list. *)
Lemma empty_list_writes_snapshot_only_witness :
  exists st',
    process_all_applications (answering_world (JArr [])) sample_self (initial empty_fs)
      = (Ok tt, st') /\
    trace st' =
      EPrint ("Saved applications JSON to: " +:+
              "downloads_20240115_120000/applications_list_20240115_120000.json")
      :: EWrite "downloads_20240115_120000/applications_list_20240115_120000.json" "[]"
      :: EOpen "downloads_20240115_120000/applications_list_20240115_120000.json"
      :: trace (snd (print (nl +:+ "Found 0 applications to process")
                       (snd (get_applications (answering_world (JArr [])) sample_self
                               (snd (print "Starting applications download process..."
                                       (initial empty_fs))))))) /\
    files (fs st') =
      <["downloads_20240115_120000/applications_list_20240115_120000.json" := "[]"]>
        (files (fs (snd (get_applications (answering_world (JArr [])) sample_self
                           (snd (print "Starting applications download process..."
                                   (initial empty_fs))))))) /\
    dirs (fs st') =
      dirs (fs (snd (get_applications (answering_world (JArr [])) sample_self
                       (snd (print "Starting applications download process..."
                               (initial empty_fs)))))).
Proof.
  apply (empty_list_writes_snapshot_only (answering_world (JArr [])) sample_self
           (initial empty_fs)
           (snd (get_applications (answering_world (JArr [])) sample_self
                   (snd (print "Starting applications download process..."
                           (initial empty_fs)))))).
  - vm_compute. reflexivity.
  - reflexivity.
  - reflexivity.
Defined.

(** The snapshot cannot be opened: none of the four applications is visited. *)
Lemma snapshot_failure_aborts_batch_witness :
  process_all_applications readonly_world sample_self (initial empty_fs) =
  (Ok tt,
   {| trace :=
        EPrint ("Error during process: " +:+ "Permission denied")
        :: EOpen "downloads_20240115_120000/applications_list_20240115_120000.json"
        :: trace (snd (print (nl +:+ "Found " +:+ str_of_nat (length sample_apps) +:+
                              " applications to process")
                         (snd (get_applications readonly_world sample_self
                                 (snd (print "Starting applications download process..."
                                         (initial empty_fs)))))));
      fs := fs (snd (get_applications readonly_world sample_self
                       (snd (print "Starting applications download process..."
                               (initial empty_fs))))) |}).
Proof.
  apply (snapshot_failure_aborts_batch readonly_world sample_self (initial empty_fs) sample_apps
           (snd (get_applications readonly_world sample_self
                   (snd (print "Starting applications download process..."
                           (initial empty_fs)))))
           "Permission denied").
  - vm_compute. reflexivity.
  - reflexivity.
Defined.

(** [beta] comes third, after a record without identifier: it is printed
    as number 3. *)
Lemma printed_index_is_list_position_witness :
  exists st1 st2 new,
    for_enumerate (iteration sample_world sample_self 4) 1 [alpha_app; nameless_app]
      (initial empty_fs) = (Ok tt, st1) /\
    for_enumerate (iteration sample_world sample_self 4) 1
      ([alpha_app; nameless_app] ++ [JObj [("domain", JStr "beta")]]) (initial empty_fs)
      = (Ok tt, st2) /\
    trace st2 =
      new ++ EPrint (nl +:+ "Processing application " +:+
                     str_of_nat (1 + length [alpha_app; nameless_app]) +:+
                     " of " +:+ str_of_nat 4 +:+ ": " +:+ py_str sample_world (JStr "beta"))
             :: trace st1.
Proof.
  apply (printed_index_is_list_position sample_world sample_self 4 1
           [alpha_app; nameless_app] [("domain", JStr "beta")] (JStr "beta")
           (initial empty_fs)).
  - repeat constructor.
  - reflexivity.
  - reflexivity.
Defined.

Lemma records_without_identifier_are_skipped_witness :
  for_enumerate (iteration sample_world sample_self 2) 1
    [nameless_app; JObj [("domain", JStr "")]] (initial empty_fs)
  = (Ok tt, initial empty_fs).
Proof.
  apply (records_without_identifier_are_skipped sample_world sample_self 2
           [nameless_app; JObj [("domain", JStr "")]] 1 (initial empty_fs)).
  repeat constructor.
Defined.

(** No detail call gets through. *)
Lemma detail_failure_is_reported_with_both_prefixes_witness :
  iteration offline_world sample_self 4 1 (JObj [("domain", JStr "alpha")]) (initial empty_fs) =
  (Ok tt,
   {| trace :=
        EPrint ("Error processing " +:+ py_str offline_world (JStr "alpha") +:+
                ": Error retrieving information for " +:+ py_str offline_world (JStr "alpha") +:+
                ": " +:+ exn_str (mk_exn RequestException "Connection refused"))
        :: EGet InfoCall (app_url offline_world sample_self (JStr "alpha"))
             (session_headers sample_self)
        :: trace (snd (_log_endpoint sample_self
                         (nl +:+ "Calling application info endpoint: " +:+
                          app_url offline_world sample_self (JStr "alpha"))
                         (snd (print (nl +:+ "Processing application " +:+ str_of_nat 1 +:+
                                      " of " +:+ str_of_nat 4 +:+ ": " +:+
                                      py_str offline_world (JStr "alpha"))
                                 (initial empty_fs)))));
      fs := fs (initial empty_fs) |}).
Proof.
  apply (detail_failure_is_reported_with_both_prefixes offline_world sample_self 4 1
           [("domain", JStr "alpha")] (JStr "alpha")
           (mk_exn RequestException "Connection refused") (initial empty_fs)).
  - reflexivity.
  - reflexivity.
  - reflexivity.
  - reflexivity.
Defined.
